(* ===== verification/_CoqProject ===== *)
-Q . S2P
Prelude.v
JsString.v
JsNumber.v
Url.v
Json.v
Fetch.v
Tmdb.v
SearchRoute.v
SearchBar.v
HeroSlider.v
Carousel.v
Header.v
EpisodeViewer.v
Pages.v
Cards.v
LegacyViewer.v
LegacySearch.v
