(* ===== verification/Prelude.v ===== *)
(** * A verification development for the Vertica TV-show front end

    The program (repository [kanishjn/Vertica_kj], TypeScript, Next.js) is a
    browser front end over the TMDB metadata API.  Its parts, and how they
    interact:

    - [src/lib/tmdb.ts], the metadata access shim: [buildUrl] builds an
      upstream URL from an endpoint, [tmdbFetch] checks that a credential is
      configured, sends the request (bearer header or [api_key] query
      parameter) and turns a non-2xx status into a thrown error; the list,
      detail, season and search operations call it.
    - [src/app/api/search/route.ts], the passthrough endpoint: [GET] reads
      the [q] parameter, answers an empty list for a blank query, and relays
      [searchShows] or a fixed 500 error.
    - [src/components/SearchBar.tsx] with the [useDebounce] hook and
      [SearchResults.tsx]: the client search box, a state machine driven by
      keystrokes, a 500 ms debounce timer, responses of [/api/search] that
      may arrive in any order, clicks and form submission.
    - [src/components/HeroSlider.tsx]: the slide index, the autoplay
      interval, the 10 s resume timeouts of the click handlers and the
      entrance animation timer.
    - [src/components/Carousel.tsx]: the scroll buttons derived from the
      geometry of a scrolling [div], and the 500 ms lock of [scroll].
    - [src/components/EpisodeViewer.tsx]: the episode closest to the centre
      of the scrolling container, the 150 ms scroll end timeout and the
      episode buttons; [offsetTop] is measured from the outer [relative]
      div, below which the container sits under a sticky header.
    - [src/components/Header.tsx]: the menu and search toggles, which mount
      a second [SearchBar] whose [onClose] closes the search panel.
    - [src/app/page.tsx], [src/app/tv/[id]/page.tsx],
      [src/app/show/[id]/page.tsx]: the home page (three list requests
      under [Promise.all]), the show page ([Number.parseInt] of the path,
      two requests, not-found on failure) and the old show page (a lookup
      in a constant object).

    The development is a library under the logical root of this project,
    one file per component, in dependency order:

    - [Prelude] (this file): the notation scope [vx_scope], the hint
      databases [vx] and [vx_rw], the tactics of the development and the
      generic lemmas on strings, lists and options that the components share.
    - [JsString]: the JavaScript string built-ins the code calls,
      [String.prototype.trim] and the truthiness of strings, on byte strings.
    - [JsNumber]: [Number.prototype.toFixed] for one fraction digit, with
      the decimal digits by well-founded recursion ([Equations]), and the
      date arithmetic of [Date.parse] on [YYYY-MM-DD] and [getFullYear] in
      a time zone, from the ECMAScript specification.
    - [Url]: [encodeURIComponent], the [application/x-www-form-urlencoded]
      serializer and parser of [URLSearchParams], and the part of the [URL]
      class [buildUrl] uses ([new URL], [searchParams.set], [toString]).
    - [Json]: JSON values as [res.json()] produces them and property access.
    - [Fetch]: the effect of [fetch] as a small free monad [FetchM] with
      exceptions ([throw], [try]/[catch]), its interpreter against a network
      that answers each request, and the observational equivalence of
      programs with its [Proper] instances.
    - [Tmdb]: [src/lib/tmdb.ts].
    - [SearchRoute]: [src/app/api/search/route.ts], and the instance of the
      [SearchEndpoint] interface that the client relies on.
    - [SearchBar]: the search box, its debounce and its rendering decision.
    - [HeroSlider], [Carousel], [EpisodeViewer]: the three stateful display
      components, each a [Module] whose [State] record holds the [useState]
      hooks and the pending timers, whose [step] is the handler, effect or
      timer callback an [Event] stands for, and whose [view] is the render.
    - [Header]: the header composed with two [SearchBar] states, the mobile
      one present exactly while its panel is open.
    - [Pages]: [Promise.all] over [FetchM], [HomePage], [ShowPage], the old
      show page and [Object.prototype] lookup.
    - [Cards]: the presentational components, [PosterCard.tsx],
      [show-card.tsx], [ShowHeader.tsx], [show-header.tsx], the rows of
      [SearchResults.tsx], [show-carousel.tsx] and [not-found.tsx], each a
      [Module] with its props, its hover or load flag and its [view].
    - [LegacyViewer]: [src/components/episode-viewer.tsx], the viewer the
      old show page renders; its loop is the text of [EpisodeViewer]'s and
      the model reuses that definition.
    - [LegacySearch]: [src/components/search-bar.tsx] and
      [search-results.tsx], the older search box over a constant list.

    What the theorems show, by group.
    - The search path end to end: every reachable state of the search box
      keeps its invariant; a request leaves only when the debounce timer is
      due, exactly one and for the current non-blank value; a typing burst
      sends nothing; the route reads back exactly the trimmed text the
      client encoded ([encodeURIComponent] and the form decoder round
      trip), calls TMDB once with it, and refines the [SearchEndpoint]
      interface against which the client's error handling is proved: the
      failure of any request in flight empties the results.  Answers are
      applied in arrival order with no check of their query, so an older
      answer arriving last wins, and one arriving after the box is cleared
      refills results that Enter then navigates to.
    - The TMDB shim: the request carries a credential exactly when the
      configuration says so, which exposes the empty token case; the URL
      [buildUrl] makes carries [language], the key when it is sent, and
      the endpoint's own parameters; every operation's calls and outcome
      on every branch, errors included.
    - The display components: each has a reachability invariant proved by
      rule induction over [reach] (index in range, timers consistent with
      the flags, buttons consistent with the geometry); slide arithmetic
      round trips and cycles; autoplay advances within 5 s (a liveness
      bound); carousel clicks are 500 ms apart, and clicking the right
      arrow terminates within a bound of rounds (a decreasing measure, the
      distance to the end); the closest-episode loop equals a recursive
      argmin and is optimal; a click on an episode selects it exactly when
      no episode is closer to the point one header height above its
      centre, so with a tall enough header the click selects another
      episode; the resume timers of the slider's clicks are never
      cancelled, so autoplay resumes 10 s after the first click of a
      series; the header's mobile box is mounted exactly while open.
    - The pages: invalid identifiers give not-found, an id followed by any
      non-digit text gives the id's page; the link round trip [`${id}`]
      then [parseInt]; the requests of the home page; on every home page
      that renders the [#trending] link has no target; the old page's
      lookup accepts every [Object.prototype] member and then fails while
      rendering.
    - The cards: a poster card's link leads the show page to its show; the
      rating it prints is a well-formed numeral within half a tenth of the
      value; the year it prints is the specification's [YearFromTime] of
      the local time, which is the year before for January 1 west of UTC;
      for every date [Date.parse] cannot read [ShowHeader] prints [NaN],
      where [PosterCard] prints [TBA] for an empty date.
    - The older components: the newer viewer keeps the older one's
      selection on every run of user events (by construction, the loop
      being the same text); the older search box settles
      on the filter of its query, delivers it when its timeout fires, and
      can be left with a spinner that no timer removes.

    Time and fuel.  No definition needs fuel: every loop of the code is a
    structural recursion over a list or a string, and the decimal digits of
    [toFixed] recurse on [n / 10] by well-founded recursion on [n].  Time is an integer
    number of milliseconds; [Wait dt] advances it only up to the next
    pending deadline, and each timer fires by its own event, so every
    interleaving of timers and user events the browser allows is a run,
    and the liveness bounds (5000 ms, 500 ms, 150 ms) are stated over all
    runs.  Layout values of [EpisodeViewer] are exact rationals: an
    element's [offsetTop], its height, and the container's own [offsetTop]
    below the outer div (the sticky header's height) are inputs, and
    [scrollIntoView] centres the element in the container's content.  The
    display components' [view] functions return the structure of the
    markup that depends on state (which slide, dot, button or card is
    active, which texts and links appear), not class names.

    Not modelled: [LoadingSkeleton.tsx], [loading.tsx] and [layout.tsx],
    constant markup with nothing computed; class names, animations, the
    smoothness of scrolling and the scroll snapping of the episode
    containers ([scrollSnapType], which the browser applies after a
    scroll and which moves the position the model reads); the digits [ToString] prints for a rating in
    [show-card.tsx] and [show-header.tsx] (the views keep the number);
    [Date.parse] on strings other than [YYYY-MM-DD], which engines read by
    their own heuristics; logging.

    Modelling choices.  Strings are Rocq [string]s, read as the UTF-8 bytes
    of the JavaScript string: [encodeURIComponent] and the URL serializer
    work on those bytes, as the standards define them; the whitespace of
    [trim] is the ASCII whitespace (tab, LF, VT, FF, CR, space), and the
    non-ASCII spaces JavaScript also trims are not modelled.  Effects are
    explicit: [fetch] is a constructor of [FetchM] whose continuation takes
    the network's answer, so "no upstream call" is a statement about the
    trace of requests the interpreter records. *)

From stdpp Require Export base list strings option decidable sets.
From Stdlib Require Export ZArith Lia Ascii.

Declare Scope vx_scope.
Delimit Scope vx_scope with vx.

Create HintDb vx discriminated.
Create Rewrite HintDb vx_rw.

(** ** Tactics of the development *)

(** Case analysis on every [match] and [if] of the goal, with the equations
    simplified. *)
Ltac vx_cases :=
  repeat (case_match; simplify_eq/=; try done).

(** Inversion that leaves no equations behind. *)
Ltac vx_inv H := inversion H; subst; clear H.

(** The 256 cases of a byte, each closed by computation. *)
Ltac byte_cases c := destruct c as [[] [] [] [] [] [] [] []].

(** Rewrite with the development's rewrite database and simplify. *)
Ltac vx_simpl := autorewrite with vx_rw in *; simpl in *.

(** ** Generic lemmas on strings *)

(** [String.append] is [simpl never] under stdpp: this equation is the
    computation step the proofs rewrite with. *)
Lemma string_app_cons (c : Ascii.ascii) (s1 s2 : string) :
  (String c s1 +:+ s2)%string = String c (s1 +:+ s2).
Proof. done. Qed.

Lemma string_app_nil_l (s : string) : ("" +:+ s)%string = s.
Proof. done. Qed.

Lemma string_app_nil_r (s : string) : (s +:+ "")%string = s.
Proof. induction s as [|c s IH]; [done | (rewrite string_app_cons, IH; done)]. Qed.

Lemma string_app_assoc (s1 s2 s3 : string) :
  (s1 +:+ (s2 +:+ s3))%string = ((s1 +:+ s2) +:+ s3)%string.
Proof. induction s1 as [|c s IH]; [done | (rewrite string_app_cons, IH; done)]. Qed.

Lemma string_length_app (s1 s2 : string) :
  String.length (s1 +:+ s2) = String.length s1 + String.length s2.
Proof. induction s1 as [|c s IH]; [done | (rewrite string_app_cons; simpl; lia)]. Qed.

Lemma string_app_nil_inv (s1 s2 : string) : (s1 +:+ s2)%string = "" → s1 = "" ∧ s2 = "".
Proof. by destruct s1, s2. Qed.

#[export] Hint Rewrite string_app_nil_l string_app_nil_r string_app_cons string_length_app : vx_rw.

(** [String.eqb] decides equality; its reflection lemma in [bool_decide]
    form lets [case_bool_decide] do the case analysis. *)
Lemma string_eqb_decide (s t : string) : String.eqb s t = bool_decide (s = t).
Proof.
  destruct (String.eqb_spec s t); case_bool_decide; congruence.
Qed.

#[export] Hint Rewrite string_eqb_decide : vx_rw.

(** ** Generic lemmas on lists and options *)

(** [l.length > 0]. *)
Definition nonempty {A} (l : list A) : bool := match l with [] => false | _ => true end.

Lemma nonempty_false {A} (l : list A) : nonempty l = false ↔ l = [].
Proof. by destruct l. Qed.

Lemma Some_pair_inv {A B} (p : A * B) (a : A) (b : B) : Some p = Some (a, b) → a = p.1 ∧ b = p.2.
Proof. by intros [= ->]. Qed.

Lemma take_length_le {A} (n : nat) (l : list A) : length (take n l) ≤ n.
Proof. rewrite length_take. lia. Qed.

#[export] Hint Resolve take_length_le : vx.

Lemma take_nil_iff {A} (n : nat) (l : list A) :
  take n l = [] ↔ n = 0 ∨ l = [].
Proof.
  split.
  - destruct n, l; simpl; auto; discriminate.
  - by intros [-> | ->]; [| rewrite take_nil].
Qed.

(** Deleting another element of a list keeps [x]. *)
Lemma elem_of_delete_other {A} (x y : A) (i : nat) (l : list A) :
  x ∈ l → l !! i = Some y → y ≠ x → x ∈ delete i l.
Proof.
  intros [j Hj]%list_elem_of_lookup Hi Hne.
  destruct (lt_eq_lt_dec j i) as [[Hlt| ->]|Hgt]; [| congruence |].
  - apply list_elem_of_lookup. exists j. by rewrite list_lookup_delete_lt.
  - apply list_elem_of_lookup. exists (j - 1). rewrite list_lookup_delete_ge by lia.
    by replace (S (j - 1)) with j by lia.
Qed.

(** ** Integer division by a positive constant

    [lia] reasons about [a / c] through these bounds: [div_facts] names
    every quotient of the goal and of its hypotheses and adds its two bounds, after which the
    goal is linear. *)
Lemma div_bounds (a c : Z) : (0 < c)%Z → (c * (a / c) ≤ a < c * (a / c) + c)%Z.
Proof. intros Hc. pose proof (Z.div_mod a c ltac:(lia)). pose proof (Z.mod_pos_bound a c Hc). lia. Qed.

Ltac div_facts :=
  repeat match goal with
  | |- context [(?a / ?c)%Z] =>
      let H := fresh "Hdiv" in let q := fresh "q" in
      assert (H := div_bounds a c ltac:(lia)); revert H;
      set (q := (a / c)%Z) in *; clearbody q
  | _ : context [(?a / ?c)%Z] |- _ =>
      let H := fresh "Hdiv" in let q := fresh "q" in
      assert (H := div_bounds a c ltac:(lia)); revert H;
      set (q := (a / c)%Z) in *; clearbody q
  end; intros.

(** ** Event-driven components

    A component is a partial step function: an event that the rendered
    component cannot receive (a button that is not shown, a timer that is
    not due) has no step.  [runs] plays a sequence of events and [reach] is
    the set of states reachable from the first render; [reach_ind_inv] is
    the rule induction every invariant proof of a component uses. *)
Section Machine.
Context {S E : Type} (step : S → E → option S) (s0 : S).

Fixpoint runs (s : S) (es : list E) : option S :=
  match es with
  | [] => Some s
  | e :: es' => s' ← step s e; runs s' es'
  end.

Inductive reach : S → Prop :=
| reach_start : reach s0
| reach_next s e s' : reach s → step s e = Some s' → reach s'.

Lemma reach_ind_inv (P : S → Prop) :
  P s0 → (∀ s e s', P s → step s e = Some s' → P s') → ∀ s, reach s → P s.
Proof. intros H0 Hs s Hr. induction Hr; eauto. Qed.

Lemma runs_cons_some s e s1 es : step s e = Some s1 → runs s (e :: es) = runs s1 es.
Proof. simpl. by intros ->. Qed.

Lemma runs_app s es1 es2 :
  runs s (es1 ++ es2) = s' ← runs s es1; runs s' es2.
Proof.
  revert s. induction es1 as [|e es IH]; intros s; simpl; [done|].
  destruct (step s e); simpl; [apply IH | done].
Qed.

Lemma runs_reach s es s' : reach s → runs s es = Some s' → reach s'.
Proof.
  revert s. induction es as [|e es IH]; intros s Hr; simpl; [by intros [= <-]|].
  destruct (step s e) as [s1|] eqn:Hst; [|done]. intros H. eapply IH; [|exact H].
  by eapply reach_next.
Qed.
(** A reflexive and transitive relation that every step establishes
    between its states holds between the two ends of every run. *)
Lemma runs_rel (R : S → S → Prop) `{!PreOrder R} s es s' :
  (∀ s e s', step s e = Some s' → R s s') → runs s es = Some s' → R s s'.
Proof.
  intros Hstep. revert s. induction es as [|e es IH]; intros s; simpl; [by intros [= <-]|].
  destruct (step s e) as [s1|] eqn:Hst; [|done]. intros H. etrans; [by eapply Hstep | by apply IH].
Qed.

(** A property every step keeps holds after any run. *)
Lemma runs_preserve (P : S → Prop) s es s' :
  (∀ s e s', P s → step s e = Some s' → P s') → P s → runs s es = Some s' → P s'.
Proof.
  intros Hstep. revert s. induction es as [|e es IH]; intros s Hs; simpl; [by intros [= <-]|].
  destruct (step s e) as [s1|] eqn:Hst; [|done]. intros H. apply (IH s1); [by eapply Hstep | done].
Qed.
End Machine.

Arguments reach {S E} step s0 _.
