(* ===== verification/JsString.v ===== *)
(** * JavaScript string built-ins used by the code

    [String.prototype.trim] (ECMAScript TrimString with [where] = start+end),
    the truthiness of strings ([!s], [s || ""]) and the conversion of a
    number to its decimal string, on byte strings.  The whitespace set is
    the ASCII part of WhiteSpace and LineTerminator: tab, LF, VT, FF, CR and
    space, which is stdpp's [Ascii.is_space]. *)

From S2P Require Import Prelude.
From Stdlib Require Import DecimalString DecimalZ.

Module JsString.

(** ** Definitions *)

(** Leading whitespace removed. *)
Fixpoint trimStart (s : string) : string :=
  match s with
  | "" => ""
  | String c s' => if Ascii.is_space c then trimStart s' else s
  end%string.

(** Trailing whitespace removed. *)
Fixpoint trimEnd (s : string) : string :=
  match s with
  | "" => ""
  | String c s' =>
      match trimEnd s' with
      | "" => if Ascii.is_space c then "" else String c ""
      | r => String c r
      end
  end%string.

(** [s.trim()]. *)
Definition trim (s : string) : string := trimEnd (trimStart s).

(** A string is falsy exactly when it is empty. *)
Definition truthy (s : string) : bool := negb (String.eqb s "").

(** [!q.trim()]: the query is blank. *)
Definition isBlank (q : string) : bool := String.eqb (trim q) "".

(** Every byte is whitespace. *)
Fixpoint all_space (s : string) : bool :=
  match s with
  | "" => true
  | String c s' => Ascii.is_space c && all_space s'
  end%string.

(** [`${n}`] for an integer-valued number [n] below [10^21] in absolute
    value: its decimal digits, with a minus sign when negative. *)
Definition number_to_string (n : Z) : string :=
  NilEmpty.string_of_int (Z.to_int n).

(** [s.toLowerCase()] on ASCII letters. *)
Definition lower_byte (c : Ascii.ascii) : Ascii.ascii :=
  let n := Ascii.nat_of_ascii c in
  if (65 <=? n) && (n <=? 90) then Ascii.ascii_of_nat (n + 32) else c.

Fixpoint toLowerCase (s : string) : string :=
  match s with
  | "" => ""
  | String c s' => String (lower_byte c) (toLowerCase s')
  end%string.

(** [s.replace(/\s+/g, r)] where [r] is one byte: each maximal run of
    whitespace becomes [r]; [in_run] says whether the previous byte was
    whitespace. *)
Fixpoint replace_ws_runs (r : Ascii.ascii) (in_run : bool) (s : string) : string :=
  match s with
  | "" => ""
  | String c s' =>
      if Ascii.is_space c then
        if in_run then replace_ws_runs r true s' else String r (replace_ws_runs r true s')
      else String c (replace_ws_runs r false s')
  end%string.

(** [Number.parseInt(s)] (radix [undefined]), ECMAScript 19.2.5: leading
    whitespace removed, an optional sign, then radix 16 after a [0x] or
    [0X] prefix and radix 10 otherwise, and the longest prefix of digits
    of the radix; [None] is [NaN].  The value is exact ([-0] is [0]); the
    rounding of more than 20 significant digits to a double is not
    modelled. *)
Definition digit_of (c : Ascii.ascii) : nat :=
  let n := Ascii.nat_of_ascii c in
  if (48 <=? n) && (n <=? 57) then n - 48
  else if (65 <=? n) && (n <=? 90) then n - 55
  else if (97 <=? n) && (n <=? 122) then n - 87
  else 36.

(** The longest prefix of digits of radix [R]. *)
Fixpoint take_digits (R : nat) (s : string) : list nat :=
  match s with
  | EmptyString => []
  | String c s' => if digit_of c <? R then digit_of c :: take_digits R s' else []
  end.

Definition digits_value (R : Z) (ds : list nat) : Z :=
  foldl (λ acc d, acc * R + Z.of_nat d)%Z 0%Z ds.

(** The sign, and the rest. *)
Definition sign_prefix (s : string) : Z * string :=
  match s with
  | String c s' =>
      if Ascii.eqb c "-" then (-1, s')%Z else if Ascii.eqb c "+" then (1, s')%Z else (1, s)%Z
  | "" => (1, s)%Z
  end%string.

(** The radix, and the rest. *)
Definition radix_prefix (s : string) : nat * string :=
  match s with
  | String z (String x s') =>
      if Ascii.eqb z "0" && (Ascii.eqb x "x" || Ascii.eqb x "X") then (16, s') else (10, s)
  | _ => (10, s)
  end%string.

Definition parseInt (s : string) : option Z :=
  let '(sign, s1) := sign_prefix (trimStart s) in
  let '(R, s2) := radix_prefix s1 in
  match take_digits R s2 with
  | [] => None
  | ds => Some (sign * digits_value (Z.of_nat R) ds)%Z
  end.

(** ** Lemmas *)

Lemma trimStart_all_space s : all_space s = true → trimStart s = "".
Proof.
  induction s as [|c s IH]; [done|]. simpl.
  destruct (Ascii.is_space c); [auto | discriminate].
Qed.

Lemma trimEnd_all_space s : all_space s = true → trimEnd s = "".
Proof.
  induction s as [|c s IH]; [done|]. simpl.
  destruct (Ascii.is_space c) eqn:Hc; [|discriminate].
  intros Hs. by rewrite (IH Hs).
Qed.

Lemma trimEnd_empty_iff s : trimEnd s = "" ↔ all_space s = true.
Proof.
  split; [|apply trimEnd_all_space].
  induction s as [|c s IH]; [done|]. simpl.
  destruct (trimEnd s) eqn:E.
  - destruct (Ascii.is_space c); [auto | discriminate].
  - discriminate.
Qed.

Lemma trimStart_empty_iff s : trimStart s = "" ↔ all_space s = true.
Proof.
  split; [|apply trimStart_all_space].
  induction s as [|c s IH]; [done|]. simpl.
  destruct (Ascii.is_space c); [auto | discriminate].
Qed.

Lemma trimStart_all_space_iff s : all_space (trimStart s) = all_space s.
Proof.
  induction s as [|c s IH]; [done|]. simpl.
  destruct (Ascii.is_space c) eqn:Hc; simpl; [done|]. by rewrite Hc.
Qed.

(** [trim] gives the empty string exactly on all-whitespace input. *)
Lemma trim_empty_iff s : trim s = "" ↔ all_space s = true.
Proof.
  unfold trim. rewrite trimEnd_empty_iff, trimStart_all_space_iff. done.
Qed.

(** [!q.trim()] holds exactly when every byte of [q] is whitespace (the
    empty string included). *)
Lemma isBlank_spec q : isBlank q = all_space q.
Proof.
  unfold isBlank. destruct (String.eqb_spec (trim q) "") as [H|H].
  - by apply trim_empty_iff in H.
  - destruct (all_space q) eqn:E; [|done].
    exfalso. by apply H, trim_empty_iff.
Qed.

(** The first byte of a trimmed non-empty string is not whitespace. *)
Definition head_not_space (s : string) : Prop :=
  match s with "" => True | String c _ => Ascii.is_space c = false end%string.

Lemma trimStart_head s : head_not_space (trimStart s).
Proof.
  induction s as [|c s IH]; [done|]. simpl.
  destruct (Ascii.is_space c) eqn:Hc; [done|]. simpl. done.
Qed.

Lemma trimEnd_head s : head_not_space s → head_not_space (trimEnd s).
Proof.
  destruct s as [|c s]; [done|]. simpl. intros Hc.
  destruct (trimEnd s); [rewrite Hc|]; done.
Qed.

Lemma trimEnd_cons c s :
  trimEnd (String c s) =
  match trimEnd s with
  | "" => if Ascii.is_space c then "" else String c ""
  | r => String c r
  end%string.
Proof. done. Qed.

Lemma trimEnd_idem s : trimEnd (trimEnd s) = trimEnd s.
Proof.
  induction s as [|c s IH]; [done|]. rewrite trimEnd_cons.
  destruct (trimEnd s) as [|d r] eqn:E.
  - destruct (Ascii.is_space c) eqn:Hc; simpl; [done|]. by rewrite Hc.
  - rewrite trimEnd_cons, IH. done.
Qed.

Lemma trimStart_head_id s : head_not_space s → trimStart s = s.
Proof. destruct s as [|c s]; [done|]. simpl. by intros ->. Qed.

(** [trim] is idempotent: the route trims the query and [searchShows]
    trims it again, which changes nothing. *)
Lemma trim_idem s : trim (trim s) = trim s.
Proof.
  unfold trim. rewrite trimStart_head_id.
  - apply trimEnd_idem.
  - apply trimEnd_head, trimStart_head.
Qed.

Lemma isBlank_trim s : isBlank (trim s) = isBlank s.
Proof. unfold isBlank. by rewrite trim_idem. Qed.

Lemma truthy_false_iff s : truthy s = false ↔ s = ""%string.
Proof.
  unfold truthy. destruct (String.eqb_spec s ""); simpl; intuition congruence.
Qed.

(** ** [parseInt] reads back [`${n}`] *)

Fixpoint uint_digits (u : Decimal.uint) : list nat :=
  match u with
  | Decimal.Nil => []
  | Decimal.D0 u => 0 :: uint_digits u | Decimal.D1 u => 1 :: uint_digits u
  | Decimal.D2 u => 2 :: uint_digits u | Decimal.D3 u => 3 :: uint_digits u
  | Decimal.D4 u => 4 :: uint_digits u | Decimal.D5 u => 5 :: uint_digits u
  | Decimal.D6 u => 6 :: uint_digits u | Decimal.D7 u => 7 :: uint_digits u
  | Decimal.D8 u => 8 :: uint_digits u | Decimal.D9 u => 9 :: uint_digits u
  end.

Lemma take_digits_uint_app u r :
  take_digits 10 (NilEmpty.string_of_uint u +:+ r) = uint_digits u ++ take_digits 10 r.
Proof. induction u; simpl; f_equal; done. Qed.

Lemma of_uint_acc_value l acc :
  Z.pos (Pos.of_uint_acc l acc) = foldl (λ a d, a * 10 + Z.of_nat d)%Z (Z.pos acc) (uint_digits l).
Proof. revert acc. induction l; intros acc; simpl; rewrite ?IHl; try done; f_equal; lia. Qed.

Lemma of_uint_value u : Z.of_uint u = digits_value 10 (uint_digits u).
Proof.
  unfold Z.of_uint, digits_value. induction u; simpl; try done;
    rewrite of_uint_acc_value; f_equal; lia.
Qed.

Lemma uint_digits_nonnil p : uint_digits (Pos.to_uint p) ≠ [].
Proof.
  intros H. pose proof (DecimalPos.Unsigned.of_to p) as E.
  destruct (Pos.to_uint p); simpl in *; congruence.
Qed.

Lemma radix_prefix_head c t : Ascii.eqb c "0" = false → radix_prefix (String c t) = (10, String c t).
Proof. intros H. destruct t; simpl; by rewrite ?H. Qed.

(** The digits of a positive number do not read as a [0x] prefix. *)
Lemma radix_prefix_pos_app p r :
  radix_prefix (NilEmpty.string_of_uint (Pos.to_uint p) +:+ r) =
  (10, NilEmpty.string_of_uint (Pos.to_uint p) +:+ r).
Proof.
  pose proof (DecimalPos.Unsigned.of_to p) as E. pose proof (uint_digits_nonnil p) as Hn.
  destruct (Pos.to_uint p) as [|u|u|u|u|u|u|u|u|u|u]; try done; [|apply radix_prefix_head; reflexivity..].
  destruct u; [done | reflexivity..].
Qed.

(** [`${n}`] followed by any text that does not continue the number
    (empty, or starting with a byte that is not a decimal digit) reads back
    as [n]; [0] is excluded, since ["0"] followed by [x] reads as a
    hexadecimal prefix. *)
Lemma parseInt_number_to_string_app n r :
  n ≠ 0%Z → take_digits 10 r = [] → parseInt (number_to_string n +:+ r) = Some n.
Proof.
  intros Hn Hr. rewrite <- (DecimalZ.of_to n) at 2. unfold number_to_string, parseInt.
  destruct n as [|p|p]; simpl; [done| |].
  - assert (Ht : trimStart (NilEmpty.string_of_uint (Pos.to_uint p) +:+ r) =
                 NilEmpty.string_of_uint (Pos.to_uint p) +:+ r).
    { pose proof (uint_digits_nonnil p). by destruct (Pos.to_uint p). }
    assert (Hs : sign_prefix (NilEmpty.string_of_uint (Pos.to_uint p) +:+ r) =
                 (1%Z, NilEmpty.string_of_uint (Pos.to_uint p) +:+ r)).
    { pose proof (uint_digits_nonnil p). by destruct (Pos.to_uint p). }
    rewrite Ht, Hs, radix_prefix_pos_app, take_digits_uint_app, Hr, app_nil_r, of_uint_value.
    pose proof (uint_digits_nonnil p). destruct (uint_digits _); [done|]. change (Z.of_nat 10) with 10%Z. f_equal; lia.
  - rewrite radix_prefix_pos_app, take_digits_uint_app, Hr, app_nil_r, of_uint_value.
    pose proof (uint_digits_nonnil p). destruct (uint_digits _); [done|]. change (Z.of_nat 10) with 10%Z. f_equal; lia.
Qed.

Lemma parseInt_number_to_string n : parseInt (number_to_string n) = Some n.
Proof.
  destruct (decide (n = 0%Z)) as [->|Hn]; [reflexivity|].
  rewrite <- (string_app_nil_r (number_to_string n)). by apply parseInt_number_to_string_app.
Qed.

End JsString.

#[export] Hint Rewrite JsString.trim_idem JsString.isBlank_trim : vx_rw.
