(* ===== verification/JsNumber.v ===== *)
(** * Number and Date built-ins: [Number.prototype.toFixed], [Date.parse]
    and [Date.prototype.getFullYear]

    The display components print ratings with [vote_average.toFixed(1)]
    and years with [new Date(first_air_date).getFullYear()].  Both are
    modelled from the ECMAScript specification, since their code is not
    part of the repository.

    Numbers are the exact rationals of the doubles the code holds; [NaN]
    is [None].  [toFixed] follows Number.prototype.toFixed step by step for
    one fraction digit; its branch for values of at least 10^21, which
    falls back to [ToString], is [None] here (a rating is between 0 and
    10).  The decimal digits of an integer are computed by well-founded
    recursion ([Equations]), as the specification describes them.

    Dates follow the specification's day arithmetic: [DayFromYear],
    [YearFromTime] (the largest year whose first instant is not after the
    time), [MakeDay] and [MakeDate].  [Date.parse] is modelled on the
    date-only form [YYYY-MM-DD] of the Date Time String Format, which is
    read as UTC; every other string, the empty one included, is [NaN], the
    result every engine gives for the empty string ([Date.parse] may accept
    other formats by implementation-specific heuristics, not modelled).
    [getFullYear] reads the year of the local time [t + offset], the
    offset of the user's time zone being a parameter in milliseconds. *)

From S2P Require Import Prelude JsString.
From Stdlib Require Import QArith_base Qabs Qround Lqa.
From Equations Require Import Equations.
Close Scope Q_scope.

Module JsNumber.

(** ** Decimal digits *)

(** The digits of the decimal representation of [n >= 0], most
    significant first, without leading zeroes. *)
Equations digits (n : Z) : list nat by wf (Z.to_nat n) lt :=
  digits n with Z_lt_dec n 10 => {
    | left _ => [Z.to_nat n];
    | right _ => digits (n / 10) ++ [Z.to_nat (n mod 10)] }.
Next Obligation. div_facts. lia. Qed.

Definition digit_char (d : nat) : Ascii.ascii := Ascii.ascii_of_nat (48 + d).

Definition chars (ds : list nat) : string :=
  foldr (λ d acc, String (digit_char d) acc) EmptyString ds.

(** No leading zero: a single digit, or a first digit that is not [0]. *)
Definition canonical (ds : list nat) : bool :=
  match ds with
  | [] => false
  | [_] => true
  | d :: _ => bool_decide (d ≠ 0)
  end.

(** ** [x.toFixed(1)] *)

(** The sign and the magnitude: [x < 0] gives ["-"] and [-x]. *)
Definition sign_split (x : Q) : string * Q :=
  if Qle_bool 0 x then (EmptyString, x) else ("-"%string, (- x)%Q).

(** The integer [n] for which [n / 10 - x] is as close to zero as
    possible, the larger one on a tie. *)
Definition round_tenth (x : Q) : Z := Qfloor (10 * x + (1 # 2))%Q.

Definition toFixed1 (x0 : Q) : option string :=
  let '(s, x) := sign_split x0 in
  if Qle_bool (inject_Z (10 ^ 21)) x then None
  else
    let n := round_tenth x in
    let m := if bool_decide (n = 0%Z) then [0] else digits n in
    let k := length m in
    let m := if k <=? 1 then repeat 0 (2 - k) ++ m else m in
    let k := length m in
    Some (s +:+ chars (take (k - 1) m) +:+ "." +:+ chars (drop (k - 1) m))%string.

(** A numeral with one fraction digit, read back: the sign, the digits
    before the point and the digit after it. *)
Fixpoint drop_chars (n : nat) (s : string) : string :=
  match n, s with
  | O, _ => s
  | S n', String _ s' => drop_chars n' s'
  | S _, EmptyString => EmptyString
  end.

Definition read_fixed1 (str : string) : option (bool * list nat * nat) :=
  let '(neg, r) :=
    match str with
    | String c r' => if Ascii.eqb c "-" then (true, r') else (false, str)
    | EmptyString => (false, str)
    end in
  let ds := JsString.take_digits 10 r in
  match drop_chars (length ds) r with
  | String p (String c EmptyString) =>
      if Ascii.eqb p "." && (JsString.digit_of c <? 10) && canonical ds then Some (neg, ds, JsString.digit_of c) else None
  | _ => None
  end.

(** The value of a numeral read back. *)
Definition fixed1_value (r : bool * list nat * nat) : Q :=
  let '(neg, ds, d) := r in
  ((if neg then -1 else 1) * inject_Z (JsString.digits_value 10 ds * 10 + Z.of_nat d) * (1 # 10))%Q.

(** The digits before the point and the digit after it, for [n] tenths. *)
Definition fixed_parts (n : Z) : list nat * nat :=
  if (n <? 10)%Z then ([0], Z.to_nat n) else (digits (n / 10), Z.to_nat (n mod 10)).

(** ** Dates *)

Local Open Scope Z_scope.

Definition msPerDay : Z := 86400000.

(** [DayFromYear(y)]: the day number of the first day of year [y]. *)
Definition DayFromYear (y : Z) : Z :=
  365 * (y - 1970) + (y - 1969) / 4 - (y - 1901) / 100 + (y - 1601) / 400.

Definition TimeFromYear (y : Z) : Z := msPerDay * DayFromYear y.

(** [DaysInYear(y)]. *)
Definition DaysInYear (y : Z) : Z :=
  if negb (y mod 4 =? 0) then 365
  else if negb (y mod 100 =? 0) then 366
  else if negb (y mod 400 =? 0) then 365
  else 366.

(** [YearFromTime(t)], the largest [y] with [TimeFromYear(y) <= t]: an
    estimate from the mean year of 146097/400 days, corrected by one. *)
Definition year_est (d : Z) : Z := 1970 + (400 * d) / 146097.

Definition year_of_day (d : Z) : Z :=
  let y := year_est d in
  if d <? DayFromYear y then y - 1 else if d <? DayFromYear (y + 1) then y else y + 1.

Definition YearFromTime (t : Z) : Z := year_of_day (t / msPerDay).

(** The days of the months before month [m] (0 for January), and the
    days of month [m], in a leap year or not. *)
Definition month_start (leap : bool) (m : Z) : Z :=
  nth (Z.to_nat m) [0; 31; 59; 90; 120; 151; 181; 212; 243; 273; 304; 334] 0 +
  (if leap && (2 <=? m) then 1 else 0).

Definition days_in_month (leap : bool) (m : Z) : Z :=
  nth (Z.to_nat m) [31; (if leap then 29 else 28); 31; 30; 31; 30; 31; 31; 30; 31; 30; 31] 0.

(** [MakeDay(year, month, date)], the month reduced modulo 12. *)
Definition MakeDay (year month date : Z) : Z :=
  let ym := year + month / 12 in
  let mn := month mod 12 in
  DayFromYear ym + month_start (DaysInYear ym =? 366) mn + date - 1.

Definition MakeDate (day time : Z) : Z := day * msPerDay + time.

(** [TimeClip]: beyond 8.64e15 ms the time value is [NaN]. *)
Definition TimeClip (t : Z) : option Z :=
  if (Z.abs t <=? 8640000000000000) then Some t else None.

(** A decimal digit. *)
Definition digit_at (c : Ascii.ascii) : option Z :=
  let d := JsString.digit_of c in if (d <? 10)%nat then Some (Z.of_nat d) else None.

(** [Date.parse] on the date-only form [YYYY-MM-DD], read as UTC. *)
Definition date_parse (str : string) : option Z :=
  match str with
  | String y1 (String y2 (String y3 (String y4 (String h1 (String m1 (String m2
      (String h2 (String d1 (String d2 EmptyString))))))))) =>
      match digit_at y1, digit_at y2, digit_at y3, digit_at y4, digit_at m1, digit_at m2,
            digit_at d1, digit_at d2 with
      | Some a, Some b, Some c, Some d, Some e, Some f, Some g, Some h =>
          let year := 1000 * a + 100 * b + 10 * c + d in
          let month := 10 * e + f in
          let day := 10 * g + h in
          if Ascii.eqb h1 "-" && Ascii.eqb h2 "-" && (1 <=? month) && (month <=? 12) &&
             (1 <=? day) && (day <=? 31)
          then TimeClip (MakeDate (MakeDay year (month - 1) day) 0)
          else None
      | _, _, _, _, _, _, _, _ => None
      end
  | _ => None
  end%Z.

(** [getFullYear()]: the year of the local time, the time zone offset
    [tz] (milliseconds east of UTC) added; [NaN] stays [NaN]. *)
Definition getFullYear (tz : Z) (t : option Z) : option Z :=
  t ≫= λ t, Some (YearFromTime (t + tz)).

(** How React prints a number: [NaN], or the integer's decimal digits. *)
Definition number_text (n : option Z) : string :=
  match n with Some n => JsString.number_to_string n | None => "NaN" end.

Local Close Scope Z_scope.

(** ** Lemmas on digits *)

Lemma digits_spec n :
  (0 ≤ n)%Z →
  Forall (λ d, d < 10) (digits n) ∧ JsString.digits_value 10 (digits n) = n ∧ canonical (digits n) = true ∧
  ((10 ≤ n)%Z → digits n = digits (n / 10) ++ [Z.to_nat (n mod 10)] ∧ (1 ≤ n / 10)%Z).
Proof.
  funelim (digits n); intros Hn.
  - split; [constructor; [lia | done]|]. split; [unfold JsString.digits_value; simpl; lia|]. split; [done | lia].
  - destruct (H ltac:(div_facts; lia)) as (Hf & Hv & Hc & _).
    split; [apply Forall_app; split; [done | constructor; [|done]; pose proof (Z.mod_pos_bound n 10); lia]|].
    split.
    + unfold JsString.digits_value in *. rewrite foldl_app, Hv. simpl.
      pose proof (Z.mod_pos_bound n 10). rewrite Z2Nat.id by lia. pose proof (Z.div_mod n 10). lia.
    + split; [|intros _; split; [done | div_facts; lia]].
      destruct (digits (n / 10)) as [|d [|d' ds]] eqn:E; [done | simpl | done].
      unfold JsString.digits_value in Hv; simpl in Hv. apply bool_decide_eq_true. div_facts. lia.
Qed.

Lemma digit_of_char d : d < 10 → JsString.digit_of (digit_char d) = d.
Proof. intros Hd. do 10 (destruct d as [|d]; [reflexivity|]). lia. Qed.

Lemma chars_app ds r : (chars ds +:+ r)%string = foldr (λ d acc, String (digit_char d) acc) r ds.
Proof. induction ds as [|d ds IH]; [done|]. simpl. by rewrite string_app_cons, IH. Qed.

Lemma take_digits_chars ds r :
  Forall (λ d, d < 10) ds → JsString.take_digits 10 (chars ds +:+ String "." r) = ds.
Proof.
  intros Hf. rewrite chars_app. induction Hf as [|d ds Hd Hf IH]; [done|].
  cbn [foldr JsString.take_digits]. rewrite digit_of_char by done.
  rewrite (proj2 (Nat.ltb_lt _ _) Hd). by rewrite IH.
Qed.

Lemma drop_chars_app ds r : drop_chars (length ds) (chars ds +:+ r) = r.
Proof. rewrite chars_app. induction ds as [|d ds IH]; [done|]. simpl. apply IH. Qed.

Lemma round_tenth_bounds x :
  (0 <= x)%Q → (0 ≤ round_tenth x)%Z ∧
  (inject_Z (round_tenth x) <= 10 * x + (1 # 2) < inject_Z (round_tenth x) + 1)%Q.
Proof.
  intros Hx. unfold round_tenth. pose proof (Qfloor_le (10 * x + (1 # 2))) as H1.
  pose proof (Qlt_floor (10 * x + (1 # 2))) as H2. rewrite inject_Z_plus in H2.
  split; [|split; [exact H1 | exact H2]].
  rewrite <- (Qfloor_Z 0). apply Qfloor_resp_le. change (inject_Z 0) with 0%Q. lra.
Qed.

Lemma digits_small n : (n < 10)%Z → digits n = [Z.to_nat n].
Proof. intros Hn. simp digits. by destruct (Z_lt_dec n 10). Qed.

Lemma sign_split_spec x0 :
  ((sign_split x0).1 = EmptyString ∧ (sign_split x0).2 = x0 ∧ (0 <= x0)%Q) ∨
  ((sign_split x0).1 = "-"%string ∧ (sign_split x0).2 = (- x0)%Q ∧ (x0 < 0)%Q).
Proof.
  unfold sign_split. destruct (Qle_bool 0 x0) eqn:E; [left | right].
  - apply Qle_bool_iff in E. done.
  - split; [done|]. split; [done|]. apply Qnot_le_lt. intros H%Qle_bool_iff. congruence.
Qed.

(** The padding and splitting steps of [toFixed] give [fixed_parts]. *)
Lemma fixed_parts_spec n :
  (0 ≤ n)%Z →
  let m := if bool_decide (n = 0%Z) then [0] else digits n in
  let k := length m in
  let m := if k <=? 1 then repeat 0 (2 - k) ++ m else m in
  let k := length m in
  (take (k - 1) m, drop (k - 1) m) = ((fixed_parts n).1, [(fixed_parts n).2]).
Proof.
  intros Hn. unfold fixed_parts. case_bool_decide as H0; [by subst|].
  destruct (Z.ltb_spec n 10) as [Hlt|Hge].
  - by rewrite digits_small.
  - destruct (digits_spec n Hn) as (_ & _ & _ & Hsplit). destruct (Hsplit Hge) as [-> H1].
    destruct (digits_spec (n / 10) ltac:(lia)) as (_ & _ & Hc & _).
    destruct (digits (n / 10)) as [|d ds] eqn:E; [done|].
    set (l := d :: ds). set (x := Z.to_nat (n mod 10)).
    assert (Hk : (length (l ++ [x]) <=? 1) = false) by (apply Nat.leb_gt; rewrite length_app; simpl; lia).
    cbv zeta. rewrite Hk. rewrite length_app. replace (length l + length [x] - 1) with (length l) by (simpl; lia).
    by rewrite take_app_length, drop_app_length.
Qed.

Lemma toFixed1_parts x0 :
  (- inject_Z (10 ^ 21) < x0 < inject_Z (10 ^ 21))%Q →
  toFixed1 x0 = Some ((sign_split x0).1 +:+ chars (fixed_parts (round_tenth (sign_split x0).2)).1 +:+ "." +:+
                      chars [(fixed_parts (round_tenth (sign_split x0).2)).2])%string.
Proof.
  intros Hx. unfold toFixed1. destruct (sign_split x0) as [s x] eqn:E. cbn [fst snd].
  assert (Hnn : (0 <= x < inject_Z (10 ^ 21))%Q).
  { destruct (sign_split_spec x0) as [(_ & Hx2 & H) | (_ & Hx2 & H)]; rewrite E in Hx2; simpl in Hx2;
      subst x; lra. }
  destruct (Qle_bool _ x) eqn:Hb; [apply Qle_bool_iff in Hb; lra|].
  destruct (round_tenth_bounds x (proj1 Hnn)) as [Hn _].
  pose proof (fixed_parts_spec _ Hn) as Hp. cbv zeta in Hp |- *. injection Hp as -> ->. done.
Qed.

Lemma fixed_parts_digits n :
  (0 ≤ n)%Z →
  Forall (λ d, d < 10) (fixed_parts n).1 ∧ canonical (fixed_parts n).1 = true ∧
  (fixed_parts n).2 < 10 ∧
  (JsString.digits_value 10 (fixed_parts n).1 * 10 + Z.of_nat (fixed_parts n).2 = n)%Z.
Proof.
  intros Hn. unfold fixed_parts. destruct (Z.ltb_spec n 10) as [Hlt|Hge]; simpl.
  - split; [repeat constructor; lia|]. split; [done|]. split; [lia|].
    unfold JsString.digits_value. simpl. lia.
  - destruct (digits_spec (n / 10) ltac:(div_facts; lia)) as (Hf & Hv & Hc & _).
    split; [done|]. split; [done|]. pose proof (Z.mod_pos_bound n 10).
    split; [lia|]. rewrite Hv, Z2Nat.id by lia. pose proof (Z.div_mod n 10). lia.
Qed.

Lemma read_fixed1_chars (neg : bool) ds d :
  Forall (λ d, d < 10) ds → canonical ds = true → d < 10 →
  read_fixed1 ((if neg then "-" else "") +:+ chars ds +:+ "." +:+ chars [d])%string = Some (neg, ds, d).
Proof.
  intros Hf Hc Hd. unfold read_fixed1.
  assert (Hr : ∀ r, r = (chars ds +:+ "." +:+ chars [d])%string →
    (let ds' := JsString.take_digits 10 r in
     match drop_chars (length ds') r with
     | String p (String c EmptyString) =>
         if Ascii.eqb p "." && (JsString.digit_of c <? 10) && canonical ds'
         then Some (neg, ds', JsString.digit_of c) else None
     | _ => None
     end) = Some (neg, ds, d)).
  { intros r ->. change ("." +:+ chars [d])%string with (String "." (chars [d])).
    cbn zeta. rewrite take_digits_chars by done. rewrite drop_chars_app.
    cbn [chars foldr String.append]. rewrite digit_of_char, Hc by done. by rewrite (proj2 (Nat.ltb_lt _ _) Hd). }
  destruct neg; [apply Hr; done|].
  destruct ds as [|d0 ds]; [done|]. rewrite string_app_nil_l.
  assert (Hdash : Ascii.eqb (digit_char d0) "-" = false).
  { inversion Hf as [|? ? Hd0]; subst. do 10 (destruct d0 as [|d0]; [reflexivity|]). lia. }
  change (chars (d0 :: ds)) with (String (digit_char d0) (chars ds)).
  rewrite string_app_cons. cbn iota beta. rewrite Hdash. cbn iota beta.
  apply Hr. by rewrite string_app_cons.
Qed.

Lemma sign_split_fst x0 : (sign_split x0).1 = if negb (Qle_bool 0 x0) then "-"%string else EmptyString.
Proof. unfold sign_split. by destruct (Qle_bool 0 x0). Qed.

Lemma sign_split_nonneg x0 : (0 <= (sign_split x0).2)%Q.
Proof.
  destruct (sign_split_spec x0) as [(_ & -> & H) | (_ & -> & H)]; [done | lra].
Qed.

(** ** Lemmas on dates *)

Lemma DayFromYear_bounds y :
  (146097 * (y - 1970) - 1200 ≤ 400 * DayFromYear y ≤ 146097 * (y - 1970) + 1200)%Z.
Proof. unfold DayFromYear. div_facts. lia. Qed.

Lemma DayFromYear_lt y1 y2 : (y1 < y2)%Z → (DayFromYear y1 < DayFromYear y2)%Z.
Proof. intros. pose proof (DayFromYear_bounds y1). pose proof (DayFromYear_bounds y2). lia. Qed.

Lemma DayFromYear_le y1 y2 : (y1 ≤ y2)%Z → (DayFromYear y1 ≤ DayFromYear y2)%Z.
Proof.
  intros H. destruct (Z.eq_dec y1 y2) as [->|]; [lia|]. pose proof (DayFromYear_lt y1 y2). lia.
Qed.

Lemma DayFromYear_succ y : (DayFromYear (y + 1) - DayFromYear y = DaysInYear y)%Z.
Proof.
  unfold DayFromYear, DaysInYear. rewrite !Z.mod_eq by lia.
  destruct (Z.eqb_spec (y - 4 * (y / 4)) 0), (Z.eqb_spec (y - 100 * (y / 100)) 0),
    (Z.eqb_spec (y - 400 * (y / 400)) 0); simpl; div_facts; lia.
Qed.

Lemma year_of_day_spec d :
  (DayFromYear (year_of_day d) ≤ d < DayFromYear (year_of_day d + 1))%Z.
Proof.
  assert (Hlo : (DayFromYear (year_est d - 1) ≤ d)%Z).
  { pose proof (DayFromYear_bounds (year_est d - 1)). unfold year_est in *. div_facts. lia. }
  assert (Hhi : (d < DayFromYear (year_est d + 2))%Z).
  { pose proof (DayFromYear_bounds (year_est d + 2)). unfold year_est in *. div_facts. lia. }
  unfold year_of_day. set (y := year_est d) in *.
  destruct (Z.ltb_spec d (DayFromYear y)); [replace (y - 1 + 1)%Z with y by lia; lia|].
  destruct (Z.ltb_spec d (DayFromYear (y + 1))); [lia|].
  replace (y + 1 + 1)%Z with (y + 2)%Z by lia. lia.
Qed.

Lemma year_of_day_unique d y :
  (DayFromYear y ≤ d < DayFromYear (y + 1))%Z → year_of_day d = y.
Proof.
  intros Hy. pose proof (year_of_day_spec d) as Hs.
  destruct (Z.lt_trichotomy (year_of_day d) y) as [Hlt|[Heq|Hgt]]; [|done|].
  - pose proof (DayFromYear_le (year_of_day d + 1) y ltac:(lia)). lia.
  - pose proof (DayFromYear_le (y + 1) (year_of_day d) ltac:(lia)). lia.
Qed.

Lemma TimeFromYear_le_day y t : (TimeFromYear y ≤ t ↔ DayFromYear y ≤ t / msPerDay)%Z.
Proof. unfold TimeFromYear, msPerDay. split; intros; div_facts; lia. Qed.


(** The first instant of year [y], read in a time zone less than a day
    away from UTC: west of UTC it falls in the year before. *)
Lemma getFullYear_new_year tz y :
  (- msPerDay < tz < msPerDay)%Z →
  getFullYear tz (Some (TimeFromYear y)) = Some (if (tz <? 0)%Z then (y - 1)%Z else y).
Proof.
  intros Htz. simpl. f_equal. unfold YearFromTime, TimeFromYear.
  destruct (Z.ltb_spec tz 0) as [Hneg|Hpos].
  - assert (Hd : ((msPerDay * DayFromYear y + tz) / msPerDay = DayFromYear y - 1)%Z)
      by (unfold msPerDay in *; div_facts; lia).
    rewrite Hd. apply year_of_day_unique. replace (y - 1 + 1)%Z with y by lia.
    pose proof (DayFromYear_lt (y - 1) y ltac:(lia)). lia.
  - assert (Hd : ((msPerDay * DayFromYear y + tz) / msPerDay = DayFromYear y)%Z)
      by (unfold msPerDay in *; div_facts; lia).
    rewrite Hd. apply year_of_day_unique. pose proof (DayFromYear_lt y (y + 1) ltac:(lia)). lia.
Qed.

(** A date that parses is not the empty string. *)
Lemma date_parse_truthy str t : date_parse str = Some t → JsString.truthy str = true.
Proof. by destruct str. Qed.

(** ** Theorems *)

(** [x.toFixed(1)], for [x] below [10^21] in magnitude, prints a
    numeral that reads back as a number of tenths within half a tenth of
    [x]: the nearest tenth, the larger one on a tie. *)
Lemma toFixed1_nearest x0 :
  (- inject_Z (10 ^ 21) < x0 < inject_Z (10 ^ 21))%Q →
  ∃ str r, toFixed1 x0 = Some str ∧ read_fixed1 str = Some r ∧ (Qabs (fixed1_value r - x0) <= 1 # 20)%Q.
Proof.
  intros Hx. rewrite (toFixed1_parts x0 Hx), sign_split_fst.
  remember (sign_split x0).2 as m eqn:Em.
  assert (Hm : if Qle_bool 0 x0 then m = x0 else m = (- x0)%Q).
  { subst m. unfold sign_split. destruct (Qle_bool _ x0); reflexivity. }
  assert (H0 : (0 <= m)%Q).
  { pose proof Hm as Hm'. revert Hm'. destruct (Qle_bool 0 x0) eqn:E; intros ->; [by apply Qle_bool_iff|].
    assert (¬ (0 <= x0)%Q) by (intros H%Qle_bool_iff; congruence). lra. }
  destruct (round_tenth_bounds m H0) as [Hn Hb].
  destruct (fixed_parts_digits _ Hn) as (Hf & Hc & Hd & Hv).
  eexists _, _. split; [reflexivity|]. split; [by apply (read_fixed1_chars (negb (Qle_bool 0 x0)))|].
  unfold fixed1_value. rewrite Hv. apply Qabs_Qle_condition.
  revert Hm. destruct (Qle_bool 0 x0); intros ->; simpl; lra.
Qed.

(** [toFixed] answers only below [10^21] in magnitude. *)
Lemma toFixed1_some_dom x0 str :
  toFixed1 x0 = Some str → (- inject_Z (10 ^ 21) < x0 < inject_Z (10 ^ 21))%Q.
Proof.
  unfold toFixed1. destruct (sign_split x0) as [s x] eqn:E.
  destruct (Qle_bool (inject_Z (10 ^ 21)) x) eqn:Hb; [done|]. intros _.
  assert (Hlt : (x < inject_Z (10 ^ 21))%Q) by (apply Qnot_le_lt; intros H%Qle_bool_iff; congruence).
  destruct (sign_split_spec x0) as [(_ & Hx & H0) | (_ & Hx & H0)]; rewrite E in Hx; simpl in Hx; subst x.
  - split; [|done]. apply (Qlt_le_trans _ 0); [|done]. reflexivity.
  - lra.
Qed.

(** Every string [x.toFixed(1)] produces is a well-formed numeral
    with one fraction digit: an optional minus sign, decimal digits without
    a leading zero (a lone [0] apart), a point and one digit, and nothing
    else. *)
Lemma toFixed1_well_formed x0 str : toFixed1 x0 = Some str → ∃ r, read_fixed1 str = Some r.
Proof.
  intros H. pose proof (toFixed1_some_dom _ _ H) as Hd.
  rewrite toFixed1_parts, sign_split_fst in H by done. injection H as <-.
  destruct (round_tenth_bounds _ (sign_split_nonneg x0)) as [Hn _].
  destruct (fixed_parts_digits _ Hn) as (Hf & Hc & Hdg & _).
  eexists. by apply (read_fixed1_chars (negb (Qle_bool 0 x0))).
Qed.

(** [YearFromTime] as computed is the specification's: the largest
    year [y] whose first instant [TimeFromYear(y)] is not after [t]. *)
Lemma YearFromTime_largest t y : (TimeFromYear y ≤ t ↔ y ≤ YearFromTime t)%Z.
Proof.
  rewrite TimeFromYear_le_day. unfold YearFromTime. set (d := (t / msPerDay)%Z).
  pose proof (year_of_day_spec d) as [Hlo Hhi]. split; intros H.
  - destruct (Z.le_gt_cases y (year_of_day d)) as [|Hgt]; [done|].
    pose proof (DayFromYear_le (year_of_day d + 1) y ltac:(lia)). lia.
  - pose proof (DayFromYear_le y (year_of_day d) H). lia.
Qed.

Lemma toFixed1_nearest_witness :
  (- inject_Z (10 ^ 21) < (835 # 100) < inject_Z (10 ^ 21))%Q ∧
  ∃ str r, toFixed1 (835 # 100) = Some str ∧ read_fixed1 str = Some r ∧
           (Qabs (fixed1_value r - (835 # 100)) <= 1 # 20)%Q.
Proof.
  assert (H : (- inject_Z (10 ^ 21) < (835 # 100) < inject_Z (10 ^ 21))%Q) by (split; vm_compute; reflexivity).
  split; [exact H | exact (toFixed1_nearest (835 # 100) H)].
Defined.

Lemma toFixed1_well_formed_witness :
  toFixed1 (835 # 100) = Some "8.4"%string ∧ ∃ r, read_fixed1 "8.4" = Some r.
Proof.
  assert (H : toFixed1 (835 # 100) = Some "8.4"%string) by (vm_compute; reflexivity).
  split; [exact H | exact (toFixed1_well_formed _ _ H)].
Defined.

End JsNumber.
