(* ===== verification/Url.v ===== *)
(** * URL encoding: [encodeURIComponent], [URLSearchParams] and [URL]

    The operations [src/lib/tmdb.ts] and [SearchBar.tsx] apply to URLs,
    modelled from the standards that define them, on the UTF-8 bytes of a
    string:
    - [encodeURIComponent] (ECMAScript Encode with the unreserved set
      [A-Z a-z 0-9 - _ . ! ~ * ' ( )]);
    - the [application/x-www-form-urlencoded] serializer and parser of the
      URL Standard, which [URLSearchParams] uses for [url.searchParams] and
      which a server applies to the query it receives;
    - the part of [new URL(s)] that [buildUrl] relies on: the removal of tab
      and newline bytes, the split into base, query and fragment, and the
      percent-encoding of the query bytes in the special-query set; [set]
      on [searchParams] and [toString].  The scheme, host and path are kept
      as one base string (the code's bases are printable ASCII, which the
      parser keeps unchanged). *)

From S2P Require Import Prelude.

Module Url.

(** ** Bytes *)

Definition code (c : Ascii.ascii) : nat := Ascii.nat_of_ascii c.

Definition in_range (lo hi : nat) (c : Ascii.ascii) : bool :=
  (lo <=? code c) && (code c <=? hi).

Definition is_digit := in_range 48 57.
Definition is_upper := in_range 65 90.
Definition is_lower := in_range 97 122.
Definition is_alnum (c : Ascii.ascii) : bool := is_digit c || is_upper c || is_lower c.

(** Membership of a byte in a literal set of bytes. *)
Fixpoint in_set (set : string) (c : Ascii.ascii) : bool :=
  match set with
  | "" => false
  | String d set' => bool_decide (c = d) || in_set set' c
  end%string.

(** Upper-case hexadecimal digit of a value below 16. *)
Definition hex_digit (n : nat) : Ascii.ascii :=
  Ascii.ascii_of_nat (if n <? 10 then 48 + n else 55 + n).

(** Value of a hexadecimal digit, either case. *)
Definition hex_value (c : Ascii.ascii) : option nat :=
  if is_digit c then Some (code c - 48)
  else if in_range 65 70 c then Some (code c - 55)
  else if in_range 97 102 c then Some (code c - 87)
  else None.

(** [%XY], the percent-encoded byte. *)
Definition percent_byte (c : Ascii.ascii) : string :=
  String "%"%char (String (hex_digit (code c / 16)) (String (hex_digit (code c mod 16)) "")).

(** ** [encodeURIComponent] *)

Definition uri_unreserved (c : Ascii.ascii) : bool :=
  is_alnum c || in_set "-_.!~*'()" c.

Fixpoint encodeURIComponent (s : string) : string :=
  match s with
  | "" => ""
  | String c s' =>
      (if uri_unreserved c then String c "" else percent_byte c) +:+ encodeURIComponent s'
  end%string.

(** ** Percent-decoding and the form-urlencoded parser *)

(** Percent-decode: [%] followed by two hexadecimal digits is the byte they
    denote, any other byte is itself. *)
Fixpoint percent_decode (s : string) : string :=
  match s with
  | "" => ""
  | String c s1 =>
      if bool_decide (c = "%"%char) then
        match s1 with
        | String h (String l rest) =>
            match hex_value h, hex_value l with
            | Some a, Some b => String (Ascii.ascii_of_nat (16 * a + b)) (percent_decode rest)
            | _, _ => String c (percent_decode s1)
            end
        | _ => String c (percent_decode s1)
        end
      else String c (percent_decode s1)
  end%string.

(** Every [+] replaced by a space. *)
Fixpoint replace_plus (s : string) : string :=
  match s with
  | "" => ""
  | String c s' => String (if bool_decide (c = "+"%char) then " "%char else c) (replace_plus s')
  end%string.

Definition form_decode (s : string) : string := percent_decode (replace_plus s).

(** Split on every occurrence of a byte. *)
Fixpoint split_on (d : Ascii.ascii) (s : string) : list string :=
  match s with
  | "" => [""]
  | String c s' =>
      if bool_decide (c = d) then "" :: split_on d s'
      else match split_on d s' with
           | [] => [String c ""]
           | x :: xs => String c x :: xs
           end
  end%string.

(** Split at the first occurrence of a byte. *)
Fixpoint split_first (d : Ascii.ascii) (s : string) : string * option string :=
  match s with
  | "" => (""%string, None)
  | String c s' =>
      if bool_decide (c = d) then (""%string, Some s')
      else let '(a, b) := split_first d s' in (String c a, b)
  end.

(** The name-value pair of one non-empty sequence. *)
Definition form_pair (seg : string) : string * string :=
  match split_first "="%char seg with
  | (name, Some value) => (form_decode name, form_decode value)
  | (name, None) => (form_decode name, ""%string)
  end.

(** The [application/x-www-form-urlencoded] parser. *)
Definition form_parse (s : string) : list (string * string) :=
  form_pair <$> filter (λ seg, seg ≠ ""%string) (split_on "&"%char s).

(** ** The form-urlencoded serializer *)

Definition form_safe (c : Ascii.ascii) : bool := is_alnum c || in_set "*-._" c.

Definition form_encode_byte (c : Ascii.ascii) : string :=
  if bool_decide (c = " "%char) then "+"
  else if form_safe c then String c ""
  else percent_byte c.

Fixpoint form_encode (s : string) : string :=
  match s with
  | "" => ""
  | String c s' => form_encode_byte c +:+ form_encode s'
  end%string.

(** The serializer: [name=value] pairs, separated by [&] when the output
    is not empty. *)
Definition form_serialize (l : list (string * string)) : string :=
  foldl (λ out '(n, v),
           (if String.eqb out "" then "" else out +:+ "&") +:+
             form_encode n +:+ "=" +:+ form_encode v)%string
        ""%string l.

(** ** [URLSearchParams] *)

Abbreviation params := (list (string * string)).

(** [get]: the value of the first pair with the name. *)
Fixpoint params_get (n : string) (l : params) : option string :=
  match l with
  | [] => None
  | (k, v) :: l' => if String.eqb k n then Some v else params_get n l'
  end.

(** The first pair with the name gets the value, the later ones are
    removed. *)
Fixpoint set_first (n v : string) (l : params) : params :=
  match l with
  | [] => []
  | (k, w) :: l' =>
      if String.eqb k n then (k, v) :: filter (λ p, p.1 ≠ n) l'
      else (k, w) :: set_first n v l'
  end.

(** [set(name, value)]: replace the first pair with the name and remove
    the others, or append the pair when there is none. *)
Definition params_set (n v : string) (l : params) : params :=
  if existsb (λ p, String.eqb p.1 n) l then set_first n v l else l ++ [(n, v)].

(** ** [URL] *)

(** The URL record: the base (scheme, host, path), the query, the list of
    its [searchParams], and the fragment. *)
Record URL := mkURL {
  url_base : string;
  url_query : option string;
  url_search : params;
  url_hash : option string
}.

(** The bytes of the special-query percent-encode set: C0 controls and
    space, [\x22], [#], ['], [<], [>], and the bytes above [~]. *)
Definition special_query_byte (c : Ascii.ascii) : bool :=
  (code c <? 33) || (126 <? code c) || bool_decide (code c ∈ [34; 35; 39; 60; 62]).

(** The fragment percent-encode set: C0 controls and space, [\x22], [<],
    [>], the backquote, and the bytes above [~]. *)
Definition fragment_byte (c : Ascii.ascii) : bool :=
  (code c <? 33) || (126 <? code c) || bool_decide (code c ∈ [34; 60; 62; 96]).

Fixpoint encode_if (p : Ascii.ascii → bool) (s : string) : string :=
  match s with
  | "" => ""
  | String c s' => (if p c then percent_byte c else String c "") +:+ encode_if p s'
  end%string.

(** The URL parser first removes every tab, LF and CR byte. *)
Fixpoint strip_tab_newline (s : string) : string :=
  match s with
  | "" => ""
  | String c s' =>
      if bool_decide (code c ∈ [9; 10; 13]) then strip_tab_newline s'
      else String c (strip_tab_newline s')
  end%string.

(** [new URL(s)] for an absolute URL [s]. *)
Definition url_parse (s : string) : URL :=
  let '(before, hash) := split_first "#"%char (strip_tab_newline s) in
  let '(base, query) := split_first "?"%char before in
  let query' := encode_if special_query_byte <$> query in
  {| url_base := base;
     url_query := query';
     url_search := from_option form_parse [] query';
     url_hash := encode_if fragment_byte <$> hash |}.

(** [url.searchParams.set(n, v)], with the URL's update steps: the query
    becomes the serialization of the list, or null when it is empty. *)
Definition url_set (n v : string) (u : URL) : URL :=
  let l := params_set n v (url_search u) in
  let q := form_serialize l in
  {| url_base := url_base u;
     url_query := if String.eqb q "" then None else Some q;
     url_search := l;
     url_hash := url_hash u |}.

(** [url.toString()], the href. *)
Definition url_toString (u : URL) : string :=
  url_base u +:+
    (match url_query u with Some q => "?" +:+ q | None => "" end) +:+
    (match url_hash u with Some h => "#" +:+ h | None => "" end).

(** ** Lemmas: the per-byte facts, checked on all 256 bytes *)

(** The byte occurs in the string. *)
Fixpoint has_byte (d : Ascii.ascii) (s : string) : bool :=
  match s with
  | "" => false
  | String c s' => bool_decide (c = d) || has_byte d s'
  end%string.

Lemma percent_decode_percent_byte c s :
  percent_decode (percent_byte c +:+ s) = String c (percent_decode s).
Proof. byte_cases c; reflexivity. Qed.

Lemma form_decode_byte c s :
  percent_decode (replace_plus (form_encode_byte c) +:+ s) = String c (percent_decode s).
Proof. byte_cases c; reflexivity. Qed.

(** The encoding of one byte by [encodeURIComponent]. *)
Definition uri_byte (c : Ascii.ascii) : string :=
  if uri_unreserved c then String c "" else percent_byte c.

Lemma uri_byte_decode c s :
  percent_decode (replace_plus (uri_byte c) +:+ s) = String c (percent_decode s).
Proof. byte_cases c; reflexivity. Qed.

(** After the URL parser's query encoding, one encoded byte still decodes
    to itself. *)
Lemma uri_byte_query_decode c s :
  percent_decode (replace_plus (encode_if special_query_byte (uri_byte c)) +:+ s) =
  String c (percent_decode s).
Proof. byte_cases c; reflexivity. Qed.

Lemma form_encode_byte_no_sep c :
  has_byte "&" (form_encode_byte c) = false ∧ has_byte "=" (form_encode_byte c) = false ∧
  form_encode_byte c ≠ ""%string.
Proof. byte_cases c; (split; [reflexivity | split; [reflexivity | discriminate]]). Qed.

(** [encodeURIComponent] never outputs a separator of the query or the
    URL, nor [+]. *)
Lemma uri_byte_no_special c :
  forallb (λ d, negb (has_byte d (uri_byte c))) ["&"; "="; "#"; "?"; "+"]%char = true.
Proof. byte_cases c; reflexivity. Qed.

(** ** Lemmas: strings built by concatenation *)

Lemma replace_plus_app a b :
  replace_plus (a +:+ b) = (replace_plus a +:+ replace_plus b)%string.
Proof. induction a as [|c a IH]; [done|]. rewrite !string_app_cons. simpl. by rewrite IH. Qed.

Lemma encode_if_app p a b :
  encode_if p (a +:+ b) = (encode_if p a +:+ encode_if p b)%string.
Proof.
  induction a as [|c a IH]; [done|]. rewrite string_app_cons. simpl.
  by rewrite IH, string_app_assoc.
Qed.

Lemma has_byte_app d a b : has_byte d (a +:+ b) = has_byte d a || has_byte d b.
Proof.
  induction a as [|c a IH]; [done|]. rewrite string_app_cons. simpl.
  by rewrite IH, orb_assoc.
Qed.

#[local] Hint Rewrite replace_plus_app encode_if_app has_byte_app : vx_rw.

Lemma encodeURIComponent_cons c s :
  encodeURIComponent (String c s) = (uri_byte c +:+ encodeURIComponent s)%string.
Proof. done. Qed.

Lemma form_encode_no_sep s :
  has_byte "&" (form_encode s) = false ∧ has_byte "=" (form_encode s) = false.
Proof.
  induction s as [|c s [IH1 IH2]]; [done|]. simpl. rewrite !has_byte_app, IH1, IH2.
  destruct (form_encode_byte_no_sep c) as (-> & -> & _). done.
Qed.

Lemma encodeURIComponent_no_special s d :
  d ∈ ["&"; "="; "#"; "?"; "+"]%char → has_byte d (encodeURIComponent s) = false.
Proof.
  intros Hd. induction s as [|c s IH]; [done|].
  rewrite encodeURIComponent_cons, has_byte_app, IH, orb_false_r.
  pose proof (uri_byte_no_special c) as H. rewrite forallb_forall in H.
  apply negb_true_iff, H. by apply list_elem_of_In.
Qed.

(** ** Roundtrips *)

(** The form-urlencoded encoding of a string decodes back to it. *)
Theorem form_decode_encode s : form_decode (form_encode s) = s.
Proof.
  unfold form_decode. induction s as [|c s IH]; [done|]. simpl.
  by rewrite replace_plus_app, form_decode_byte, IH.
Qed.

(** [encodeURIComponent] is undone by the percent-decoding of the
    form parser ([+] read as a space, then [%XX] read as a byte): every
    string comes back unchanged. *)
Theorem form_decode_encodeURIComponent s : form_decode (encodeURIComponent s) = s.
Proof.
  unfold form_decode. induction s as [|c s IH]; [done|].
  by rewrite encodeURIComponent_cons, replace_plus_app, uri_byte_decode, IH.
Qed.

(** The query encoding of the URL parser does not change what an
    [encodeURIComponent] output decodes to. *)
Theorem form_decode_query_encodeURIComponent s :
  form_decode (encode_if special_query_byte (encodeURIComponent s)) = s.
Proof.
  unfold form_decode. induction s as [|c s IH]; [done|].
  by rewrite encodeURIComponent_cons, encode_if_app, replace_plus_app,
    uri_byte_query_decode, IH.
Qed.

(** ** Splitting *)

Lemma split_on_no_byte d s : has_byte d s = false → split_on d s = [s].
Proof.
  induction s as [|c s IH]; [done|]. simpl. intros [Hc Hs]%orb_false_iff.
  by rewrite IH, Hc.
Qed.

Lemma split_on_app d x y :
  has_byte d x = false → split_on d (x +:+ String d y) = x :: split_on d y.
Proof.
  induction x as [|c x IH]; simpl.
  - intros _. by rewrite bool_decide_true.
  - intros [Hc Hx]%orb_false_iff. by rewrite IH, Hc.
Qed.

Lemma split_first_app d x y :
  has_byte d x = false → split_first d (x +:+ String d y) = (x, Some y).
Proof.
  induction x as [|c x IH]; simpl.
  - intros _. by rewrite bool_decide_true.
  - intros [Hc Hx]%orb_false_iff. by rewrite IH, Hc.
Qed.

(** ** The serializer as a join *)

(** [name=value] of one pair. *)
Definition pair_str (p : string * string) : string :=
  (form_encode p.1 +:+ "=" +:+ form_encode p.2)%string.

(** The pairs after the first, each preceded by [&]. *)
Definition amp_tail (l : params) : string :=
  foldr (λ p acc, "&" +:+ pair_str p +:+ acc)%string ""%string l.

Lemma app_sep_nonempty a c b : (a +:+ String c b)%string ≠ ""%string.
Proof. destruct a; discriminate. Qed.

Lemma pair_str_nonempty p : pair_str p ≠ ""%string.
Proof. apply app_sep_nonempty. Qed.

Lemma pair_str_no_amp p : has_byte "&" (pair_str p) = false.
Proof.
  destruct p as [n v]. unfold pair_str. simpl.
  rewrite has_byte_app. simpl.
  by rewrite string_app_nil_l, (proj1 (form_encode_no_sep n)), (proj1 (form_encode_no_sep v)).
Qed.

Lemma form_serialize_from out l :
  out ≠ ""%string →
  foldl (λ out '(n, v),
           (if String.eqb out "" then "" else out +:+ "&") +:+
             form_encode n +:+ "=" +:+ form_encode v)%string out l =
  (out +:+ amp_tail l)%string.
Proof.
  revert out. induction l as [|[n v] l IH]; intros out Hout; simpl.
  - by rewrite string_app_nil_r.
  - destruct (String.eqb_spec out ""); [done|]. rewrite IH.
    + unfold pair_str. cbn [fst snd]. by rewrite <- !string_app_assoc.
    + rewrite <- string_app_assoc. apply app_sep_nonempty.
Qed.

Lemma form_serialize_cons p l :
  form_serialize (p :: l) = (pair_str p +:+ amp_tail l)%string.
Proof.
  destruct p as [n v]. unfold form_serialize. simpl.
  apply form_serialize_from, pair_str_nonempty.
Qed.

Lemma split_amp_serialized p l :
  split_on "&" (pair_str p +:+ amp_tail l) = pair_str <$> p :: l.
Proof.
  revert p. induction l as [|q l IH]; intros p; simpl.
  - rewrite string_app_nil_r. apply split_on_no_byte, pair_str_no_amp.
  - change ("&" +:+ ?x)%string with (String "&"%char x).
    rewrite split_on_app, IH; [done|]. apply pair_str_no_amp.
Qed.

Lemma form_pair_str p : form_pair (pair_str p) = p.
Proof.
  destruct p as [n v]. unfold form_pair, pair_str. simpl.
  change ("=" +:+ ?x)%string with (String "="%char x).
  rewrite split_first_app, !form_decode_encode; [done|].
  apply form_encode_no_sep.
Qed.

Lemma form_pair_serialized (l : params) :
  form_pair <$> filter (λ seg, seg ≠ ""%string) (pair_str <$> l) = l.
Proof.
  induction l as [|p l IH]; [done|].
  rewrite fmap_cons, filter_cons_True by apply pair_str_nonempty.
  by rewrite fmap_cons, form_pair_str, IH.
Qed.

(** Parsing a serialized list gives the list back: what [buildUrl] sets on
    [searchParams] is what a form-urlencoded parser reads from the URL. *)
Theorem form_parse_serialize l : form_parse (form_serialize l) = l.
Proof.
  destruct l as [|p l]; [done|]. unfold form_parse.
  rewrite form_serialize_cons, split_amp_serialized. apply form_pair_serialized.
Qed.

(** ** [URLSearchParams.get] after [set] *)

Lemma params_get_app n l1 l2 :
  params_get n (l1 ++ l2) =
  match params_get n l1 with Some v => Some v | None => params_get n l2 end.
Proof. induction l1 as [|[k w] l1 IH]; simpl; [done|]. by destruct (String.eqb k n). Qed.

Lemma params_get_none n l :
  existsb (λ p, String.eqb p.1 n) l = false → params_get n l = None.
Proof.
  induction l as [|[k w] l IH]; simpl; [done|].
  intros [-> H]%orb_false_iff. auto.
Qed.

Lemma params_get_filter_ne n m l :
  n ≠ m → params_get m (filter (λ p, p.1 ≠ n) l) = params_get m l.
Proof.
  intros Hnm. induction l as [|[k w] l IH]; [done|]. rewrite filter_cons.
  case_decide as Hk; simpl; destruct (String.eqb_spec k m); subst; try done.
  all: destruct Hk; congruence.
Qed.

Theorem params_get_set_eq n v l : params_get n (params_set n v l) = Some v.
Proof.
  unfold params_set. destruct (existsb _ l) eqn:E.
  - induction l as [|[k w] l IH]; simpl in *; [done|].
    destruct (String.eqb_spec k n) as [->|Hk]; simpl.
    + by rewrite String.eqb_refl.
    + destruct (String.eqb_spec k n); [done|]. auto.
  - rewrite params_get_app, params_get_none by done. simpl. by rewrite String.eqb_refl.
Qed.

Theorem params_get_set_ne n m v l :
  n ≠ m → params_get m (params_set n v l) = params_get m l.
Proof.
  intros Hnm. unfold params_set. destruct (existsb _ l).
  - induction l as [|[k w] l IH]; simpl; [done|].
    destruct (String.eqb_spec k n) as [->|Hk]; simpl.
    + destruct (String.eqb_spec n m); [done|]. by apply params_get_filter_ne.
    + by rewrite IH.
  - rewrite params_get_app. destruct (params_get m l); [done|]. simpl.
    by destruct (String.eqb_spec n m).
Qed.

(** ** Printing then parsing a URL *)

(** Every byte satisfies [p]. *)
Fixpoint all_bytes (p : Ascii.ascii → bool) (s : string) : bool :=
  match s with
  | "" => true
  | String c s' => p c && all_bytes p s'
  end%string.

Lemma all_bytes_app p a b : all_bytes p (a +:+ b) = all_bytes p a && all_bytes p b.
Proof.
  induction a as [|c a IH]; [done|]. rewrite string_app_cons. simpl.
  by rewrite IH, andb_assoc.
Qed.

#[local] Hint Rewrite all_bytes_app : vx_rw.

(** A byte the URL parser leaves alone in a query: outside the special-query
    set, which contains tab, newline and [#]. *)
Definition query_plain (c : Ascii.ascii) : bool := negb (special_query_byte c).

Lemma query_plain_strip s : all_bytes query_plain s = true → strip_tab_newline s = s.
Proof.
  induction s as [|c s IH]; [done|]. simpl. intros [Hc Hs]%andb_true_iff.
  rewrite IH by done. revert Hc. byte_cases c; cbv; done.
Qed.

Lemma query_plain_no_hash s : all_bytes query_plain s = true → has_byte "#" s = false.
Proof.
  induction s as [|c s IH]; [done|]. simpl. intros [Hc Hs]%andb_true_iff.
  rewrite IH by done. revert Hc. byte_cases c; cbv; done.
Qed.

Lemma query_plain_encode s : all_bytes query_plain s = true → encode_if special_query_byte s = s.
Proof.
  induction s as [|c s IH]; [done|]. simpl. intros [Hc Hs]%andb_true_iff.
  rewrite IH by done. unfold query_plain in Hc. by destruct (special_query_byte c).
Qed.

Lemma form_encode_byte_plain c : all_bytes query_plain (form_encode_byte c) = true.
Proof. byte_cases c; reflexivity. Qed.

Lemma form_encode_plain s : all_bytes query_plain (form_encode s) = true.
Proof.
  induction s as [|c s IH]; [done|]. simpl.
  by rewrite all_bytes_app, form_encode_byte_plain, IH.
Qed.

Lemma pair_str_plain p : all_bytes query_plain (pair_str p) = true.
Proof.
  destruct p as [n v]. unfold pair_str. cbn [fst snd].
  change ("=" +:+ ?x)%string with (String "="%char x).
  rewrite all_bytes_app. simpl. by rewrite !form_encode_plain.
Qed.

Lemma amp_tail_cons q l : amp_tail (q :: l) = ("&" +:+ pair_str q +:+ amp_tail l)%string.
Proof. done. Qed.

(** The serialization of a list is left alone by the URL parser. *)
Lemma form_serialize_plain l : all_bytes query_plain (form_serialize l) = true.
Proof.
  destruct l as [|p l]; [done|]. rewrite form_serialize_cons, all_bytes_app, pair_str_plain.
  simpl. induction l as [|q l IH]; [done|].
  by rewrite amp_tail_cons, !all_bytes_app, pair_str_plain, IH.
Qed.

Lemma split_first_no_byte d s : has_byte d s = false → split_first d s = (s, None).
Proof.
  induction s as [|c s IH]; [done|]. simpl. intros [Hc Hs]%orb_false_iff.
  by rewrite Hc, IH.
Qed.

Lemma strip_tab_newline_app a b :
  strip_tab_newline (a +:+ b) = (strip_tab_newline a +:+ strip_tab_newline b)%string.
Proof.
  induction a as [|c a IH]; [done|]. rewrite string_app_cons. simpl.
  case_bool_decide; [done|]. by rewrite IH.
Qed.

(** The URL object as [url_set] leaves it: its query is the serialization
    of its list. *)
Definition url_wf (u : URL) : Prop :=
  url_query u =
  (let q := form_serialize (url_search u) in if String.eqb q "" then None else Some q).

(** A base the parser reads back as it is: no [?], no [#], no tab or
    newline. *)
Definition base_ok (b : string) : bool :=
  negb (has_byte "?" b) && negb (has_byte "#" b) && String.eqb (strip_tab_newline b) b.

Lemma url_set_wf n v u : url_wf (url_set n v u).
Proof. done. Qed.

(** Parsing the printed URL gives back its search parameters. *)
Theorem url_parse_toString u :
  url_wf u → url_hash u = None → base_ok (url_base u) = true →
  url_search (url_parse (url_toString u)) = url_search u.
Proof.
  unfold url_wf, base_ok, url_toString, url_parse.
  intros Hq -> [[Hb1 Hb2]%andb_true_iff Hb3]%andb_true_iff.
  apply negb_true_iff in Hb1, Hb2. apply String.eqb_eq in Hb3.
  rewrite Hq. cbn zeta.
  destruct (String.eqb_spec (form_serialize (url_search u)) "") as [He|He].
  - rewrite !string_app_nil_r, Hb3, split_first_no_byte, split_first_no_byte by done.
    simpl. destruct (url_search u) as [|p l]; [done|].
    rewrite form_serialize_cons in He. apply string_app_nil_inv in He as [He _].
    by destruct (pair_str_nonempty p).
  - pose proof (form_serialize_plain (url_search u)) as Hp.
    rewrite string_app_nil_r. change ("?" +:+ ?x)%string with (String "?"%char x).
    rewrite strip_tab_newline_app, Hb3. simpl. rewrite query_plain_strip by done.
    rewrite split_first_no_byte.
    + rewrite split_first_app by done. simpl.
      by rewrite query_plain_encode, form_parse_serialize.
    + rewrite has_byte_app, Hb2. simpl. by apply query_plain_no_hash.
Qed.

(** ** Parsing [base?name=encodeURIComponent(x)] *)

Definition no_tab_newline (c : Ascii.ascii) : bool := negb (bool_decide (code c ∈ [9; 10; 13])).

(** What the parser needs of a parameter name: alphanumeric bytes. *)
Definition name_byte_ok (c : Ascii.ascii) : bool :=
  implb (is_alnum c)
    (negb (special_query_byte c) && no_tab_newline c &&
     negb (bool_decide (c ∈ ["&"; "="; "#"; "?"; "%"; "+"]%char))).

Lemma name_byte_ok_all c : name_byte_ok c = true.
Proof. byte_cases c; reflexivity. Qed.

(** What the parser needs of one byte of an [encodeURIComponent] output. *)
Lemma uri_byte_parse c :
  has_byte "&" (encode_if special_query_byte (uri_byte c)) = false ∧
  has_byte "=" (encode_if special_query_byte (uri_byte c)) = false ∧
  all_bytes no_tab_newline (uri_byte c) = true.
Proof. byte_cases c; (split; [reflexivity | split; reflexivity]). Qed.

Lemma strip_id s : all_bytes no_tab_newline s = true → strip_tab_newline s = s.
Proof.
  induction s as [|c s IH]; [done|]. simpl. intros [Hc Hs]%andb_true_iff.
  unfold no_tab_newline in Hc. apply negb_true_iff in Hc. by rewrite Hc, IH.
Qed.

Lemma percent_decode_plain c s :
  c ≠ "%"%char → percent_decode (String c s) = String c (percent_decode s).
Proof. intros Hc. simpl. by rewrite bool_decide_false. Qed.

Lemma replace_plus_plain c s :
  c ≠ "+"%char → replace_plus (String c s) = String c (replace_plus s).
Proof. intros Hc. simpl. by rewrite bool_decide_false. Qed.

Section Name.
Variable n : string.
Hypothesis Hn : all_bytes is_alnum n = true.

Lemma name_props :
  all_bytes no_tab_newline n = true ∧ has_byte "#" n = false ∧ has_byte "?" n = false ∧
  has_byte "&" n = false ∧ has_byte "=" n = false ∧
  encode_if special_query_byte n = n ∧ form_decode n = n.
Proof.
  unfold form_decode. induction n as [|c s IH]; [done|].
  cbn [all_bytes] in Hn. apply andb_true_iff in Hn as [Hc Hs].
  destruct (IH Hs) as (H1 & H2 & H3 & H4 & H5 & H6 & H7).
  pose proof (name_byte_ok_all c) as Hok. unfold name_byte_ok in Hok.
  rewrite Hc in Hok. simpl in Hok.
  apply andb_true_iff in Hok as [[Hsq Hnl]%andb_true_iff Hsep].
  apply negb_true_iff in Hsq, Hsep. rewrite bool_decide_eq_false in Hsep.
  rewrite replace_plus_plain, percent_decode_plain, H7 by set_solver.
  cbn [all_bytes has_byte encode_if].
  rewrite H1, H2, H3, H4, H5, H6, Hsq, Hnl, !bool_decide_false by set_solver.
  done.
Qed.
End Name.

Lemma encodeURIComponent_parse x :
  has_byte "&" (encode_if special_query_byte (encodeURIComponent x)) = false ∧
  has_byte "=" (encode_if special_query_byte (encodeURIComponent x)) = false ∧
  all_bytes no_tab_newline (encodeURIComponent x) = true.
Proof.
  induction x as [|c x (IH1 & IH2 & IH3)]; [done|].
  rewrite encodeURIComponent_cons, encode_if_app, !has_byte_app, all_bytes_app, IH1, IH2, IH3.
  destruct (uri_byte_parse c) as (-> & -> & ->). done.
Qed.

(** The URL of an endpoint with one query parameter built by
    [encodeURIComponent]: its list of search parameters is the one pair,
    with the value decoded back to [x]. *)
Theorem url_parse_component base n x :
  base_ok base = true → all_bytes is_alnum n = true → n ≠ ""%string →
  url_search (url_parse (base +:+ "?" +:+ n +:+ "=" +:+ encodeURIComponent x)) = [(n, x)] ∧
  url_hash (url_parse (base +:+ "?" +:+ n +:+ "=" +:+ encodeURIComponent x)) = None ∧
  url_base (url_parse (base +:+ "?" +:+ n +:+ "=" +:+ encodeURIComponent x)) = base.
Proof.
  unfold base_ok. intros [[Hb1 Hb2]%andb_true_iff Hb3]%andb_true_iff Hn Hne.
  apply negb_true_iff in Hb1, Hb2. apply String.eqb_eq in Hb3.
  destruct (name_props n Hn) as (N1 & N2 & N3 & N4 & N5 & N6 & N7).
  destruct (encodeURIComponent_parse x) as (E1 & E2 & E3).
  change ("?" +:+ ?y)%string with (String "?"%char y).
  change ("=" +:+ ?y)%string with (String "="%char y).
  unfold url_parse.
  rewrite strip_tab_newline_app, Hb3. simpl. rewrite strip_tab_newline_app, strip_id, strip_id by done.
  simpl. rewrite split_first_no_byte.
  2:{ rewrite !has_byte_app, Hb2. simpl. rewrite has_byte_app, N2. simpl.
      apply encodeURIComponent_no_special. set_solver. }
  rewrite split_first_app by done. simpl. split; [|done].
  rewrite encode_if_app, N6. simpl.
  unfold form_parse. rewrite split_on_no_byte.
  2:{ rewrite has_byte_app, N4. simpl. done. }
  rewrite filter_cons_True by apply app_sep_nonempty. simpl.
  unfold form_pair. change ("=" +:+ ?y)%string with (String "="%char y).
  rewrite split_first_app by done.
  by rewrite N7, form_decode_query_encodeURIComponent.
Qed.

(** [url.searchParams.set(n, v)] then [url.toString()], read back by
    [new URL]: on a URL with no fragment and a base the parser keeps, the
    parsed list of parameters is the list [set] produced, in which [n]
    reads [v] and every other name reads what it read before. *)
Theorem url_set_toString_get n v m u :
  url_hash u = None → base_ok (url_base u) = true →
  url_search (url_parse (url_toString (url_set n v u))) = params_set n v (url_search u) ∧
  params_get n (url_search (url_parse (url_toString (url_set n v u)))) = Some v ∧
  (m ≠ n → params_get m (url_search (url_parse (url_toString (url_set n v u)))) =
           params_get m (url_search u)).
Proof.
  intros Hh Hb. rewrite url_parse_toString by done. cbn [url_search url_set].
  split; [done | split; [apply params_get_set_eq |]].
  intros Hm. apply params_get_set_ne. congruence.
Qed.

Lemma url_set_toString_get_witness :
  let u := url_parse "https://api.themoviedb.org/3/tv/1?language=fr&page=2" in
  url_search (url_parse (url_toString (url_set "language" "en-US" u))) =
    [("language", "en-US"); ("page", "2")] ∧
  params_get "language" (url_search (url_parse (url_toString (url_set "language" "en-US" u)))) =
    Some "en-US"%string ∧
  ("page" ≠ "language" → params_get "page" (url_search (url_parse (url_toString (url_set "language" "en-US" u)))) =
    params_get "page" (url_search u))%string.
Proof.
  intros u. apply url_set_toString_get; vm_compute; reflexivity.
Defined.

End Url.
