(* ===== verification/Json.v ===== *)
(** * JSON values

    The values [res.json()] produces and the code reads: [data.results],
    [results[0].id], [show.id].  Numbers are rationals (the API's ratings are
    decimals such as [8.7]); an object keeps its members in source order, and
    property access returns the last member with the key, as [JSON.parse]
    overwrites a repeated key. *)

From S2P Require Import Prelude.
From Stdlib Require Import QArith_base.

Module Json.

#[local] Set Warnings "-register-all".
Inductive Json : Type :=
| JNull
| JBool (b : bool)
| JNum (q : Q)
| JStr (s : string)
| JArr (l : list Json)
| JObj (kvs : list (string * Json)).

(** [j[k]] on a parsed JSON value: [None] is [undefined].  Only objects
    have members; a property of a primitive or of an array that JSON can
    name is [undefined]. *)
Definition jget (j : Json) (k : string) : option Json :=
  match j with
  | JObj kvs => foldl (λ acc '(k', v), if String.eqb k' k then Some v else acc) None kvs
  | _ => None
  end.

(** [o.k] where [o] is a value read from JSON: [None] when the read
    throws, as reading a property of [null] (or [undefined]) does. *)
Definition member (o : option Json) (k : string) : option (option Json) :=
  match o with
  | Some JNull | None => None
  | Some j => Some (jget j k)
  end.

(** ToBoolean of a value read from JSON: [undefined], [null], [false],
    [0] and [""] are falsy, every object and array is truthy. *)
Definition truthy (o : option Json) : bool :=
  match o with
  | None | Some JNull => false
  | Some (JBool b) => b
  | Some (JNum q) => negb (Qeq_bool q 0)
  | Some (JStr s) => negb (String.eqb s "")
  | Some (JArr _) | Some (JObj _) => true
  end.

(** [{ results: l }]. *)
Definition results_obj (l : list Json) : Json := JObj [("results"%string, JArr l)].

(** [{ error: msg }]. *)
Definition error_obj (msg : string) : Json := JObj [("error"%string, JStr msg)].

Lemma jget_results_obj l : jget (results_obj l) "results" = Some (JArr l).
Proof. done. Qed.

Lemma jget_error_obj msg : jget (error_obj msg) "results" = None.
Proof. done. Qed.

End Json.

#[export] Hint Rewrite Json.jget_results_obj Json.jget_error_obj : vx_rw.
