(* ===== verification/Fetch.v ===== *)
(** * The effect of [fetch]: a free monad with exceptions

    Server code of the repository is [async] TypeScript whose only effect is
    [await fetch(...)] and whose failures are exceptions.  [FetchM A] is
    such a computation: it returns an [A], throws an exception, or issues a
    request and continues with the network's answer.  The answer is either
    a response or a network error, on which [fetch] rejects with a
    [TypeError].  [run] interprets a computation against a network (a
    function from requests to answers) and records the requests it made,
    which is how "no upstream call" is stated.  Two computations are
    equivalent when they make the same requests and end the same way
    against every network; bind respects that equivalence. *)

From S2P Require Import Prelude Json.
From Stdlib Require Import Morphisms.
Import Json.

Module Fetch.

(** ** Requests, responses, exceptions *)

(** A thrown value: [new Error(msg)], or the [TypeError] of a rejected
    [fetch], or the [SyntaxError] of [res.json()] on a body that is not
    JSON. *)
Inductive exn : Type :=
| ErrorMsg (msg : string)
| TypeError
| SyntaxError.

(** [fetch(url, { headers, next: { revalidate } })]. *)
Record Request := mkRequest {
  req_url : string;
  req_headers : list (string * string);
  req_revalidate : option Z
}.

(** A response: its status, its status text, and its body, [None] when it
    is not JSON. *)
Record Response := mkResponse {
  res_status : Z;
  res_statusText : string;
  res_body : option Json
}.

Inductive FetchResult : Type :=
| NetworkError
| Delivered (r : Response).

(** ** The monad *)

Inductive FetchM (A : Type) : Type :=
| FRet (a : A)
| FThrow (e : exn)
| FCall (rq : Request) (k : FetchResult → FetchM A).

Arguments FRet {A} a.
Arguments FThrow {A} e.
Arguments FCall {A} rq k.

Fixpoint fbind {A B} (m : FetchM A) (f : A → FetchM B) : FetchM B :=
  match m with
  | FRet a => f a
  | FThrow e => FThrow e
  | FCall rq k => FCall rq (λ r, fbind (k r) f)
  end.

#[export] Instance fetch_ret : MRet FetchM := @FRet.
#[export] Instance fetch_bind : MBind FetchM := λ A B f m, fbind m f.

(** [try { m } catch (e) { h(e) }]. *)
Fixpoint fcatch {A} (m : FetchM A) (h : exn → FetchM A) : FetchM A :=
  match m with
  | FRet a => FRet a
  | FThrow e => h e
  | FCall rq k => FCall rq (λ r, fcatch (k r) h)
  end.

(** [await fetch(rq)]. *)
Definition fetch (rq : Request) : FetchM Response :=
  FCall rq (λ r, match r with NetworkError => FThrow TypeError | Delivered resp => FRet resp end).

(** [res.ok]: the status is in [200, 299]. *)
Definition res_ok (r : Response) : bool := (200 <=? res_status r)%Z && (res_status r <=? 299)%Z.

(** [await res.json()]. *)
Definition res_json (r : Response) : FetchM Json :=
  match res_body r with Some j => FRet j | None => FThrow SyntaxError end.

(** ** Running a computation against a network *)

Fixpoint run {A} (net : Request → FetchResult) (m : FetchM A) : list Request * (exn + A) :=
  match m with
  | FRet a => ([], inr a)
  | FThrow e => ([], inl e)
  | FCall rq k => let '(t, r) := run net (k (net rq)) in (rq :: t, r)
  end.

(** The requests made, in order. *)
Definition calls {A} (net : Request → FetchResult) (m : FetchM A) : list Request :=
  (run net m).1.

(** The outcome: the exception thrown or the value returned. *)
Definition outcome {A} (net : Request → FetchResult) (m : FetchM A) : exn + A :=
  (run net m).2.

(** Observational equivalence. *)
Definition fetch_equiv {A} (m1 m2 : FetchM A) : Prop := ∀ net, run net m1 = run net m2.

Infix "≈" := fetch_equiv (at level 70) : vx_scope.
Open Scope vx_scope.

(** ** Lemmas *)

#[export] Instance fetch_equiv_equivalence {A} : Equivalence (@fetch_equiv A).
Proof. split; repeat intro; congruence. Qed.

Lemma run_bind {A B} net (m : FetchM A) (f : A → FetchM B) :
  run net (fbind m f) =
  let '(t, r) := run net m in
  match r with
  | inl e => (t, inl e)
  | inr a => let '(t', r') := run net (f a) in (t ++ t', r')
  end.
Proof.
  induction m as [a|e|rq k IH]; simpl.
  - by destruct (run net (f a)).
  - done.
  - rewrite IH. destruct (run net (k (net rq))) as [t [e|a]]; [done|].
    by destruct (run net (f a)).
Qed.

Lemma run_catch {A} net (m : FetchM A) (h : exn → FetchM A) :
  run net (fcatch m h) =
  let '(t, r) := run net m in
  match r with
  | inl e => let '(t', r') := run net (h e) in (t ++ t', r')
  | inr a => (t, inr a)
  end.
Proof.
  induction m as [a|e|rq k IH]; simpl.
  - done.
  - by destruct (run net (h e)).
  - rewrite IH. destruct (run net (k (net rq))) as [t [e|a]]; [|done].
    by destruct (run net (h e)).
Qed.

#[export] Instance fbind_proper {A B} :
  Proper (fetch_equiv ==> pointwise_relation A fetch_equiv ==> fetch_equiv) (@fbind A B).
Proof.
  intros m1 m2 Hm f1 f2 Hf net. rewrite !run_bind, Hm.
  destruct (run net m2) as [t [e|a]]; [done|]. by rewrite Hf.
Qed.

#[export] Instance fcatch_proper {A} :
  Proper (fetch_equiv ==> pointwise_relation exn fetch_equiv ==> fetch_equiv) (@fcatch A).
Proof.
  intros m1 m2 Hm h1 h2 Hh net. rewrite !run_catch, Hm.
  destruct (run net m2) as [t [e|a]]; [|done]. by rewrite Hh.
Qed.

(** The monad laws, the right unit and associativity up to [≈]. *)
Lemma fbind_ret_l {A B} (a : A) (f : A → FetchM B) : fbind (FRet a) f = f a.
Proof. done. Qed.

Lemma fbind_ret_r {A} (m : FetchM A) : fbind m FRet ≈ m.
Proof.
  intros net. rewrite run_bind. destruct (run net m) as [t [e|a]]; [done|].
  simpl. by rewrite app_nil_r.
Qed.

Lemma fbind_assoc {A B C} (m : FetchM A) (f : A → FetchM B) (g : B → FetchM C) :
  fbind (fbind m f) g ≈ fbind m (λ a, fbind (f a) g).
Proof.
  intros net. rewrite !run_bind. destruct (run net m) as [t [e|a]]; [done|].
  rewrite run_bind. destruct (run net (f a)) as [t' [e|b]]; [done|].
  destruct (run net (g b)). by rewrite app_assoc.
Qed.

(** The [x ← m; k] notation of stdpp is [fbind]. *)
Lemma fetch_mbind {A B} (f : A → FetchM B) (m : FetchM A) : (m ≫= f) = fbind m f.
Proof. done. Qed.

(** A computation that throws or returns without a request makes none. *)
Lemma calls_ret {A} net (a : A) : calls net (FRet a) = [].
Proof. done. Qed.

(** A continuation that makes no request adds none. *)
Lemma calls_bind_quiet {A B} net (m : FetchM A) (f : A → FetchM B) :
  (∀ a, calls net (f a) = []) → calls net (fbind m f) = calls net m.
Proof.
  intros Hf. unfold calls. rewrite run_bind. destruct (run net m) as [t [e|a]]; [done|].
  specialize (Hf a). unfold calls in Hf. destruct (run net (f a)) as [t' r']. simpl in *.
  by rewrite Hf, app_nil_r.
Qed.

Lemma calls_catch_quiet {A} net (m : FetchM A) (h : exn → FetchM A) :
  (∀ e, calls net (h e) = []) → calls net (fcatch m h) = calls net m.
Proof.
  intros Hh. unfold calls. rewrite run_catch. destruct (run net m) as [t [e|a]]; [|done].
  specialize (Hh e). unfold calls in Hh. destruct (run net (h e)) as [t' r']. simpl in *.
  by rewrite Hh, app_nil_r.
Qed.

Lemma run_fetch net rq :
  run net (fetch rq) =
  ([rq], match net rq with NetworkError => inl TypeError | Delivered r => inr r end).
Proof. simpl. by destruct (net rq). Qed.

End Fetch.

#[export] Hint Rewrite @Fetch.fetch_mbind @Fetch.run_bind @Fetch.run_catch Fetch.run_fetch : vx_rw.
