(* ===== verification/Tmdb.v ===== *)
(** * The metadata access shim, [src/lib/tmdb.ts]

    The two credentials are read once from the environment
    ([process.env.TMDB_API_KEY], [process.env.TMDB_ACCESS_TOKEN]); they are
    the [Config] record, [None] for an unset variable.  [buildUrl] and
    [tmdbFetch] follow the code line by line; the list operations add
    [.then((d) => d.results)], which throws a [TypeError] on a [null] body.
    [tmdbFetch<T>]'s result is cast without a check, so it is a [Json]. *)

From S2P Require Import Prelude JsString Url Json Fetch.
Import Json Fetch.

Module Tmdb.

(** ** Configuration and constants *)

Record Config := mkConfig {
  V3_KEY : option string;
  V4_TOKEN : option string
}.

Definition TMDB : string := "https://api.themoviedb.org/3".
Definition LANG : string := "en-US".
Definition CACHE : Z := 60 * 60.

(** The truthiness of an environment variable: unset and empty are falsy. *)
Definition env_truthy (o : option string) : bool :=
  match o with Some s => JsString.truthy s | None => false end.

Definition credential_missing : string :=
  "TMDB credential missing. Add TMDB_API_KEY (v3) or TMDB_ACCESS_TOKEN (v4) to .env.local".

(** ** Operations *)

(** [buildUrl(endpoint)]: the [api_key] parameter is added when the token
    is [== null] (unset) and the key is truthy. *)
Definition buildUrl (cfg : Config) (endpoint : string) : string :=
  let url := Url.url_parse (TMDB +:+ endpoint) in
  let url := Url.url_set "language" LANG url in
  let url :=
    match V4_TOKEN cfg, V3_KEY cfg with
    | None, Some key => if JsString.truthy key then Url.url_set "api_key" key url else url
    | _, _ => url
    end in
  Url.url_toString url.

(** [V4_TOKEN ? { Authorization: `Bearer ${V4_TOKEN}` } : {}]. *)
Definition auth_headers (cfg : Config) : list (string * string) :=
  match V4_TOKEN cfg with
  | Some t => if JsString.truthy t then [("Authorization", "Bearer " +:+ t)] else []
  | None => []
  end%string.

(** The request [tmdbFetch] sends for an endpoint. *)
Definition tmdb_request (cfg : Config) (endpoint : string) : Request :=
  {| req_url := buildUrl cfg endpoint;
     req_headers := auth_headers cfg;
     req_revalidate := Some CACHE |}.

(** [tmdbFetch<T>(endpoint)]. *)
Definition tmdbFetch (cfg : Config) (endpoint : string) : FetchM Json :=
  if negb (env_truthy (V3_KEY cfg)) && negb (env_truthy (V4_TOKEN cfg)) then
    FThrow (ErrorMsg credential_missing)
  else
    res ← fetch (tmdb_request cfg endpoint);
    if negb (res_ok res) then
      FThrow (ErrorMsg ("TMDB " +:+ JsString.number_to_string (res_status res)))
    else res_json res.

(** [.then((d) => d.results)]: [null.results] throws. *)
Definition then_results (d : Json) : FetchM (option Json) :=
  match d with JNull => FThrow TypeError | _ => FRet (jget d "results") end.

Definition getTrendingShows (cfg : Config) : FetchM (option Json) :=
  d ← tmdbFetch cfg "/trending/tv/week"; then_results d.

Definition getTopRatedShows (cfg : Config) : FetchM (option Json) :=
  d ← tmdbFetch cfg "/tv/top_rated"; then_results d.

Definition getAiringTodayShows (cfg : Config) : FetchM (option Json) :=
  d ← tmdbFetch cfg "/tv/airing_today"; then_results d.

Definition getShowDetails (cfg : Config) (id : Z) : FetchM Json :=
  tmdbFetch cfg ("/tv/" +:+ JsString.number_to_string id).

Definition getSeasonDetails (cfg : Config) (id s : Z) : FetchM Json :=
  tmdbFetch cfg ("/tv/" +:+ JsString.number_to_string id +:+ "/season/" +:+
                 JsString.number_to_string s).

(** The endpoint of a search. *)
Definition search_endpoint (q : string) : string :=
  "/search/tv?query=" +:+ Url.encodeURIComponent (JsString.trim q).

(** [searchShows(q)]: a blank query resolves to an empty list at once. *)
Definition searchShows (cfg : Config) (q : string) : FetchM Json :=
  if JsString.isBlank q then FRet (results_obj [])
  else tmdbFetch cfg (search_endpoint q).

(** ** The outcome of one upstream answer *)

(** What [tmdbFetch] ends with when its request got the answer [a]. *)
Definition answer_outcome (a : FetchResult) : exn + Json :=
  match a with
  | NetworkError => inl TypeError
  | Delivered r =>
      if negb (res_ok r) then inl (ErrorMsg ("TMDB " +:+ JsString.number_to_string (res_status r)))
      else match res_body r with Some j => inr j | None => inl SyntaxError end
  end.

(** A credential is configured in the sense of the guard of [tmdbFetch]. *)
Definition has_credential (cfg : Config) : bool :=
  env_truthy (V3_KEY cfg) || env_truthy (V4_TOKEN cfg).

(** ** What the upstream server receives *)

(** The search parameters a server parses from the request's URL. *)
Definition sent_params (rq : Request) : Url.params :=
  Url.url_search (Url.url_parse (req_url rq)).

(** The request carries a credential: an [Authorization] header or an
    [api_key] parameter. *)
Definition sends_credential (rq : Request) : bool :=
  existsb (λ h, String.eqb h.1 "Authorization") (req_headers rq) ||
  bool_decide (is_Some (Url.params_get "api_key" (sent_params rq))).

(** An endpoint that [buildUrl] prints back faithfully and that carries no
    [api_key] of its own, as every endpoint of the code. *)
Definition endpoint_ok (ep : string) : bool :=
  let u := Url.url_parse (TMDB +:+ ep) in
  Url.base_ok (Url.url_base u) && bool_decide (Url.url_hash u = None) &&
  bool_decide (Url.params_get "api_key" (Url.url_search u) = None).

(** ** Lemmas *)

Lemma buildUrl_sent cfg ep :
  endpoint_ok ep = true →
  sent_params (tmdb_request cfg ep) =
  let l := Url.params_set "language" LANG (Url.url_search (Url.url_parse (TMDB +:+ ep))) in
  match V4_TOKEN cfg, V3_KEY cfg with
  | None, Some key => if JsString.truthy key then Url.params_set "api_key" key l else l
  | _, _ => l
  end.
Proof.
  unfold endpoint_ok. intros [[Hb Hh]%andb_true_iff _]%andb_true_iff.
  apply bool_decide_eq_true in Hh.
  unfold sent_params, tmdb_request, buildUrl. cbn [req_url].
  destruct (V4_TOKEN cfg), (V3_KEY cfg) as [k|]; try destruct (JsString.truthy k);
    apply Url.url_parse_toString; done.
Qed.

Lemma endpoint_ok_api_key ep :
  endpoint_ok ep = true → Url.params_get "api_key" (Url.url_search (Url.url_parse (TMDB +:+ ep))) = None.
Proof. unfold endpoint_ok. intros [_ H]%andb_true_iff. by apply bool_decide_eq_true in H. Qed.

Lemma search_endpoint_parse q :
  Url.url_parse (TMDB +:+ search_endpoint q) =
  Url.url_parse ((TMDB +:+ "/search/tv") +:+ "?" +:+ "query" +:+ "=" +:+
                 Url.encodeURIComponent (JsString.trim q)).
Proof. reflexivity. Qed.

Lemma search_endpoint_search q :
  Url.url_search (Url.url_parse (TMDB +:+ search_endpoint q)) = [("query", JsString.trim q)]%string ∧
  endpoint_ok (search_endpoint q) = true.
Proof.
  unfold endpoint_ok. rewrite search_endpoint_parse.
  destruct (Url.url_parse_component (TMDB +:+ "/search/tv") "query" (JsString.trim q))
    as (-> & -> & ->); [done | done | done |].
  split; [done|]. reflexivity.
Qed.

(** ** Theorems *)

(** [tmdbFetch] makes no request without a credential and throws; with one,
    it makes exactly one request, the one [tmdb_request] builds, and ends
    as [answer_outcome] says: [TypeError] on a network error, [TMDB <status>]
    on a status outside [200, 299], the body, or [SyntaxError] when the body
    is not JSON. *)
Lemma run_tmdbFetch cfg ep net :
  run net (tmdbFetch cfg ep) =
  if has_credential cfg then ([tmdb_request cfg ep], answer_outcome (net (tmdb_request cfg ep)))
  else ([], inl (ErrorMsg credential_missing)).
Proof.
  unfold tmdbFetch, has_credential.
  destruct (env_truthy (V3_KEY cfg)), (env_truthy (V4_TOKEN cfg)); try done;
    cbn; destruct (net (tmdb_request cfg ep)) as [|r]; try done; cbn;
    destruct (res_ok r); cbn; try done; unfold res_json; by destruct (res_body r).
Qed.

(** C4: For every endpoint of the code, the request of [tmdbFetch]
    carries a credential (a bearer header or an [api_key] parameter that
    the server reads from the URL) exactly when the token is truthy, or
    the token is unset and the key is truthy. *)
Theorem tmdb_request_credential cfg ep :
  endpoint_ok ep = true →
  sends_credential (tmdb_request cfg ep) =
  env_truthy (V4_TOKEN cfg) || (bool_decide (V4_TOKEN cfg = None) && env_truthy (V3_KEY cfg)).
Proof.
  intros Hep. pose proof (endpoint_ok_api_key ep Hep) as Hk.
  unfold sends_credential. rewrite buildUrl_sent by done. cbn [req_headers tmdb_request].
  remember (Url.url_search (Url.url_parse (TMDB +:+ ep))) as l0 eqn:El.
  assert (Hl : Url.params_get "api_key" (Url.params_set "language" LANG l0) = None)
    by (rewrite Url.params_get_set_ne; done).
  unfold auth_headers, env_truthy.
  destruct (V4_TOKEN cfg) as [t|], (V3_KEY cfg) as [k|]; cbn zeta;
    try destruct (JsString.truthy t); try destruct (JsString.truthy k);
    cbn [existsb fst negb orb andb String.eqb Ascii.eqb Bool.eqb];
    rewrite ?Url.params_get_set_eq, ?Hl; done.
Qed.

Lemma tmdb_request_credential_witness :
  endpoint_ok "/tv/top_rated" = true ∧
  sends_credential (tmdb_request (mkConfig (Some "k3y") None) "/tv/top_rated") =
  env_truthy None || (bool_decide (@None string = None) && env_truthy (Some "k3y"%string)).
Proof.
  split; [vm_compute; reflexivity|].
  apply (tmdb_request_credential (mkConfig (Some "k3y") None)). vm_compute. reflexivity.
Defined.

(** The [api_key] parameter [buildUrl] appends. *)
Definition key_param (cfg : Config) : Url.params :=
  match V4_TOKEN cfg, V3_KEY cfg with
  | None, Some key => if JsString.truthy key then [("api_key", key)] else []
  | _, _ => []
  end%string.

(** The key [buildUrl] puts in the URL, if any. *)
Definition sent_key (cfg : Config) : option string :=
  match V4_TOKEN cfg, V3_KEY cfg with
  | None, Some key => if JsString.truthy key then Some key else None
  | _, _ => None
  end.

(** C8: For every endpoint of the code, the URL [buildUrl] makes, as the
    TMDB server parses it, has [language] [en-US], has [api_key] the key
    exactly when the token is unset and the key truthy, and keeps every
    other parameter of the endpoint (the search [query] among them). *)
Theorem buildUrl_params cfg ep :
  endpoint_ok ep = true →
  Url.params_get "language" (sent_params (tmdb_request cfg ep)) = Some LANG ∧
  Url.params_get "api_key" (sent_params (tmdb_request cfg ep)) = sent_key cfg ∧
  ∀ n, n ≠ "language"%string → n ≠ "api_key"%string →
    Url.params_get n (sent_params (tmdb_request cfg ep)) =
    Url.params_get n (Url.url_search (Url.url_parse (TMDB +:+ ep))).
Proof.
  intros Hep. rewrite buildUrl_sent by done. pose proof (endpoint_ok_api_key ep Hep) as Hk.
  unfold sent_key. cbn zeta.
  destruct (V4_TOKEN cfg), (V3_KEY cfg) as [k|]; try destruct (JsString.truthy k);
    rewrite ?Url.params_get_set_eq, ?Url.params_get_set_ne, ?Url.params_get_set_eq, ?Hk by done;
    split_and!; try done; intros n Hn1 Hn2; rewrite ?Url.params_get_set_ne; done.
Qed.

Lemma buildUrl_params_witness :
  endpoint_ok (search_endpoint "breaking bad") = true ∧
  Url.params_get "language" (sent_params (tmdb_request (mkConfig (Some "k3y") None) (search_endpoint "breaking bad"))) = Some LANG ∧
  Url.params_get "api_key" (sent_params (tmdb_request (mkConfig (Some "k3y") None) (search_endpoint "breaking bad"))) =
    sent_key (mkConfig (Some "k3y") None) ∧
  ∀ n, n ≠ "language"%string → n ≠ "api_key"%string →
    Url.params_get n (sent_params (tmdb_request (mkConfig (Some "k3y") None) (search_endpoint "breaking bad"))) =
    Url.params_get n (Url.url_search (Url.url_parse (TMDB +:+ search_endpoint "breaking bad"))).
Proof.
  assert (H : endpoint_ok (search_endpoint "breaking bad") = true) by (vm_compute; reflexivity).
  split; [exact H | exact (buildUrl_params _ _ H)].
Defined.

(** A non-blank search makes exactly one upstream request (with a
    credential configured), and the upstream server reads from its URL the
    trimmed query, then the language, then the key when it is sent in the
    URL. *)
Lemma searchShows_sent cfg q net :
  JsString.isBlank q = false → has_credential cfg = true →
  calls net (searchShows cfg q) = [tmdb_request cfg (search_endpoint q)] ∧
  sent_params (tmdb_request cfg (search_endpoint q)) =
  [("query", JsString.trim q); ("language", LANG)]%string ++ key_param cfg.
Proof.
  intros Hq Hc. destruct (search_endpoint_search q) as [Hs Hok]. split.
  - unfold calls, searchShows. by rewrite Hq, run_tmdbFetch, Hc.
  - rewrite buildUrl_sent, Hs by done. unfold key_param.
    destruct (V4_TOKEN cfg), (V3_KEY cfg) as [k|]; try destruct (JsString.truthy k); done.
Qed.

(** A blank search query (empty or whitespace only) resolves to
    [{ results: [] }] at once, without any upstream request. *)
Theorem searchShows_blank cfg q net :
  JsString.isBlank q = true → run net (searchShows cfg q) = ([], inr (results_obj [])).
Proof. intros Hq. unfold searchShows. by rewrite Hq. Qed.

Lemma searchShows_blank_witness :
  JsString.isBlank " 	 " = true ∧
  run (λ _, NetworkError) (searchShows (mkConfig None None) " 	 ") = ([], inr (results_obj [])).
Proof. split; [reflexivity | apply searchShows_blank; reflexivity]. Defined.

(** What a list operation ends with: [tmdbFetch]'s run, then
    [d.results], which throws a [TypeError] on a [null] body. *)
Definition list_run (cfg : Config) (ep : string) (net : Request → FetchResult)
    : list Request * (exn + option Json) :=
  if has_credential cfg then
    ([tmdb_request cfg ep],
     match answer_outcome (net (tmdb_request cfg ep)) with
     | inl e => inl e
     | inr JNull => inl TypeError
     | inr d => inr (jget d "results")
     end)
  else ([], inl (ErrorMsg credential_missing)).

Lemma then_results_run cfg ep net :
  run net (d ← tmdbFetch cfg ep; then_results d) = list_run cfg ep net.
Proof.
  rewrite fetch_mbind, run_bind, run_tmdbFetch. unfold list_run.
  destruct (has_credential cfg); [|done].
  destruct (answer_outcome _) as [e|[]]; done.
Qed.

(** C11: Each list operation ([getTrendingShows], [getTopRatedShows],
    [getAiringTodayShows]) makes no request and throws the credential
    error when no credential is configured; otherwise it makes the one
    request of its endpoint and ends with the [results] property of the
    body, or with the error of [tmdbFetch], or with a [TypeError] on a
    [null] body. *)
Theorem list_operations_run cfg net :
  run net (getTrendingShows cfg) = list_run cfg "/trending/tv/week" net ∧
  run net (getTopRatedShows cfg) = list_run cfg "/tv/top_rated" net ∧
  run net (getAiringTodayShows cfg) = list_run cfg "/tv/airing_today" net.
Proof. split; [|split]; apply then_results_run. Qed.

(** C9: An empty [TMDB_ACCESS_TOKEN] next to a set key passes the guard
    of [tmdbFetch] (the key is truthy), yet the request carries no
    credential: [buildUrl] adds [api_key] only when the token is unset
    ([== null]), and the header is sent only for a truthy token. *)
Theorem empty_token_sends_no_credential cfg ep k :
  endpoint_ok ep = true → V4_TOKEN cfg = Some ""%string → V3_KEY cfg = Some k →
  JsString.truthy k = true →
  has_credential cfg = true ∧ sends_credential (tmdb_request cfg ep) = false.
Proof.
  intros Hep Ht Hk Hkt. unfold has_credential, env_truthy. rewrite Hk, Hkt. split; [done|].
  unfold sends_credential. rewrite buildUrl_sent, Ht by done. cbn zeta.
  unfold tmdb_request, auth_headers. cbn [req_headers]. rewrite Ht. cbn.
  rewrite Url.params_get_set_ne, endpoint_ok_api_key by done. done.
Qed.

Lemma empty_token_sends_no_credential_witness :
  has_credential (mkConfig (Some "k3y") (Some "")) = true ∧
  sends_credential (tmdb_request (mkConfig (Some "k3y") (Some "")) "/tv/top_rated") = false.
Proof.
  apply (empty_token_sends_no_credential _ _ "k3y"); [vm_compute; reflexivity | reflexivity ..].
Defined.

End Tmdb.
