(* ===== verification/SearchRoute.v ===== *)
(** * The passthrough search endpoint, [src/app/api/search/route.ts]

    [GET] parses the request URL, reads [q], trims it, answers an empty
    list for a blank query and otherwise relays [searchShows] with status
    200, or a fixed error with status 500 when it throws.
    [NextResponse.json(body, { status })] is the record [HttpResponse].

    The interface [SearchEndpoint] states what the client may rely on of a
    search handler: a blank query is answered at once with an empty list,
    the handler never throws, and a failure is the fixed 500 error.  [GET]
    is an instance; the client's theorems in [SearchBar] are proved against
    the interface. *)

From S2P Require Import Prelude JsString Url Json Fetch Tmdb.
Import Json Fetch.

Module SearchRoute.

Record HttpResponse := mkHttp {
  http_status : Z;
  http_body : Json
}.

Definition failure_message : string := "Failed to search shows".

(** [new URL(request.url).searchParams.get("q")?.trim() || ""]. *)
Definition query_param (request_url : string) : string :=
  match Url.params_get "q" (Url.url_search (Url.url_parse request_url)) with
  | Some s => JsString.trim s
  | None => ""
  end.

(** [GET(request)]. *)
Definition GET (cfg : Tmdb.Config) (request_url : string) : FetchM HttpResponse :=
  let query := query_param request_url in
  if String.eqb query "" then FRet (mkHttp 200 (results_obj []))
  else fcatch (data ← Tmdb.searchShows cfg query; FRet (mkHttp 200 data))
              (λ _, FRet (mkHttp 500 (error_obj failure_message))).

(** ** The interface the client relies on *)

(** The reply a handler gives against a network. *)
Definition reply {A} (net : Request → FetchResult) (m : FetchM A) : option A :=
  match outcome net m with inr r => Some r | inl _ => None end.

Class SearchEndpoint (handler : string → FetchM HttpResponse) := {
  (** a blank or absent [q] is answered without an upstream call *)
  endpoint_blank : ∀ url net,
    query_param url = ""%string →
    run net (handler url) = ([], inr (mkHttp 200 (results_obj [])));
  (** the handler answers: it never throws *)
  endpoint_total : ∀ url net, is_Some (reply net (handler url));
  (** a reply is a 200, or the fixed 500 error *)
  endpoint_status : ∀ url net r,
    reply net (handler url) = Some r →
    http_status r = 200%Z ∨ r = mkHttp 500 (error_obj failure_message)
}.

(** ** Lemmas *)

Lemma GET_blank cfg url :
  query_param url = ""%string → GET cfg url = FRet (mkHttp 200 (results_obj [])).
Proof. unfold GET. by intros ->. Qed.

(** The route's reply to one upstream answer. *)
Definition route_reply (a : exn + Json) : HttpResponse :=
  match a with
  | inr data => mkHttp 200 data
  | inl _ => mkHttp 500 (error_obj failure_message)
  end.

Lemma query_param_trimmed url : JsString.trim (query_param url) = query_param url.
Proof.
  unfold query_param. destruct (Url.params_get _ _); [apply JsString.trim_idem | done].
Qed.

Lemma query_param_nonblank url :
  query_param url ≠ ""%string → JsString.isBlank (query_param url) = false.
Proof.
  intros H. unfold JsString.isBlank. rewrite query_param_trimmed.
  by destruct (String.eqb_spec (query_param url) "").
Qed.

(** ** Theorems *)

(** [GET] refines its contract: a blank query is answered with an empty
    list and no upstream call; otherwise the route makes the one request of
    [tmdbFetch] for the trimmed query when a credential is configured, and
    relays the upstream body with 200 or answers the fixed 500 error; with
    no credential it answers the 500 error without a call. *)
Lemma run_GET cfg url net :
  run net (GET cfg url) =
  if String.eqb (query_param url) "" then ([], inr (mkHttp 200 (results_obj [])))
  else if Tmdb.has_credential cfg then
    let rq := Tmdb.tmdb_request cfg (Tmdb.search_endpoint (query_param url)) in
    ([rq], inr (route_reply (Tmdb.answer_outcome (net rq))))
  else ([], inr (mkHttp 500 (error_obj failure_message))).
Proof.
  unfold GET. destruct (String.eqb_spec (query_param url) "") as [|Hq]; [done|].
  rewrite run_catch, fetch_mbind, run_bind. unfold Tmdb.searchShows.
  rewrite query_param_nonblank, Tmdb.run_tmdbFetch by done.
  destruct (Tmdb.has_credential cfg); [|done].
  by destruct (Tmdb.answer_outcome _).
Qed.

Lemma GET_total cfg url net : is_Some (reply net (GET cfg url)).
Proof.
  unfold reply, outcome. rewrite run_GET.
  destruct (String.eqb _ _), (Tmdb.has_credential cfg); done.
Qed.

Lemma GET_status cfg url net r :
  reply net (GET cfg url) = Some r →
  http_status r = 200%Z ∨ r = mkHttp 500 (error_obj failure_message).
Proof.
  unfold reply, outcome. rewrite run_GET.
  destruct (String.eqb _ _), (Tmdb.has_credential cfg); simpl; intros [= <-]; auto.
  destruct (Tmdb.answer_outcome _); simpl; auto.
Qed.

(** C3: [GET] implements the contract of the search endpoint for every
    configuration, request URL and network: a blank or absent [q] is
    answered [{ results: [] }] with status 200 and no upstream call; the
    route always answers (the [catch] takes every exception); and its
    answer is a 200 or the fixed 500 error [{ error: "Failed to search
    shows" }]. *)
Theorem GET_contract cfg url net :
  (query_param url = ""%string → run net (GET cfg url) = ([], inr (mkHttp 200 (results_obj [])))) ∧
  is_Some (reply net (GET cfg url)) ∧
  (∀ r, reply net (GET cfg url) = Some r →
        http_status r = 200%Z ∨ r = mkHttp 500 (error_obj failure_message)).
Proof.
  split; [intros H; by rewrite GET_blank | split; [apply GET_total | apply GET_status]].
Qed.

(** C10: When the query is not blank and a credential is configured, an
    upstream failure (a network error, a status outside [200, 299], or a
    body that is not JSON) makes the route answer the 500 error after
    exactly the one upstream request for the trimmed query. *)
Theorem GET_upstream_failure cfg url net e :
  query_param url ≠ ""%string → Tmdb.has_credential cfg = true →
  Tmdb.answer_outcome (net (Tmdb.tmdb_request cfg (Tmdb.search_endpoint (query_param url)))) = inl e →
  run net (GET cfg url) =
    ([Tmdb.tmdb_request cfg (Tmdb.search_endpoint (query_param url))],
     inr (mkHttp 500 (error_obj failure_message))).
Proof.
  intros Hq Hc He. rewrite run_GET, Hc. cbn zeta. rewrite He.
  by destruct (String.eqb_spec (query_param url) "").
Qed.

Lemma GET_upstream_failure_witness :
  let cfg := Tmdb.mkConfig (Some "k3y"%string) None in
  let url := "http://localhost:3000/api/search?q=dark"%string in
  let net := λ _ : Request, Delivered (mkResponse 503 "Service Unavailable" None) in
  run net (GET cfg url) =
    ([Tmdb.tmdb_request cfg (Tmdb.search_endpoint (query_param url))],
     inr (mkHttp 500 (error_obj failure_message))).
Proof.
  intros cfg url net.
  apply (GET_upstream_failure cfg url net (ErrorMsg "TMDB 503")); vm_compute; [discriminate | reflexivity ..].
Defined.

(** [GET] discharges the interface its client is proved against. *)
#[export] Instance GET_endpoint cfg : SearchEndpoint (GET cfg).
Proof.
  split; [| apply GET_total | apply GET_status].
  intros url net H. by rewrite GET_blank.
Qed.

End SearchRoute.
