(* ===== verification/SearchBar.v ===== *)
(** * The search box, [src/components/SearchBar.tsx]

    The component's state is its four [useState] cells ([query], [results],
    [isLoading], [isOpen]) with the state of [useDebounce(query, 500)]: the
    debounced value and its pending timer.  The hook lives outside [src/]
    ([@/hooks/useDebounce]); it is modelled from the spec (4.1) as the usual
    hook: every change of the value clears the pending timer and starts a
    500 ms one that sets the debounced value.  Time is explicit ([now], in
    ms), and so are the [fetch] calls still in flight ([pending], in issue
    order), whose answers arrive in any order.

    [step] is one event: a keystroke, focus, an outside click, the clear
    button, time passing, the answer of a pending request, a click on a
    result, the form's submission.  It returns the new state and what the
    component does outside itself: a [fetch] of [/api/search], a call of
    [onClose], a navigation.  An event of an element that is not rendered
    (the clear button of an empty query, a result that is not listed, the
    answer of a request that is not pending) is refused ([None]).  React's
    bail-out is kept: setting a state cell to its current value does not
    re-run the effects that depend on it.

    The dropdown's content is [view], from [SearchResults.tsx]. *)

From S2P Require Import Prelude JsString Url Json Fetch Tmdb SearchRoute.
Import Json Fetch.

Module SearchBar.

(** ** Data *)

Definition DEBOUNCE_MS : Z := 500%Z.

(** The answer to a [fetch] of [/api/search]: rejected, or a response whose
    body is [None] when it is not JSON. *)
Inductive ClientResult : Type :=
| NetFail
| Body (b : option Json).

Inductive Event : Type :=
| Type_ (value : string)           (** [onChange] with [e.target.value] *)
| Focus                            (** [onFocus] of the input *)
| OutsideClick                     (** [mousedown] outside the component *)
| ClearClick                       (** the X button *)
| Tick (dt : Z)                    (** [dt] ms pass (a negative [dt] is none) *)
| Answer (i : nat) (r : ClientResult)  (** the [i]-th request in flight settles *)
| ResultClick (i : nat)            (** the button of the [i]-th listed result *)
| Submit.                          (** the form's [onSubmit] *)

Inductive Output : Type :=
| FetchSearch (url : string)        (** [fetch(`/api/search?q=...`)] *)
| CallOnClose                       (** [onClose?.()] *)
| NavigateTv (id : option Json).    (** [router.push(`/tv/${showId}`)] *)

Record State := mkState {
  query : string;
  results : list Json;
  isLoading : bool;
  isOpen : bool;
  debounced : string;               (** [useDebounce]'s value *)
  timer : option (Z * string);      (** its pending timer: deadline, value *)
  now : Z;
  pending : list string             (** queries of the requests in flight *)
}.

(** The first render: [useDebounce]'s mount effect has started a timer for
    the initial value. *)
Definition init : State :=
  {| query := ""; results := []; isLoading := false; isOpen := false;
     debounced := ""; timer := Some (DEBOUNCE_MS, ""%string); now := 0%Z; pending := [] |}.

(** ** Operations *)

(** The state setters of the [useState] cells ([setResults], ...) and of
    the hook's cells. *)
Definition set_query v s := mkState v (results s) (isLoading s) (isOpen s) (debounced s) (timer s) (now s) (pending s).
Definition setResults v s := mkState (query s) v (isLoading s) (isOpen s) (debounced s) (timer s) (now s) (pending s).
Definition setIsLoading v s := mkState (query s) (results s) v (isOpen s) (debounced s) (timer s) (now s) (pending s).
Definition setIsOpen v s := mkState (query s) (results s) (isLoading s) v (debounced s) (timer s) (now s) (pending s).
Definition setDebouncedValue v s := mkState (query s) (results s) (isLoading s) (isOpen s) v (timer s) (now s) (pending s).
Definition set_timer v s := mkState (query s) (results s) (isLoading s) (isOpen s) (debounced s) v (now s) (pending s).
Definition set_now v s := mkState (query s) (results s) (isLoading s) (isOpen s) (debounced s) (timer s) v (pending s).
Definition set_pending v s := mkState (query s) (results s) (isLoading s) (isOpen s) (debounced s) (timer s) (now s) v.


(** [`/api/search?q=${encodeURIComponent(searchQuery)}`]. *)
Definition search_url (q : string) : string := "/api/search?q=" +:+ Url.encodeURIComponent q.

(** [setQuery(v)]: when the value changes, [useDebounce]'s effect clears
    the pending timer and starts a new one. *)
Definition setQuery (v : string) (s : State) : State :=
  if String.eqb v (query s) then s
  else set_timer (Some ((now s + DEBOUNCE_MS)%Z, v)) (set_query v s).

(** [performSearch(searchQuery)], up to the [await]: the request leaves. *)
Definition performSearch (v : string) (s : State) : State * list Output :=
  (set_pending (pending s ++ [v]) (setIsLoading true s), [FetchSearch (search_url v)]).

(** [setDebouncedValue(v)] and the effect on [debouncedQuery]. *)
Definition settle (v : string) (s : State) : State * list Output :=
  if String.eqb v (debounced s) then (s, [])
  else
    let s := setDebouncedValue v s in
    if negb (JsString.isBlank v) then performSearch v s
    else (setIsLoading false (setResults [] s), []).

(** [data.results?.slice(0, 8) || []], with what the [catch] turns a
    [TypeError] into: [null.results] and a [slice] that is not a function
    throw, a property of a non-object is [undefined].  A string's [slice]
    is a string; it is held as its list of one-byte strings, which has the
    same [length] and whose [[0].id] is also [undefined]. *)
Definition results_of_data (d : Json) : list Json :=
  match d with
  | JObj _ =>
      match jget d "results" with
      | Some (JArr l) => take 8 l
      | Some (JStr str) => take 8 ((λ c, JStr (String c "")) <$> String.list_ascii_of_string str)
      | _ => []
      end
  | _ => []
  end.

(** The rest of [performSearch]: the results set by the [try] or the
    [catch] ([fetch] rejected, or [res.json()] threw). *)
Definition results_of (r : ClientResult) : list Json :=
  match r with
  | NetFail => []
  | Body None => []
  | Body (Some d) => results_of_data d
  end.

(** Whether the dropdown is rendered. *)
Definition dropdown_open (s : State) : bool :=
  isOpen s && (JsString.truthy (query s) || nonempty (results s)).

(** What [SearchResults] shows. *)
Inductive View : Type :=
| Hidden
| Spinner
| StartTyping
| NoShows (q : string)
| ResultList (l : list Json).

Definition view (s : State) : View :=
  if negb (dropdown_open s) then Hidden
  else if isLoading s then Spinner
  else if JsString.isBlank (query s) then StartTyping
  else if negb (nonempty (results s)) then NoShows (query s)
  else ResultList (results s).

(** [handleResultClick(showId)]. *)
Definition handleResultClick (id : option Json) (s : State) : State * list Output :=
  (setQuery "" (setIsOpen false s), [CallOnClose; NavigateTv id]).

(** The [i]-th result button, when the list is shown. *)
Definition listed (s : State) (i : nat) : option Json :=
  match view s with ResultList l => l !! i | _ => None end.

(** Time passes; the debounce timer fires when its deadline is reached. *)
Definition tick (dt : Z) (s : State) : State * list Output :=
  let s := set_now (now s + Z.max 0 dt)%Z s in
  match timer s with
  | Some (d, v) => if (d <=? now s)%Z then settle v (set_timer None s) else (s, [])
  | None => (s, [])
  end.

Definition step (s : State) (e : Event) : option (State * list Output) :=
  match e with
  | Type_ v => Some (setIsOpen true (setQuery v s), [])
  | Focus => Some (setIsOpen true s, [])
  | OutsideClick => Some (setIsOpen false s, [])
  | ClearClick =>
      if JsString.truthy (query s) then
        Some (setIsOpen false (setResults [] (setQuery "" s)), [])
      else None
  | Tick dt => Some (tick dt s)
  | Answer i r =>
      if bool_decide (i < length (pending s)) then
        Some (setIsLoading false (setResults (results_of r) (set_pending (delete i (pending s)) s)), [])
      else None
  | ResultClick i =>
      match listed s i with
      | Some r => Some (handleResultClick (jget r "id") s)
      | None => None
      end
  | Submit =>
      match results s with
      | r :: _ => Some (handleResultClick (jget r "id") s)
      | [] => Some (s, [])
      end
  end.

(** ** Runs *)

(** The states the component reaches from its first render. *)
Inductive reachable : State → Prop :=
| reach_init : reachable init
| reach_step s e s' o : reachable s → step s e = Some (s', o) → reachable s'.

(** A sequence of events, with everything the component did. *)
Fixpoint run_events (s : State) (es : list Event) : option (State * list Output) :=
  match es with
  | [] => Some (s, [])
  | e :: es' =>
      match step s e with
      | Some (s', o) =>
          match run_events s' es' with
          | Some (s'', o') => Some (s'', o ++ o')
          | None => None
          end
      | None => None
      end
  end.

(** ** The invariant *)

(** At most 8 results; [isLoading] only while a request is in flight; the
    queries in flight are not blank. *)
Definition inv_core (s : State) : Prop :=
  length (results s) ≤ 8 ∧
  (isLoading s = true → pending s ≠ []) ∧
  Forall (λ v, JsString.isBlank v = false) (pending s).

(** With the debounce: a pending timer carries the current query and fires
    within 500 ms; without one, the debounced value has caught up with the
    query. *)
Definition inv (s : State) : Prop :=
  inv_core s ∧
  match timer s with
  | Some (d, v) => v = query s ∧ (now s < d ≤ now s + DEBOUNCE_MS)%Z
  | None => debounced s = query s
  end.

(** ** Lemmas *)

Lemma results_of_data_length d : length (results_of_data d) ≤ 8.
Proof.
  unfold results_of_data.
  destruct d; try (simpl; lia). destruct (jget _ _) as [[]|]; simpl; try lia;
    apply take_length_le.
Qed.

Lemma results_of_length r : length (results_of r) ≤ 8.
Proof. destruct r as [|[d|]]; simpl; [lia | apply results_of_data_length | lia]. Qed.

#[local] Hint Resolve results_of_length : vx.

(** [setQuery] changes the query (and the debounce timer) only. *)
Lemma setQuery_fields v s :
  query (setQuery v s) = v ∧ isOpen (setQuery v s) = isOpen s ∧
  results (setQuery v s) = results s ∧ isLoading (setQuery v s) = isLoading s ∧
  pending (setQuery v s) = pending s ∧ debounced (setQuery v s) = debounced s.
Proof. unfold setQuery. destruct (String.eqb_spec v (query s)); by repeat split. Qed.

Lemma setQuery_inv v s : inv s → inv (setQuery v s).
Proof.
  unfold setQuery. destruct (String.eqb_spec v (query s)); [done|].
  intros [Hc _]. split; [done|]. simpl. split; [done|]. unfold DEBOUNCE_MS. lia.
Qed.

Lemma setIsOpen_inv b s : inv s → inv (setIsOpen b s).
Proof. done. Qed.

Lemma settle_inv s :
  inv_core s → timer s = None → inv (settle (query s) s).1.
Proof.
  intros (H1 & H2 & H3) Ht. unfold settle.
  destruct (String.eqb_spec (query s) (debounced s)) as [E|E]; simpl.
  - unfold inv. rewrite Ht. by repeat split.
  - destruct (JsString.isBlank (query s)) eqn:Hb; simpl.
    + unfold inv, inv_core; simpl. rewrite Ht. repeat split; auto; lia.
    + unfold inv, inv_core; simpl. rewrite Ht. repeat split; auto.
      * intros _ Hp. by apply app_nil in Hp as [_ ?].
      * apply Forall_app. split; [done|]. by constructor.
Qed.

Lemma tick_inv dt s : inv s → inv (tick dt s).1.
Proof.
  intros [Hc Ht]. unfold tick. simpl.
  destruct (timer s) as [[d v]|] eqn:E.
  - destruct Ht as [-> [Hd1 Hd2]].
    destruct (Z.leb_spec d (now s + Z.max 0 dt)) as [Hle|Hgt].
    + by apply (settle_inv (set_timer None (set_now _ s))).
    + split; [done|]. simpl. rewrite E. unfold DEBOUNCE_MS in *. split; [done | lia].
  - split; [done|]. simpl. by rewrite E.
Qed.

Lemma answer_inv i r s :
  inv s → inv (setIsLoading false (setResults (results_of r) (set_pending (delete i (pending s)) s))).
Proof.
  intros [(H1 & H2 & H3) Ht]. split; [|done].
  split; [apply results_of_length|]. split; [done|]. simpl. by apply Forall_delete.
Qed.

Lemma handleResultClick_inv id s : inv s → inv (handleResultClick id s).1.
Proof. intros Hs. by apply setQuery_inv, setIsOpen_inv. Qed.

(** Every step keeps the invariant. *)
Lemma step_inv s e s' o : inv s → step s e = Some (s', o) → inv s'.
Proof.
  intros Hs. destruct e; simpl.
  - intros [= <- _]. by apply setIsOpen_inv, setQuery_inv.
  - intros [= <- _]. by apply setIsOpen_inv.
  - intros [= <- _]. by apply setIsOpen_inv.
  - destruct (JsString.truthy (query s)); [|done]. intros [= <- _].
    apply setIsOpen_inv. apply (setQuery_inv "") in Hs as [[H1 H2] Ht].
    split; [|done]. split; simpl; [lia|done].
  - intros [-> _]%Some_pair_inv. by apply tick_inv.
  - case_bool_decide; [|done]. intros [= <- _]. by apply answer_inv.
  - destruct (listed s i); [|done]. intros [-> _]%Some_pair_inv. by apply handleResultClick_inv.
  - destruct (results s) as [|r l]; [by intros [= <- _]|].
    intros [-> _]%Some_pair_inv. by apply handleResultClick_inv.
Qed.

Lemma init_inv : inv init.
Proof.
  split; [split; [simpl; lia | split; [discriminate | constructor]]|].
  simpl. split; [done|]. unfold DEBOUNCE_MS. lia.
Qed.

(** ** Theorems *)

(** C1: Every reachable state of the search box satisfies the invariant: at
    most 8 results are held, [isLoading] is set only while a request is in
    flight, no blank query is in flight, and the debounce timer always
    carries the current query. *)
Theorem reachable_inv s : reachable s → inv s.
Proof.
  induction 1 as [|s e s' o _ IH Hst]; [apply init_inv|].
  by eapply step_inv.
Qed.

(** The state after the first keystroke. *)
Definition typed_a : State := setIsOpen true (setQuery "a" init).

Lemma reachable_inv_witness : reachable typed_a ∧ inv typed_a.
Proof.
  assert (H : reachable typed_a) by (eapply (reach_step init (Type_ "a")); [constructor | reflexivity]).
  split; [exact H | exact (reachable_inv typed_a H)].
Defined.

(** ** Debounce *)

(** Keystrokes that each change the query. *)
Fixpoint changing_keys (q : string) (ks : list (string * Z)) : Prop :=
  match ks with
  | [] => True
  | (k, _) :: ks' => k ≠ q ∧ changing_keys k ks'
  end.

(** Each keystroke followed by a pause. *)
Fixpoint burst (ks : list (string * Z)) : list Event :=
  match ks with
  | [] => []
  | (k, dt) :: ks' => Type_ k :: Tick dt :: burst ks'
  end.

Lemma type_changed s k :
  k ≠ query s →
  step s (Type_ k) = Some (setIsOpen true (set_timer (Some ((now s + DEBOUNCE_MS)%Z, k)) (set_query k s)), []).
Proof. intros Hk. simpl. unfold setQuery. by destruct (String.eqb_spec k (query s)). Qed.

Lemma tick_quiet s dt d v :
  timer s = Some (d, v) → (now s + Z.max 0 dt < d)%Z →
  step s (Tick dt) = Some (set_now (now s + Z.max 0 dt)%Z s, []).
Proof.
  intros Ht Hlt. cbn [step]. unfold tick. cbn [timer set_now now]. rewrite Ht.
  destruct (Z.leb_spec d (now s + Z.max 0 dt)); [lia | done].
Qed.

(** C6: While the user keeps typing, each keystroke changing the query and
    followed by less than 500 ms of quiet, the search box sends no
    request. *)
Theorem typing_burst_no_request s ks :
  changing_keys (query s) ks → Forall (λ p, (p.2 < DEBOUNCE_MS)%Z) ks →
  ∃ s', run_events s (burst ks) = Some (s', []).
Proof.
  revert s. induction ks as [|[k dt] ks IH]; intros s Hk Hdt; [by exists s|].
  destruct Hk as [Hk Hks]. apply Forall_cons in Hdt as [Hdt Hdts]. simpl in Hdt.
  cbn [burst run_events]. rewrite type_changed by done.
  rewrite (tick_quiet _ dt (now s + DEBOUNCE_MS) k) by (done || (simpl; unfold DEBOUNCE_MS in *; lia)).
  match goal with |- context [run_events ?s1 (burst ks)] =>
    destruct (IH s1) as [s' ->]; [done | done |] end.
  by exists s'.
Qed.

Lemma typing_burst_no_request_witness :
  ∃ s', run_events init (burst [("d", 120); ("da", 80); ("dar", 499); ("dark", 10)]%Z) = Some (s', []).
Proof.
  apply typing_burst_no_request; [vm_compute; repeat split; discriminate | repeat constructor].
Defined.

(** C7: When the debounce timer of a non-blank value that differs from the
    debounced one is due, the next tick sends exactly one request, for that
    value, marks it in flight and turns the spinner on. *)
Theorem tick_fires_search s d v dt :
  timer s = Some (d, v) → (d <= now s + dt)%Z → v ≠ debounced s → JsString.isBlank v = false →
  ∃ s', step s (Tick dt) = Some (s', [FetchSearch (search_url v)]) ∧
        pending s' = pending s ++ [v] ∧ isLoading s' = true ∧ debounced s' = v ∧ timer s' = None.
Proof.
  intros Ht Hd Hv Hb. cbn [step]. unfold tick. simpl. rewrite Ht.
  destruct (Z.leb_spec d (now s + Z.max 0 dt)) as [_|Hgt]; [|lia].
  unfold settle. simpl. destruct (String.eqb_spec v (debounced s)); [done|]. rewrite Hb.
  by eexists.
Qed.

Lemma tick_fires_search_witness :
  ∃ s', step typed_a (Tick 500) = Some (s', [FetchSearch (search_url "a")]) ∧
        pending s' = pending typed_a ++ ["a"%string] ∧ isLoading s' = true ∧
        debounced s' = "a"%string ∧ timer s' = None.
Proof. apply (tick_fires_search typed_a 500 "a" 500); vm_compute; [reflexivity | discriminate | discriminate | reflexivity]. Defined.

(** C5: A request leaves only when the debounce timer fires, and it is the one
    request of that step, for the current query, which is not blank and
    differs from the previously debounced value. *)
Theorem step_fetch_settled s e s' o u :
  inv s → step s e = Some (s', o) → FetchSearch u ∈ o →
  ∃ dt d, e = Tick dt ∧ timer s = Some (d, query s) ∧ (d <= now s + Z.max 0 dt)%Z ∧
          o = [FetchSearch u] ∧ u = search_url (query s) ∧
          JsString.isBlank (query s) = false ∧ query s ≠ debounced s.
Proof.
  intros [_ Ht] Hst Hu. destruct e as [v| | | |dt|i r|i|]; simpl in Hst;
    try (injection Hst as <- <-; by apply elem_of_nil in Hu);
    try (destruct (JsString.truthy _); [injection Hst as <- <-|done]; by apply elem_of_nil in Hu);
    try (case_bool_decide; [injection Hst as <- <-|done]; by apply elem_of_nil in Hu).
  - exists dt. unfold tick in Hst. simpl in Hst. destruct (timer s) as [[d v]|]; last first.
    { injection Hst as <- <-. by apply elem_of_nil in Hu. }
    destruct Ht as [-> _]. exists d.
    destruct (Z.leb_spec d (now s + Z.max 0 dt)) as [Hle|_]; last first.
    { injection Hst as <- <-. by apply elem_of_nil in Hu. }
    unfold settle in Hst. simpl in Hst.
    destruct (String.eqb_spec (query s) (debounced s)) as [|Hne].
    { injection Hst as <- <-. by apply elem_of_nil in Hu. }
    destruct (JsString.isBlank (query s)); simpl in Hst; injection Hst as <- <-.
    + by apply elem_of_nil in Hu.
    + apply list_elem_of_singleton in Hu as [= ->]. by repeat split.
  - destruct (listed s i); [|done]. apply Some_pair_inv in Hst as [_ ->].
    simpl in Hu. set_solver.
  - destruct (results s); [injection Hst as <- <-; by apply elem_of_nil in Hu|].
    apply Some_pair_inv in Hst as [_ ->]. simpl in Hu. set_solver.
Qed.

Lemma step_fetch_settled_witness :
  let r := default (init, []) (step typed_a (Tick 500)) in
  ∃ dt d, Tick 500 = Tick dt ∧ timer typed_a = Some (d, query typed_a) ∧
          (d <= now typed_a + Z.max 0 dt)%Z ∧ r.2 = [FetchSearch (search_url "a")] ∧
          search_url "a" = search_url (query typed_a) ∧
          JsString.isBlank (query typed_a) = false ∧ query typed_a ≠ debounced typed_a.
Proof.
  intros r. apply (step_fetch_settled typed_a (Tick 500) r.1 r.2).
  - apply (step_inv init (Type_ "a") typed_a []); [apply init_inv | reflexivity].
  - vm_compute. reflexivity.
  - vm_compute. constructor.
Defined.

(** ** Answers *)

(** What the client keeps of a reply of the search endpoint. *)
Definition client_result (r : SearchRoute.HttpResponse) : ClientResult :=
  Body (Some (SearchRoute.http_body r)).

(** C13: Against any search endpoint, when a request is in flight, its
    failure (a reply that is not a 200, a rejected [fetch], or a body that
    is not JSON) empties the results of the search box and turns the
    spinner off, whatever the box held and whatever the query. *)
Theorem failed_search_clears handler `{SearchRoute.SearchEndpoint handler} url net resp s i :
  SearchRoute.reply net (handler url) = Some resp → SearchRoute.http_status resp ≠ 200%Z →
  i < length (pending s) →
  ∀ r, r ∈ [client_result resp; NetFail; Body None] →
  ∃ s', step s (Answer i r) = Some (s', []) ∧ results s' = [] ∧ isLoading s' = false ∧
        query s' = query s ∧ pending s' = delete i (pending s).
Proof.
  intros Hr Hs Hi r Hin. simpl. rewrite bool_decide_true by done.
  eexists; split; [reflexivity|]. simpl. split; [|done].
  destruct (SearchRoute.endpoint_status url net resp Hr) as [?| ->]; [congruence|].
  rewrite !elem_of_cons, elem_of_nil in Hin. by destruct Hin as [->|[->|[->|[]]]].
Qed.

(** The results the client keeps of a 200 reply whose body is
    [{ results: l }]: the first 8 of [l]. *)
Lemma results_of_list l : results_of (Body (Some (results_obj l))) = take 8 l.
Proof. done. Qed.

(** ** Ordering: a stale answer wins *)

Definition show (n : Z) : Json := JObj [("id"%string, JNum (QArith_base.inject_Z n))].

(** C12: Answers are applied in the order they arrive, with no check of
    the query they were sent for: when a later request [j] is answered
    before an earlier one [i], the spinner goes off while [i] is still in
    flight, and [i]'s answer then replaces the results, whatever the
    current query. *)
Theorem stale_answer_wins s i j ra rb :
  i < j < length (pending s) →
  ∃ s1 s2, step s (Answer j rb) = Some (s1, []) ∧ isLoading s1 = false ∧
           pending s1 !! i = pending s !! i ∧
           step s1 (Answer i ra) = Some (s2, []) ∧ results s2 = results_of ra ∧ query s2 = query s.
Proof.
  intros [Hij Hj]. simpl. rewrite bool_decide_true by done.
  do 2 eexists. split; [reflexivity|]. simpl. split; [done|].
  split; [by apply list_lookup_delete_lt|].
  rewrite bool_decide_true by (rewrite length_delete by (apply lookup_lt_is_Some; lia); lia).
  by split.
Qed.

(** The user types [a], waits, types [ab], waits: both requests leave. *)
Definition two_in_flight : State :=
  default init (fst <$> run_events init [Type_ "a"; Tick 500; Type_ "ab"; Tick 500]).

Lemma stale_answer_wins_witness :
  0 < 1 < length (pending two_in_flight) ∧
  ∃ s1 s2, step two_in_flight (Answer 1 (Body (Some (results_obj [show 2])))) = Some (s1, []) ∧
           isLoading s1 = false ∧ pending s1 !! 0 = pending two_in_flight !! 0 ∧
           step s1 (Answer 0 (Body (Some (results_obj [show 1])))) = Some (s2, []) ∧
           results s2 = results_of (Body (Some (results_obj [show 1]))) ∧ query s2 = query two_in_flight.
Proof.
  split; [vm_compute; lia|].
  apply (stale_answer_wins two_in_flight 0 1); vm_compute; lia.
Defined.

Lemma failed_search_clears_witness :
  let url := "http://localhost:3000/api/search?q=dark"%string in
  let net := λ _ : Request, Delivered (mkResponse 401 "Unauthorized" None) in
  ∃ s', step two_in_flight (Answer 0 NetFail) = Some (s', []) ∧ results s' = [] ∧ isLoading s' = false ∧
        query s' = query two_in_flight ∧ pending s' = delete 0 (pending two_in_flight).
Proof.
  intros url net.
  apply (@failed_search_clears (SearchRoute.GET (Tmdb.mkConfig (Some "k3y"%string) None))
           (SearchRoute.GET_endpoint _) url net (SearchRoute.mkHttp 500 (error_obj SearchRoute.failure_message)));
    [vm_compute; reflexivity | cbn; lia | vm_compute; lia | set_solver].
Defined.

(** ** The examples of the spec *)

(** Typing [the cr] and pausing 500 ms sends exactly one request, to
    [/api/search?q=the%20cr]; clearing the input before the value settles
    sends none. *)
Theorem spec_search_examples :
  snd <$> run_events init [Type_ "the cr"; Tick 500] =
    Some [FetchSearch "/api/search?q=the%20cr"] ∧
  snd <$> run_events init [Type_ "the cr"; Tick 300; ClearClick; Tick 500; Tick 500] = Some [].
Proof. split; vm_compute; reflexivity. Qed.

(** ** Selecting a result *)

(** Submitting the form selects the first result held: the [onClose]
    callback, a navigation to its id, an empty query and a closed panel;
    with no result held, nothing happens. *)
Theorem submit_selects_first s :
  match results s with
  | r :: _ => ∃ s', step s Submit = Some (s', [CallOnClose; NavigateTv (jget r "id")]) ∧
                    query s' = ""%string ∧ isOpen s' = false ∧ results s' = results s
  | [] => step s Submit = Some (s, [])
  end.
Proof.
  simpl. destruct (results s) as [|r l] eqn:E; [done|].
  eexists. split; [reflexivity|].
  destruct (setQuery_fields "" (setIsOpen false s)) as (-> & -> & -> & _). done.
Qed.

(** C34: After the box is cleared, the answer of a request still in flight
    refills the results: the panel shows no list (it is closed, or says
    "start typing"), yet Enter navigates to the first result of that
    answer, a show the user never saw listed. *)
Theorem submit_after_clear_navigates_stale s i x l :
  query s = ""%string → i < length (pending s) →
  ∃ s1 s2, step s (Answer i (Body (Some (results_obj (x :: l))))) = Some (s1, []) ∧
           (∀ l', view s1 ≠ ResultList l') ∧
           step s1 Submit = Some (s2, [CallOnClose; NavigateTv (jget x "id")]).
Proof.
  intros Hq Hi. simpl. rewrite bool_decide_true by done.
  do 2 eexists. split; [reflexivity|]. split; [|reflexivity].
  intros l'. unfold view, dropdown_open. simpl. rewrite Hq. by destruct (isOpen s).
Qed.

(** The box cleared while the request for [a] is in flight. *)
Definition cleared_in_flight : State :=
  default init (fst <$> run_events init [Type_ "a"; Tick 500; ClearClick; Tick 500]).

Lemma submit_after_clear_navigates_stale_witness :
  ∃ s1 s2, step cleared_in_flight (Answer 0 (Body (Some (results_obj [show 7])))) = Some (s1, []) ∧
           (∀ l', view s1 ≠ ResultList l') ∧
           step s1 Submit = Some (s2, [CallOnClose; NavigateTv (jget (show 7) "id")]).
Proof. apply submit_after_clear_navigates_stale; vm_compute; [reflexivity | lia]. Defined.

(** ** With the route: what reaches the upstream API *)

Lemma search_url_split origin v :
  (origin +:+ search_url v)%string =
  ((origin +:+ "/api/search") +:+ "?" +:+ "q" +:+ "=" +:+ Url.encodeURIComponent v)%string.
Proof. unfold search_url. rewrite <- string_app_assoc. reflexivity. Qed.

Lemma isBlank_trim_nonempty v : JsString.isBlank v = false → JsString.trim v ≠ ""%string.
Proof. unfold JsString.isBlank. by destruct (String.eqb_spec (JsString.trim v) ""). Qed.

(** C2: The request the search box sends for a settled non-blank value [v],
    received by [GET] at any origin, makes the route read [q] as the
    trimmed [v] and make one upstream request, from whose URL the TMDB
    server reads the trimmed [v] as its [query]. *)
Theorem query_reaches_upstream cfg origin v net :
  Url.base_ok (origin +:+ "/api/search") = true → JsString.isBlank v = false →
  Tmdb.has_credential cfg = true →
  SearchRoute.query_param (origin +:+ search_url v) = JsString.trim v ∧
  calls net (SearchRoute.GET cfg (origin +:+ search_url v)) =
    [Tmdb.tmdb_request cfg (Tmdb.search_endpoint (JsString.trim v))] ∧
  Url.params_get "query" (Tmdb.sent_params (Tmdb.tmdb_request cfg (Tmdb.search_endpoint (JsString.trim v)))) =
    Some (JsString.trim v).
Proof.
  intros Hb Hv Hc.
  assert (Hq : SearchRoute.query_param (origin +:+ search_url v) = JsString.trim v).
  { unfold SearchRoute.query_param. rewrite search_url_split.
    destruct (Url.url_parse_component (origin +:+ "/api/search") "q" v) as (-> & _ & _);
      done. }
  split; [done|]. split.
  - unfold calls. rewrite SearchRoute.run_GET, Hq.
    destruct (String.eqb_spec (JsString.trim v) "") as [E|_].
    + by apply isBlank_trim_nonempty in Hv.
    + by rewrite Hc.
  - destruct (Tmdb.searchShows_sent cfg (JsString.trim v) net) as [_ Hs].
    + by rewrite JsString.isBlank_trim.
    + done.
    + unfold Tmdb.search_endpoint in *. rewrite !JsString.trim_idem in Hs |- *.
      by rewrite Hs.
Qed.

Lemma query_reaches_upstream_witness :
  let cfg := Tmdb.mkConfig (Some "k3y"%string) None in
  let origin := "http://localhost:3000"%string in
  SearchRoute.query_param (origin +:+ search_url " the bear ") = JsString.trim " the bear " ∧
  calls (λ _, NetworkError) (SearchRoute.GET cfg (origin +:+ search_url " the bear ")) =
    [Tmdb.tmdb_request cfg (Tmdb.search_endpoint (JsString.trim " the bear "))] ∧
  Url.params_get "query" (Tmdb.sent_params (Tmdb.tmdb_request cfg (Tmdb.search_endpoint (JsString.trim " the bear ")))) =
    Some (JsString.trim " the bear ").
Proof.
  intros cfg origin. apply query_reaches_upstream; vm_compute; reflexivity.
Defined.

End SearchBar.
