(* ===== verification/HeroSlider.v ===== *)
(** * The hero slider, [src/components/HeroSlider.tsx]

    The state of the component is its three [useState] hooks
    ([currentSlide], [isAutoPlaying], [isLoaded]) and the timers that its
    effects and handlers start: the [setInterval] of the autoplay effect
    (its next firing time), the [setTimeout]s of the handlers that turn
    autoplay back on after 10 s (their deadlines, never cleared by the
    code), and the 100 ms timer of the entrance animation.  Time is
    explicit: [Wait dt] lets [dt] milliseconds pass, which the event loop
    only does up to the next pending deadline, and each timer fires by its
    own event when its deadline is reached.  Clicks are the three handlers
    [prevSlide], [nextSlide] and [goToSlide].  [view] is the render: the
    slides, the heading, the links and the dots. *)

From S2P Require Import Prelude Json.
Import Json.

Module HeroSlider.

Definition AUTOPLAY_MS : Z := 5000.
Definition RESUME_MS : Z := 10000.
Definition LOAD_MS : Z := 100.

Record State := mkState {
  currentSlide : Z;
  isAutoPlaying : bool;
  isLoaded : bool;
  now : Z;
  interval : option Z;
  resumes : list Z;
  loadTimer : option Z
}.

Definition setCurrentSlide v s := mkState v (isAutoPlaying s) (isLoaded s) (now s) (interval s) (resumes s) (loadTimer s).
Definition set_autoplay v s := mkState (currentSlide s) v (isLoaded s) (now s) (interval s) (resumes s) (loadTimer s).
Definition setIsLoaded v s := mkState (currentSlide s) (isAutoPlaying s) v (now s) (interval s) (resumes s) (loadTimer s).
Definition set_now v s := mkState (currentSlide s) (isAutoPlaying s) (isLoaded s) v (interval s) (resumes s) (loadTimer s).
Definition set_interval v s := mkState (currentSlide s) (isAutoPlaying s) (isLoaded s) (now s) v (resumes s) (loadTimer s).
Definition set_resumes v s := mkState (currentSlide s) (isAutoPlaying s) (isLoaded s) (now s) (interval s) v (loadTimer s).
Definition set_loadTimer v s := mkState (currentSlide s) (isAutoPlaying s) (isLoaded s) (now s) (interval s) (resumes s) v.

Inductive Event : Type :=
| Wait (dt : Z)
| FireInterval
| FireResume (i : nat)
| FireLoad
| ClickPrev
| ClickNext
| ClickDot (i : nat).

(** What the render shows of one slide: whether it is the visible one,
    its image ([Backdrop] carries the [backdrop_path] that the TMDB image
    URL interpolates), its [alt] text and whether it is loaded first. *)
Inductive Src : Type :=
| Backdrop (path : option Json)
| Placeholder.

Record Slide := mkSlide {
  visible : bool;
  src : Src;
  alt : option Json;
  priority : bool
}.

(** The rendered section: the slides, the heading and overview of the
    current show, the three buttons with the show id of their
    [/tv/${currentShow.id}] link, the dots (active or not) and whether the
    entrance animation is on. *)
Record View := mkView {
  slides : list Slide;
  heading : option Json;
  overview : option Json;
  buttons : list (string * option Json);
  dots : list bool;
  animated : bool
}.

(** [null], a render that throws, or the section. *)
Inductive Render : Type :=
| Null
| Crash
| Shown (v : View).

Section Slider.
Context (shows : list Json).

(** [shows.length]. *)
Definition count : Z := Z.of_nat (length shows).

(** The autoplay effect: an interval of 5000 ms while [isAutoPlaying] and
    there are at least two slides.  Its dependencies are [isAutoPlaying]
    and [shows.length], so it runs again, clearing the old interval, each
    time [isAutoPlaying] changes. *)
Definition autoplay_effect (s : State) : State :=
  set_interval (if isAutoPlaying s && bool_decide (1 < count)%Z
                then Some (now s + AUTOPLAY_MS)%Z else None) s.

(** [setIsAutoPlaying(b)]: React skips the render, and so the effect, when
    the value does not change. *)
Definition setIsAutoPlaying (b : bool) (s : State) : State :=
  if Bool.eqb b (isAutoPlaying s) then s else autoplay_effect (set_autoplay b s).

(** [(prev + 1) % shows.length] and [(prev - 1 + shows.length) %
    shows.length]: JavaScript's [%] is the truncated remainder. *)
Definition next_index (prev : Z) : Z := Z.rem (prev + 1) count.
Definition prev_index (prev : Z) : Z := Z.rem (prev - 1 + count) count.

(** [setIsAutoPlaying(false); setTimeout(() => setIsAutoPlaying(true), 10000)]. *)
Definition pause (s : State) : State :=
  let s := setIsAutoPlaying false s in
  set_resumes (resumes s ++ [now s + RESUME_MS]%Z) s.

Definition goToSlide (index : Z) (s : State) : State := pause (setCurrentSlide index s).
Definition nextSlide (s : State) : State := pause (setCurrentSlide (next_index (currentSlide s)) s).
Definition prevSlide (s : State) : State := pause (setCurrentSlide (prev_index (currentSlide s)) s).

(** The first render and its two effects. *)
Definition init : State := autoplay_effect (mkState 0 true false 0 None [] (Some LOAD_MS)).

(** No pending deadline is before [t]. *)
Definition no_deadline_before (t : Z) (s : State) : bool :=
  from_option (λ d, bool_decide (t ≤ d)%Z) true (interval s) &&
  forallb (λ d, bool_decide (t ≤ d)%Z) (resumes s) &&
  from_option (λ d, bool_decide (t ≤ d)%Z) true (loadTimer s).

(** A timer fires when its deadline is the current time. *)
Definition due (o : option Z) (s : State) : bool :=
  match o with Some d => bool_decide (d = now s) | None => false end.

Definition step (s : State) (e : Event) : option State :=
  match e with
  | Wait dt =>
      if bool_decide (0 ≤ dt)%Z && no_deadline_before (now s + dt) s
      then Some (set_now (now s + dt) s) else None
  | FireInterval =>
      if due (interval s) s
      then Some (set_interval (Some (now s + AUTOPLAY_MS)%Z)
                   (setCurrentSlide (next_index (currentSlide s)) s))
      else None
  | FireResume i =>
      if due (resumes s !! i) s
      then Some (setIsAutoPlaying true (set_resumes (delete i (resumes s)) s)) else None
  | FireLoad =>
      if due (loadTimer s) s then Some (set_loadTimer None (setIsLoaded true s)) else None
  | ClickPrev => if bool_decide (0 < count)%Z then Some (prevSlide s) else None
  | ClickNext => if bool_decide (0 < count)%Z then Some (nextSlide s) else None
  | ClickDot i => if bool_decide (i < length shows) then Some (goToSlide (Z.of_nat i) s) else None
  end.

(** ** The render *)

(** One slide of [shows.map((show, index) => ...)]: [show.id] (the key),
    [show.backdrop_path] and [show.name] are read, which throws on a
    [null] show. *)
Definition slide_of (cur : Z) (i : nat) (show : Json) : option Slide :=
  _ ← member (Some show) "id";
  bp ← member (Some show) "backdrop_path";
  nm ← member (Some show) "name";
  Some (mkSlide (bool_decide (Z.of_nat i = cur)) (if truthy bp then Backdrop bp else Placeholder)
                nm (bool_decide (i = 0))).

Fixpoint slides_of (cur : Z) (i : nat) (l : list Json) : option (list Slide) :=
  match l with
  | [] => Some []
  | show :: l' => sl ← slide_of cur i show; rest ← slides_of cur (S i) l'; Some (sl :: rest)
  end.

(** [shows[currentSlide]]: [undefined] out of range. *)
Definition currentShow (s : State) : option Json :=
  if bool_decide (0 ≤ currentSlide s)%Z then shows !! Z.to_nat (currentSlide s) else None.

Definition view (s : State) : Render :=
  if bool_decide (length shows = 0) then Null
  else
    match (sl ← slides_of (currentSlide s) 0 shows;
           nm ← member (currentShow s) "name";
           ov ← member (currentShow s) "overview";
           id ← member (currentShow s) "id";
           Some (mkView sl nm ov [("Watch Now", id); ("Watch Now", id); ("More Info", id)]%string
                   (imap (λ i _, bool_decide (Z.of_nat i = currentSlide s)) shows) (isLoaded s)))
    with
    | Some v => Shown v
    | None => Crash
    end.

(** ** The invariant *)

(** The index is in range; the interval runs exactly while autoplay is on
    with two slides or more, and fires within 5000 ms; every resume timer
    is due within 10 s; the load timer is pending until the section is
    loaded. *)
Definition inv (s : State) : Prop :=
  (0 ≤ currentSlide s < Z.max 1 count)%Z ∧
  match interval s with
  | Some d => isAutoPlaying s = true ∧ (1 < count)%Z ∧ (now s ≤ d ≤ now s + AUTOPLAY_MS)%Z
  | None => isAutoPlaying s = false ∨ (count ≤ 1)%Z
  end ∧
  Forall (λ d, now s ≤ d ≤ now s + RESUME_MS)%Z (resumes s) ∧
  match loadTimer s with
  | Some d => isLoaded s = false ∧ (now s ≤ d ≤ LOAD_MS)%Z
  | None => isLoaded s = true
  end.

(** Timer events, as opposed to clicks. *)
Definition timer_event (e : Event) : bool :=
  match e with Wait _ | FireInterval | FireResume _ | FireLoad => true | _ => false end.

(** ** Lemmas *)

Lemma count_nonneg : (0 ≤ count)%Z.
Proof. unfold count. lia. Qed.

Lemma next_index_range c : (0 ≤ c < count)%Z → (0 ≤ next_index c < count)%Z.
Proof. intros Hc. unfold next_index. apply Z.rem_bound_pos; lia. Qed.

Lemma prev_index_range c : (0 ≤ c < count)%Z → (0 ≤ prev_index c < count)%Z.
Proof. intros Hc. unfold prev_index. apply Z.rem_bound_pos; lia. Qed.

Lemma setIsAutoPlaying_inv b s : inv s → inv (setIsAutoPlaying b s).
Proof.
  unfold setIsAutoPlaying. destruct (Bool.eqb_spec b (isAutoPlaying s)) as [_|Hb]; [done|].
  destruct s as [c a l t iv rs ld]; unfold inv, autoplay_effect, AUTOPLAY_MS; simpl in *.
  intros (Hc & _ & Hr & Hl). split; [done|]. split; [|done].
  destruct b; simpl; [case_bool_decide; [split_and!; auto with lia | right; lia] | by left].
Qed.

Lemma pause_inv s : inv s → inv (pause s).
Proof.
  intros H. pose proof (setIsAutoPlaying_inv false s H) as H'. unfold pause.
  destruct (setIsAutoPlaying false s) as [c a l t iv rs ld].
  unfold inv, RESUME_MS in *; simpl in *. destruct H' as (Hc & Hi & Hr & Hl).
  split; [done|]. split; [done|]. split; [|done].
  apply Forall_app. split; [done|]. constructor; [lia | constructor].
Qed.

Lemma setCurrentSlide_inv c s :
  (0 ≤ c < Z.max 1 count)%Z → inv s → inv (setCurrentSlide c s).
Proof. intros Hc (_ & H). by split. Qed.

(** The checks of [Wait]: every deadline is at or after the new time. *)
Lemma no_deadline_before_spec t s :
  no_deadline_before t s = true ↔
  (∀ d, interval s = Some d → (t ≤ d)%Z) ∧ Forall (λ d, t ≤ d)%Z (resumes s) ∧
  (∀ d, loadTimer s = Some d → (t ≤ d)%Z).
Proof.
  unfold no_deadline_before. rewrite !andb_true_iff, forallb_forall, Forall_forall.
  destruct (interval s), (loadTimer s); simpl;
    setoid_rewrite bool_decide_eq_true; setoid_rewrite <- list_elem_of_In;
    naive_solver.
Qed.

Lemma due_some o s : due o s = true → o = Some (now s).
Proof. destruct o; simpl; [|done]. case_bool_decide; [by intros; subst | done]. Qed.

Lemma wait_inv s dt :
  inv s → (0 ≤ dt)%Z → no_deadline_before (now s + dt) s = true → inv (set_now (now s + dt) s).
Proof.
  intros H Hdt (Hi & Hr & Hl)%no_deadline_before_spec.
  destruct s as [c a l t iv rs ld]; unfold inv, AUTOPLAY_MS, RESUME_MS, LOAD_MS in *; simpl in *.
  destruct H as (Hc & Hiv & Hrs & Hld). split; [done|]. split; [|split].
  - destruct iv as [d|]; [specialize (Hi d eq_refl); naive_solver lia | done].
  - eapply Forall_impl; [apply Forall_and; split; [exact Hrs | exact Hr]|]. simpl. lia.
  - destruct ld as [d|]; [specialize (Hl d eq_refl); naive_solver lia | done].
Qed.

Lemma fire_interval_inv s :
  inv s → interval s = Some (now s) →
  inv (set_interval (Some (now s + AUTOPLAY_MS)%Z) (setCurrentSlide (next_index (currentSlide s)) s)).
Proof.
  intros H Hiv. pose proof (next_index_range (currentSlide s)) as Hn.
  destruct s as [c a l t iv rs ld]; unfold inv, AUTOPLAY_MS in *; simpl in *; subst iv.
  destruct H as (Hc & (Ha & H1 & _) & Hrs & Hld).
  assert (Hr : (0 ≤ next_index c < count)%Z) by (apply Hn; lia).
  split_and!; done || lia.
Qed.

Lemma fire_load_inv s :
  inv s → loadTimer s = Some (now s) → inv (set_loadTimer None (setIsLoaded true s)).
Proof. destruct s as [c a l t iv rs ld]; unfold inv; simpl. intros (Hc & Hi & Hr & _) _. exact (conj Hc (conj Hi (conj Hr eq_refl))). Qed.

Lemma delete_resume_inv s i : inv s → inv (set_resumes (delete i (resumes s)) s).
Proof. destruct s as [c a l t iv rs ld]; unfold inv; simpl. intros (Hc & Hi & Hr & Hl). refine (conj Hc (conj Hi (conj _ Hl))). by apply Forall_delete. Qed.

(** Each step keeps the invariant. *)
Lemma slider_step_inv s e s' : inv s → step s e = Some s' → inv s'.
Proof.
  intros H Hst. destruct e as [dt| |i| | | |i]; simpl in Hst.
  - destruct (bool_decide _ && _) eqn:E; [injection Hst as <- | done].
    apply andb_true_iff in E as [Hdt%bool_decide_eq_true Hn]. by apply wait_inv.
  - destruct (due _ _) eqn:E; [injection Hst as <- | done]. apply fire_interval_inv; [done|]. by apply due_some.
  - destruct (due _ _) eqn:E; [injection Hst as <- | done].
    by apply setIsAutoPlaying_inv, delete_resume_inv.
  - destruct (due _ _) eqn:E; [injection Hst as <- | done]. apply fire_load_inv; [done|]. by apply due_some.
  - case_bool_decide; [injection Hst as <- | done]. apply pause_inv, setCurrentSlide_inv, H.
    pose proof (prev_index_range (currentSlide s)). destruct H as [Hc _]. lia.
  - case_bool_decide; [injection Hst as <- | done]. apply pause_inv, setCurrentSlide_inv, H.
    pose proof (next_index_range (currentSlide s)). destruct H as [Hc _]. lia.
  - case_bool_decide; [injection Hst as <- | done]. apply pause_inv, setCurrentSlide_inv, H.
    unfold count. lia.
Qed.

Lemma slider_init_inv : inv init.
Proof.
  unfold inv, init, autoplay_effect, AUTOPLAY_MS, LOAD_MS; simpl.
  pose proof count_nonneg. case_bool_decide; simpl; split_and!; auto with lia.
Qed.

(** While autoplay is on, the timer events other than the interval's own
    firing leave the interval alone, and time cannot pass its deadline. *)
Lemma timer_run_bound s es s' d :
  interval s = Some d → isAutoPlaying s = true → (now s ≤ d)%Z →
  Forall (λ e, timer_event e = true ∧ e ≠ FireInterval) es →
  runs step s es = Some s' → (now s' ≤ d)%Z ∧ interval s' = Some d ∧ isAutoPlaying s' = true.
Proof.
  intros Hd Ha Hn Hes. revert s Hd Ha Hn. induction Hes as [|e es [He Hne] _ IH]; intros s Hd Ha Hn; simpl.
  - by intros [= <-].
  - destruct (step s e) as [s1|] eqn:Hst; [|done]. simpl. intros Hr.
    destruct e as [dt| |i| | | |i]; try done; simpl in Hst.
    + destruct (bool_decide _ && _) eqn:E; [injection Hst as <- | done].
      apply andb_true_iff in E as [_ (Hi & _ & _)%no_deadline_before_spec].
      refine (IH _ _ _ _ Hr); [done | done | simpl; by apply Hi].
    + destruct (due _ _); [injection Hst as <- | done].
      unfold setIsAutoPlaying in Hr. simpl in Hr. rewrite Ha in Hr. by refine (IH _ _ _ _ Hr).
    + destruct (due _ _); [injection Hst as <- | done]. by refine (IH _ _ _ _ Hr).
Qed.

Lemma rem_mod a b : (0 ≤ a)%Z → (0 < b)%Z → Z.rem a b = (a mod b)%Z.
Proof. intros. apply Z.rem_mod_nonneg; lia. Qed.

Lemma next_index_mod c : (0 ≤ c)%Z → (0 < count)%Z → next_index c = ((c + 1) mod count)%Z.
Proof. intros. unfold next_index. apply rem_mod; lia. Qed.

Lemma iter_next_index k c :
  (0 ≤ c < count)%Z → Nat.iter k next_index c = ((c + Z.of_nat k) mod count)%Z.
Proof.
  intros Hc. induction k as [|k IH]; simpl.
  - rewrite Z.add_0_r, Z.mod_small; lia.
  - rewrite IH, next_index_mod by (apply Z.mod_pos_bound || idtac; lia).
    rewrite Zplus_mod_idemp_l. f_equal. lia.
Qed.

(** A slide of a non-null show renders. *)
Lemma slides_of_lookup cur k l :
  Forall (λ j, j ≠ JNull) l →
  ∃ sl, slides_of cur k l = Some sl ∧
        ∀ i, visible <$> sl !! i = (λ _, bool_decide (Z.of_nat (k + i) = cur)) <$> l !! i.
Proof.
  revert k. induction l as [|j l IH]; intros k Hl; [by exists []|].
  apply Forall_cons in Hl as [Hj Hl]. destruct (IH (S k) Hl) as (sl & Hsl & Hv).
  assert (Hm : ∀ key, member (Some j) key = Some (jget j key)) by (by destruct j).
  eexists. split.
  - simpl. unfold slide_of. rewrite !Hm. simpl. rewrite Hsl. reflexivity.
  - intros [|i]; simpl; [by rewrite Nat.add_0_r|]. rewrite Hv. by rewrite Nat.add_succ_r.
Qed.

(** [setIsAutoPlaying] and its effect touch neither the clock nor the
    resume timers. *)
Lemma setIsAutoPlaying_now_resumes b s :
  now (setIsAutoPlaying b s) = now s ∧ resumes (setIsAutoPlaying b s) = resumes s.
Proof. unfold setIsAutoPlaying. by destruct (Bool.eqb b (isAutoPlaying s)). Qed.

(** Time never goes back. *)
Lemma slider_now_mono s e s' : step s e = Some s' → (now s ≤ now s')%Z.
Proof.
  intros Hst. destruct e as [dt| |i| | | |i]; simpl in Hst.
  - destruct (bool_decide _ && _) eqn:E; [injection Hst as <- | done].
    apply andb_true_iff in E as [?%bool_decide_eq_true _]. simpl. lia.
  - destruct (due _ _); [injection Hst as <- | done]. simpl; lia.
  - destruct (due _ _); [injection Hst as <- | done]. rewrite (proj1 (setIsAutoPlaying_now_resumes _ _)); simpl; lia.
  - destruct (due _ _); [injection Hst as <- | done]. simpl; lia.
  - case_bool_decide; [injection Hst as <- | done];
      unfold prevSlide, nextSlide, goToSlide, pause; simpl;
      rewrite (proj1 (setIsAutoPlaying_now_resumes _ _)); simpl; lia.
  - case_bool_decide; [injection Hst as <- | done];
      unfold prevSlide, nextSlide, goToSlide, pause; simpl;
      rewrite (proj1 (setIsAutoPlaying_now_resumes _ _)); simpl; lia.
  - case_bool_decide; [injection Hst as <- | done];
      unfold prevSlide, nextSlide, goToSlide, pause; simpl;
      rewrite (proj1 (setIsAutoPlaying_now_resumes _ _)); simpl; lia.
Qed.

(** No step cancels a resume timer that is not yet due: only its own
    firing removes it. *)
Lemma step_keeps_resume s e s' d :
  step s e = Some s' → d ∈ resumes s → (now s' < d)%Z → d ∈ resumes s'.
Proof.
  intros Hst Hd Hlt. destruct e as [dt| |i| | | |i]; simpl in Hst.
  - destruct (bool_decide _ && _); [injection Hst as <- | done]. done.
  - destruct (due _ _); [injection Hst as <- | done]. done.
  - destruct (due _ _) eqn:E; [injection Hst as <- | done]. apply due_some in E.
    destruct (setIsAutoPlaying_now_resumes true (set_resumes (delete i (resumes s)) s)) as [Hn ->].
    rewrite Hn in Hlt. simpl in *. eapply elem_of_delete_other; [done | eassumption | lia].
  - destruct (due _ _); [injection Hst as <- | done]. done.
  - case_bool_decide; [injection Hst as <- | done];
      unfold prevSlide, nextSlide, goToSlide, pause; simpl;
      rewrite (proj2 (setIsAutoPlaying_now_resumes _ _)); simpl; set_solver.
  - case_bool_decide; [injection Hst as <- | done];
      unfold prevSlide, nextSlide, goToSlide, pause; simpl;
      rewrite (proj2 (setIsAutoPlaying_now_resumes _ _)); simpl; set_solver.
  - case_bool_decide; [injection Hst as <- | done];
      unfold prevSlide, nextSlide, goToSlide, pause; simpl;
      rewrite (proj2 (setIsAutoPlaying_now_resumes _ _)); simpl; set_solver.
Qed.

#[local] Instance now_le_preorder : PreOrder (λ a b : State, (now a ≤ now b)%Z).
Proof. split; [intros ?; lia | intros ???; lia]. Qed.

Lemma runs_keep_resume s es s' d :
  d ∈ resumes s → runs step s es = Some s' → (now s' < d)%Z → d ∈ resumes s'.
Proof.
  revert s. induction es as [|e es IH]; intros s Hd; simpl; [by intros [= <-]|].
  destruct (step s e) as [s1|] eqn:Hst; [|done]. simpl. intros Hr Hlt.
  pose proof (runs_rel step (λ a b, now a ≤ now b)%Z s1 es s' slider_now_mono Hr) as Hm. cbn beta in Hm.
  apply (IH s1); [|done|done]. eapply step_keeps_resume; [done|done|lia].
Qed.

(** A click starts a resume timer 10 s ahead. *)
Lemma click_resume s e s' :
  timer_event e = false → step s e = Some s' → (now s + RESUME_MS)%Z ∈ resumes s'.
Proof.
  intros He Hst. destruct e as [| | | | | |i]; simpl in He, Hst; try done;
    case_bool_decide; [injection Hst as <- | done | injection Hst as <- | done | injection Hst as <- | done];
    unfold prevSlide, nextSlide, goToSlide, pause; simpl;
    rewrite (proj1 (setIsAutoPlaying_now_resumes _ _)); simpl; set_solver.
Qed.

(** ** Theorems *)

(** C26: Every state reachable from the first render keeps the slide index
    in [0, max(1, shows.length)); the autoplay interval is pending exactly
    while autoplay is on with two slides or more, and fires within
    5000 ms; every resume timer is due within 10 s; the load timer is
    pending until the entrance animation is on. *)
Theorem slider_reach_inv s : reach step init s → inv s.
Proof. apply reach_ind_inv; [apply slider_init_inv | intros; by eapply slider_step_inv]. Qed.

(** C40: The previous-slide index undoes the next-slide index and the
    other way round, for every index in range. *)
Theorem slide_index_roundtrip c :
  (0 ≤ c < count)%Z → prev_index (next_index c) = c ∧ next_index (prev_index c) = c.
Proof.
  intros Hc. pose proof (Z.mod_pos_bound (c + 1) count ltac:(lia)).
  pose proof (Z.mod_pos_bound (c - 1 + count) count ltac:(lia)).
  unfold prev_index, next_index. rewrite !(rem_mod (c + 1)), (rem_mod (c - 1 + count)) by lia.
  rewrite !rem_mod by lia. split.
  - replace ((c + 1) mod count - 1 + count)%Z with ((c + 1) mod count + (count - 1))%Z by lia.
    rewrite Z.add_mod_idemp_l by lia.
    replace (c + 1 + (count - 1))%Z with (c + 1 * count)%Z by lia.
    rewrite Z.mod_add, Z.mod_small; lia.
  - rewrite Z.add_mod_idemp_l by lia.
    replace (c - 1 + count + 1)%Z with (c + 1 * count)%Z by lia.
    rewrite Z.mod_add, Z.mod_small; lia.
Qed.

(** Pressing next [shows.length] times (or letting the interval fire
    that often) comes back to the slide it started from. *)
Theorem slide_cycle c : (0 ≤ c < count)%Z → Nat.iter (length shows) next_index c = c.
Proof.
  intros Hc. rewrite iter_next_index by done. fold count.
  replace (c + count)%Z with (c + 1 * count)%Z by lia.
  rewrite Z.mod_add, Z.mod_small; lia.
Qed.

(** C27: In a state of the invariant where autoplay is on with two slides or more, no more than
    5000 ms pass without the slide advancing: a run of timer events in
    which the interval does not fire ends at most 5000 ms later. *)
Theorem autoplay_advances_within s es s' :
  inv s → isAutoPlaying s = true → (1 < count)%Z →
  Forall (λ e, timer_event e = true ∧ e ≠ FireInterval) es →
  runs step s es = Some s' → (now s' ≤ now s + AUTOPLAY_MS)%Z.
Proof.
  intros [_ [Hi _]] Ha Hc Hes Hrun.
  destruct (interval s) as [d|] eqn:Hd; [|destruct Hi; congruence || lia].
  destruct Hi as (_ & _ & Hn).
  destruct (timer_run_bound s es s' d Hd Ha ltac:(lia) Hes Hrun) as (H & _). lia.
Qed.

(** C39: With every show non-null, the render of a non-empty slider in a
    state of the invariant shows the current show: its name as heading, its id in the
    three links, and exactly one active dot and one visible slide, both at
    the current index. *)
Theorem view_shows_current s :
  inv s → shows ≠ [] → Forall (λ j, j ≠ JNull) shows →
  ∃ sh v, shows !! Z.to_nat (currentSlide s) = Some sh ∧ view s = Shown v ∧
          heading v = jget sh "name" ∧
          buttons v = [("Watch Now", jget sh "id"); ("Watch Now", jget sh "id");
                       ("More Info", jget sh "id")]%string ∧
          ∀ i, dots v !! i = (λ _, bool_decide (Z.of_nat i = currentSlide s)) <$> shows !! i ∧
               visible <$> slides v !! i = dots v !! i.
Proof.
  intros [Hc _] Hne Hnn.
  assert (Hlen : (0 < count)%Z) by (unfold count; destruct shows; [done | simpl; lia]).
  destruct (lookup_lt_is_Some_2 shows (Z.to_nat (currentSlide s))) as [sh Hsh].
  { unfold count in *. lia. }
  assert (Hsn : sh ≠ JNull) by (rewrite Forall_lookup in Hnn; by eapply Hnn).
  assert (Hm : ∀ key, member (Some sh) key = Some (jget sh key)) by (by destruct sh).
  destruct (slides_of_lookup (currentSlide s) 0 shows Hnn) as (sl & Hsl & Hv).
  unfold view, currentShow. rewrite bool_decide_false by (destruct shows; done).
  rewrite bool_decide_true by lia. rewrite Hsh, Hsl, !Hm. simpl.
  eexists sh, _. split_and!; [done | reflexivity | done | done |].
  intros i. simpl. rewrite list_lookup_imap, Hv. split; [done|].
  by destruct (shows !! i).
Qed.

(** C28: The resume timers of the clicks are never cancelled: after a
    click at time [t], every run of events that stays before [t + 10 s],
    further clicks included, leaves that click's timer pending, so
    autoplay comes back 10 s after the first click of a series and not
    10 s after the last one. *)
Theorem early_resume s e s1 es s2 :
  timer_event e = false → step s e = Some s1 → runs step s1 es = Some s2 →
  (now s2 < now s + RESUME_MS)%Z → (now s + RESUME_MS)%Z ∈ resumes s2.
Proof.
  intros He Hst Hr Hlt. eapply runs_keep_resume; [|exact Hr|done]. by eapply click_resume.
Qed.

End Slider.

(** ** Runs on three shows *)

Definition show (n : Z) (name : string) : Json :=
  JObj [("id", JNum (QArith_base.inject_Z n)); ("name", JStr name);
        ("backdrop_path", JStr ("/" +:+ name +:+ ".jpg"))]%string.

Definition trio : list Json := [show 1 "A"; show 2 "B"; show 3 "C"].

Lemma slider_reach_inv_witness :
  reach (step trio) (init trio) (nextSlide trio (init trio)) ∧ inv trio (nextSlide trio (init trio)).
Proof.
  assert (H : reach (step trio) (init trio) (nextSlide trio (init trio)))
    by (eapply (reach_next _ _ _ ClickNext); [constructor | reflexivity]).
  split; [exact H | exact (slider_reach_inv trio _ H)].
Defined.

Lemma slide_index_roundtrip_witness :
  (0 ≤ 2 < count trio)%Z ∧ prev_index trio (next_index trio 2) = 2%Z ∧ next_index trio (prev_index trio 2) = 2%Z.
Proof.
  assert (H : (0 ≤ 2 < count trio)%Z) by (unfold count; simpl; lia).
  split; [exact H | exact (slide_index_roundtrip trio 2 H)].
Defined.

Lemma slide_cycle_witness : (0 ≤ 1 < count trio)%Z ∧ Nat.iter (length trio) (next_index trio) 1%Z = 1%Z.
Proof.
  assert (H : (0 ≤ 1 < count trio)%Z) by (unfold count; simpl; lia).
  split; [exact H | exact (slide_cycle trio 1 H)].
Defined.

Lemma autoplay_advances_within_witness :
  (now (default (init trio) (runs (step trio) (init trio) [Wait 100; FireLoad; Wait 4900])) ≤
   now (init trio) + AUTOPLAY_MS)%Z.
Proof.
  apply (autoplay_advances_within trio (init trio) [Wait 100; FireLoad; Wait 4900]);
    [apply slider_init_inv | reflexivity | vm_compute; reflexivity | repeat constructor; discriminate
    | vm_compute; reflexivity].
Defined.

Lemma view_shows_current_witness :
  ∃ sh v, trio !! Z.to_nat (currentSlide (init trio)) = Some sh ∧ view trio (init trio) = Shown v ∧
          heading v = jget sh "name" ∧
          buttons v = [("Watch Now", jget sh "id"); ("Watch Now", jget sh "id");
                       ("More Info", jget sh "id")]%string ∧
          ∀ i, dots v !! i = (λ _, bool_decide (Z.of_nat i = currentSlide (init trio))) <$> trio !! i ∧
               visible <$> slides v !! i = dots v !! i.
Proof.
  apply view_shows_current; [apply slider_init_inv | discriminate | repeat constructor; discriminate].
Defined.

(** Two clicks 9 s apart. *)
Definition click_trace : list Event := [Wait 100; FireLoad; Wait 8900; ClickNext; Wait 900].

(** The slider after a click at 0 ms, a second click at 9000 ms, and
    900 ms more. *)
Definition after_clicks : State :=
  default (init trio) (runs (step trio) (nextSlide trio (init trio)) click_trace).

Lemma early_resume_witness :
  (now after_clicks < now (init trio) + RESUME_MS)%Z ∧
  (now (init trio) + RESUME_MS)%Z ∈ resumes after_clicks.
Proof.
  split; [vm_compute; reflexivity|].
  apply (early_resume trio (init trio) ClickNext (nextSlide trio (init trio)) click_trace after_clicks);
    [reflexivity | reflexivity | vm_compute; reflexivity | vm_compute; reflexivity].
Defined.

End HeroSlider.
