(* ===== verification/Carousel.v ===== *)
(** * The show carousel, [src/components/Carousel.tsx]

    The component keeps three [useState] hooks ([canScrollLeft],
    [canScrollRight], [isScrolling]) next to a scrolling [div] whose
    geometry the browser owns: [scrollLeft], [scrollWidth], [clientWidth],
    and the window's [innerWidth].  [checkScrollButtons] copies the
    geometry into the two flags; it runs on mount, on [resize], on every
    [scroll] event, and when the 500 ms timer of [scroll] fires.  The
    browser clamps [scrollLeft] to [0, scrollWidth - clientWidth] and fires
    [scroll] only when the position changes; a smooth [scrollTo] is
    modelled by its final position, whose [scroll] event runs the check
    last.  Timers fire by their own event at their deadline, as in
    [HeroSlider]. *)

From S2P Require Import Prelude JsString Json.
Import Json.

Module Carousel.

(** The element's geometry and the window width. *)
Record Dom := mkDom {
  scrollLeft : Z;
  scrollWidth : Z;
  clientWidth : Z;
  innerWidth : Z
}.

Record State := mkState {
  canScrollLeft : bool;
  canScrollRight : bool;
  isScrolling : bool;
  dom : Dom;
  now : Z;
  timers : list Z
}.

Definition setCanScrollLeft v s := mkState v (canScrollRight s) (isScrolling s) (dom s) (now s) (timers s).
Definition setCanScrollRight v s := mkState (canScrollLeft s) v (isScrolling s) (dom s) (now s) (timers s).
Definition setIsScrolling v s := mkState (canScrollLeft s) (canScrollRight s) v (dom s) (now s) (timers s).
Definition set_dom v s := mkState (canScrollLeft s) (canScrollRight s) (isScrolling s) v (now s) (timers s).
Definition set_now v s := mkState (canScrollLeft s) (canScrollRight s) (isScrolling s) (dom s) v (timers s).
Definition set_timers v s := mkState (canScrollLeft s) (canScrollRight s) (isScrolling s) (dom s) (now s) v.

Inductive Direction : Type := Left | Right.

#[export] Instance Direction_eq_dec : EqDecision Direction.
Proof. solve_decision. Defined.

Inductive Event : Type :=
| Click (d : Direction)
| UserScroll (x : Z)
| Resize (client inner : Z)
| Wait (dt : Z)
| Fire (i : nat).

Definition SCROLL_MS : Z := 500.

(** [checkScrollButtons()]. *)
Definition checkScrollButtons (s : State) : State :=
  let d := dom s in
  setCanScrollRight (scrollLeft d <? scrollWidth d - clientWidth d - 10)%Z
    (setCanScrollLeft (0 <? scrollLeft d)%Z s).

(** The largest [scrollLeft] the browser allows. *)
Definition max_scroll (d : Dom) : Z := Z.max 0 (scrollWidth d - clientWidth d).

Definition clamp (d : Dom) (x : Z) : Z := Z.max 0 (Z.min x (max_scroll d)).

Definition with_scrollLeft (x : Z) (d : Dom) : Dom :=
  mkDom x (scrollWidth d) (clientWidth d) (innerWidth d).

(** The position moves to [x], clamped; a change fires [scroll], whose
    handler is [checkScrollButtons]. *)
Definition scrollTo (x : Z) (s : State) : State :=
  let x' := clamp (dom s) x in
  if bool_decide (x' = scrollLeft (dom s)) then s
  else checkScrollButtons (set_dom (with_scrollLeft x' (dom s)) s).

(** [window.innerWidth < 768 ? 200 : 320]. *)
Definition scrollAmount (s : State) : Z :=
  if (innerWidth (dom s) <? 768)%Z then 200 else 320.

(** [scroll(direction)]. *)
Definition scroll (dir : Direction) (s : State) : State :=
  if isScrolling s then s
  else
    let s := setIsScrolling true s in
    let amount := scrollAmount s in
    let s := scrollTo (scrollLeft (dom s) + (if dir is Left then - amount else amount))%Z s in
    set_timers (timers s ++ [now s + SCROLL_MS]%Z) s.

(** A resize: the element's width and the window's change, the browser
    clamps the position, and the [resize] listener runs the check. *)
Definition resize (client inner : Z) (s : State) : State :=
  let d := mkDom (scrollLeft (dom s)) (scrollWidth (dom s)) client inner in
  checkScrollButtons (set_dom (with_scrollLeft (clamp d (scrollLeft d)) d) s).

(** The button of a direction is rendered and enabled. *)
Definition button_enabled (dir : Direction) (s : State) : bool :=
  (if dir is Left then canScrollLeft s else canScrollRight s) && negb (isScrolling s).

Definition step (s : State) (e : Event) : option State :=
  match e with
  | Click dir => if button_enabled dir s then Some (scroll dir s) else None
  | UserScroll x => Some (scrollTo x s)
  | Resize client inner => Some (resize client inner s)
  | Wait dt =>
      if bool_decide (0 ≤ dt)%Z && forallb (λ t, bool_decide (now s + dt ≤ t)%Z) (timers s)
      then Some (set_now (now s + dt) s) else None
  | Fire i =>
      match timers s !! i with
      | Some t =>
          if bool_decide (t = now s)
          then Some (checkScrollButtons (setIsScrolling false (set_timers (delete i (timers s)) s)))
          else None
      | None => None
      end
  end.

(** The first render ([useState(false)], [useState(true)],
    [useState(false)]) and the mount effect, which runs the check. *)
Definition init (d : Dom) : State := checkScrollButtons (mkState false true false d 0 []).

(** ** The render *)

(** [title.toLowerCase().replace(/\s+/g, "-")]. *)
Definition section_id (title : string) : string :=
  JsString.replace_ws_runs "-" false (JsString.toLowerCase title).

(** The section: its [id], its heading, the two buttons when shown (with
    their [disabled] flag) and the [key] of each poster. *)
Record View := mkView {
  id : string;
  heading : string;
  left_button : option bool;
  right_button : option bool;
  keys : list (option Json)
}.

Definition view (title : string) (shows : list Json) (s : State) : View :=
  mkView (section_id title) title
    (if canScrollLeft s then Some (isScrolling s) else None)
    (if canScrollRight s then Some (isScrolling s) else None)
    ((λ show, jget show "id") <$> shows).

(** ** The invariant *)

(** The flags are those the check computes from the geometry; the
    position is in range; [isScrolling] is set exactly while the one
    timer of [scroll] is pending, due within 500 ms. *)
Definition consistent (s : State) : Prop :=
  canScrollLeft s = (0 <? scrollLeft (dom s))%Z ∧
  canScrollRight s = (scrollLeft (dom s) <? scrollWidth (dom s) - clientWidth (dom s) - 10)%Z.

Definition inv (s : State) : Prop :=
  consistent s ∧
  (0 ≤ scrollLeft (dom s) ≤ max_scroll (dom s))%Z ∧
  match timers s with
  | [] => isScrolling s = false
  | [t] => isScrolling s = true ∧ (now s ≤ t ≤ now s + SCROLL_MS)%Z
  | _ => False
  end.

(** ** Lemmas *)

Lemma check_consistent s : consistent (checkScrollButtons s).
Proof. done. Qed.

Lemma check_fields s :
  isScrolling (checkScrollButtons s) = isScrolling s ∧ dom (checkScrollButtons s) = dom s ∧
  now (checkScrollButtons s) = now s ∧ timers (checkScrollButtons s) = timers s.
Proof. done. Qed.

Lemma clamp_range d x : (0 ≤ clamp d x ≤ max_scroll d)%Z.
Proof. unfold clamp, max_scroll. lia. Qed.

Lemma clamp_id d x : (0 ≤ x ≤ max_scroll d)%Z → clamp d x = x.
Proof. unfold clamp, max_scroll. lia. Qed.

(** [scrollTo] moves the position and keeps the flags consistent; it
    touches neither the timers nor [isScrolling] nor the time. *)
Lemma scrollTo_spec x s :
  consistent s →
  consistent (scrollTo x s) ∧ scrollLeft (dom (scrollTo x s)) = clamp (dom s) x ∧
  scrollWidth (dom (scrollTo x s)) = scrollWidth (dom s) ∧
  clientWidth (dom (scrollTo x s)) = clientWidth (dom s) ∧
  innerWidth (dom (scrollTo x s)) = innerWidth (dom s) ∧
  isScrolling (scrollTo x s) = isScrolling s ∧ now (scrollTo x s) = now s ∧
  timers (scrollTo x s) = timers s.
Proof. intros Hc. unfold scrollTo. case_bool_decide as E; [by rewrite E | done]. Qed.

Lemma scrollTo_fields x s :
  isScrolling (scrollTo x s) = isScrolling s ∧ now (scrollTo x s) = now s ∧
  timers (scrollTo x s) = timers s.
Proof. unfold scrollTo. case_bool_decide; done. Qed.

Lemma max_scroll_scrollTo x s : max_scroll (dom (scrollTo x s)) = max_scroll (dom s).
Proof. unfold scrollTo. case_bool_decide; done. Qed.

Lemma scroll_inv dir s : inv s → isScrolling s = false → inv (scroll dir s).
Proof.
  intros (Hc & Hr & Ht) Hs. unfold scroll. rewrite Hs.
  set (s1 := setIsScrolling true s).
  assert (Hc1 : consistent s1) by done.
  set (x := (scrollLeft (dom s1) + (if dir is Left then - scrollAmount s1 else scrollAmount s1))%Z).
  destruct (scrollTo_spec x s1 Hc1) as (Hc2 & Hp & _ & _ & _ & Hs2 & Hn2 & Ht2).
  pose proof (clamp_range (dom s1) x). pose proof (max_scroll_scrollTo x s1).
  destruct (timers s) as [|t [|]] eqn:Et; [| destruct Ht; congruence | done].
  split; [done|]. split; [simpl; lia|]. simpl. rewrite Ht2. simpl. rewrite Et.
  split; [done|]. unfold SCROLL_MS. lia.
Qed.

Lemma resize_inv client inner s : inv s → inv (resize client inner s).
Proof.
  intros (_ & _ & Ht). split; [done|]. split; [unfold resize, clamp, max_scroll; simpl; lia | done].
Qed.

Lemma carousel_step_inv s e s' : inv s → step s e = Some s' → inv s'.
Proof.
  intros H Hst. destruct e as [dir|x|client inner|dt|i]; simpl in Hst.
  - destruct (button_enabled dir s) eqn:Hb; [injection Hst as <- | done].
    apply scroll_inv; [done|]. unfold button_enabled in Hb.
    apply andb_true_iff in Hb as [_ Hb]. by apply negb_true_iff in Hb.
  - injection Hst as <-. destruct H as (Hc & Hr & Ht).
    destruct (scrollTo_spec x s Hc) as (Hc2 & Hp & _ & _ & _ & Hs2 & Hn2 & Ht2).
    pose proof (clamp_range (dom s) x). pose proof (max_scroll_scrollTo x s).
    split; [done|]. split; [lia|]. by rewrite Ht2, Hs2, Hn2.
  - injection Hst as <-. by apply resize_inv.
  - destruct (bool_decide _ && _) eqn:E; [injection Hst as <- | done].
    apply andb_true_iff in E as [Hdt%bool_decide_eq_true Hall].
    destruct H as (Hc & Hr & Ht). split; [done|]. split; [done|]. simpl.
    destruct (timers s) as [|t [|]]; [done | | done].
    simpl in Hall. rewrite andb_true_r in Hall. apply bool_decide_eq_true in Hall.
    destruct Ht as [? ?]. unfold SCROLL_MS in *. split; [done | lia].
  - destruct (timers s !! i) as [t|] eqn:Hi; [|done].
    case_bool_decide as Htn; [injection Hst as <- | done].
    destruct H as (Hc & Hr & Ht). split; [done|]. split; [done|]. simpl.
    destruct (timers s) as [|t' [|]]; [done | | done].
    destruct i as [|[]]; simpl in Hi; done.
Qed.

Lemma carousel_init_inv d : (0 ≤ scrollLeft d ≤ max_scroll d)%Z → inv (init d).
Proof. intros Hd. split; [done|]. by split. Qed.

Lemma step_now_mono s e s' : step s e = Some s' → (now s ≤ now s')%Z.
Proof.
  destruct e as [dir|x|client inner|dt|i]; simpl.
  - destruct (button_enabled dir s); [intros [= <-] | done]. unfold scroll.
    destruct (isScrolling s); [done|]. simpl.
    by rewrite (proj1 (proj2 (scrollTo_fields _ _))).
  - intros [= <-]. unfold scrollTo. case_bool_decide; done.
  - intros [= <-]. done.
  - destruct (bool_decide _ && _) eqn:E; [intros [= <-] | done].
    apply andb_true_iff in E as [?%bool_decide_eq_true _]. simpl. lia.
  - destruct (timers s !! i); [|done]. case_bool_decide; [intros [= <-] | done]. done.
Qed.

(** After a click at time [T - 500]: the timer of that click is the one
    pending and [isScrolling] is set, or [T] is past. *)
Definition spacing (T : Z) (s : State) : Prop :=
  (timers s = [T] ∧ isScrolling s = true) ∨ (T ≤ now s)%Z.

Lemma spacing_step T s e s' : spacing T s → step s e = Some s' → spacing T s'.
Proof.
  intros Hs Hst. pose proof (step_now_mono s e s' Hst) as Hm.
  destruct Hs as [[Ht Hsc] | Hle]; [|right; lia].
  destruct e as [dir|x|client inner|dt|i]; simpl in Hst.
  - unfold button_enabled in Hst. rewrite Hsc, andb_false_r in Hst. done.
  - injection Hst as <-. left.
    by destruct (scrollTo_fields x s) as (-> & _ & ->).
  - injection Hst as <-. by left.
  - destruct (bool_decide _ && _); [injection Hst as <- | done]. by left.
  - rewrite Ht in Hst. destruct i as [|i]; simpl in Hst; [|by destruct i].
    case_bool_decide as E; [injection Hst as <- | done]. right. simpl. lia.
Qed.

Lemma spacing_runs T s es s' : spacing T s → runs step s es = Some s' → spacing T s'.
Proof.
  revert s. induction es as [|e es IH]; intros s Hs; simpl; [by intros [= <-]|].
  destruct (step s e) as [s1|] eqn:Hst; [|done]. simpl. apply IH. by eapply spacing_step.
Qed.

(** ** Theorems *)

(** C29: From a mount at a position in range, every reachable state shows
    the left button exactly when [scrollLeft > 0] and the right one
    exactly when more than 10 px remain to the right; the position stays
    in [0, scrollWidth - clientWidth]; and [isScrolling] is set exactly
    while the single timer of the last scroll is pending, due within
    500 ms. *)
Theorem carousel_reach_inv d s :
  (0 ≤ scrollLeft d ≤ max_scroll d)%Z → reach step (init d) s → inv s.
Proof.
  intros Hd. apply reach_ind_inv; [by apply carousel_init_inv | intros; by eapply carousel_step_inv].
Qed.

(** C30: Two accepted clicks on the scroll buttons are at least 500 ms
    apart: after a click, whatever happens, a scroll button is enabled
    again only once 500 ms have passed. *)
Theorem click_spacing s d1 s1 es s2 d2 :
  inv s → step s (Click d1) = Some s1 → runs step s1 es = Some s2 →
  button_enabled d2 s2 = true → (now s1 + SCROLL_MS ≤ now s2)%Z.
Proof.
  intros (_ & _ & Ht) Hst Hrun Hb. simpl in Hst.
  destruct (button_enabled d1 s) eqn:Hb1; [injection Hst as <- | done].
  unfold button_enabled in Hb1. apply andb_true_iff in Hb1 as [_ Hsc%negb_true_iff].
  assert (Hsp : spacing (now (scroll d1 s) + SCROLL_MS) (scroll d1 s)).
  { left. unfold scroll. rewrite Hsc. simpl.
    destruct (scrollTo_fields (scrollLeft (dom s) +
                (if d1 is Left then - scrollAmount (setIsScrolling true s)
                 else scrollAmount (setIsScrolling true s)))%Z (setIsScrolling true s))
      as (Hs' & Hn' & Ht'). rewrite Hs', Hn', Ht'. simpl.
    destruct (timers s) as [|t [|]]; [done | destruct Ht; congruence | done]. }
  destruct (spacing_runs _ _ _ _ Hsp Hrun) as [[_ Hs2] | Hle]; [|done].
  unfold button_enabled in Hb. rewrite Hs2, andb_false_r in Hb. done.
Qed.

Lemma scroll_geometry dir s x :
  isScrolling s = false → consistent s →
  x = (scrollLeft (dom s) + (if dir is Left then - scrollAmount s else scrollAmount s))%Z →
  (0 ≤ x ≤ max_scroll (dom s))%Z → x ≠ scrollLeft (dom s) →
  dom (scroll dir s) = with_scrollLeft x (dom s) ∧ isScrolling (scroll dir s) = true ∧
  timers (scroll dir s) = timers s ++ [now s + SCROLL_MS]%Z ∧ now (scroll dir s) = now s ∧
  consistent (scroll dir s).
Proof.
  intros Hs Hc -> Hx Hne. unfold scroll. rewrite Hs. unfold scrollTo. simpl.
  rewrite clamp_id by done. rewrite bool_decide_false by done. done.
Qed.

(** Scrolling right by one step and, once the animation timer has
    fired, left by one step comes back to the same position, when the
    first step is not clamped at the end. *)
Theorem scroll_right_left s :
  inv s → canScrollRight s = true → isScrolling s = false →
  (scrollLeft (dom s) + scrollAmount s ≤ max_scroll (dom s))%Z →
  ∃ s', runs step s [Click Right; Wait SCROLL_MS; Fire 0; Click Left] = Some s' ∧
        scrollLeft (dom s') = scrollLeft (dom s).
Proof.
  intros (Hc & Hr & Ht) Hcr Hs Hmax.
  assert (Ha : (0 < scrollAmount s)%Z) by (unfold scrollAmount; destruct (_ <? _)%Z; lia).
  destruct (timers s) as [|t [|]] eqn:Et; [|destruct Ht; congruence|done].
  destruct (scroll_geometry Right s _ Hs Hc eq_refl ltac:(simpl; lia) ltac:(simpl; lia))
    as (Hd1 & Hs1 & Ht1 & Hn1 & Hc1).
  assert (Hb : button_enabled Right s = true) by (unfold button_enabled; simpl; by rewrite Hcr, Hs).
  rewrite (runs_cons_some _ _ _ (scroll Right s)) by (simpl; by rewrite Hb).
  set (s1 := scroll Right s) in *.
  rewrite (runs_cons_some _ _ _ (set_now (now s + SCROLL_MS) s1)).
  2:{ simpl. rewrite Ht1, Et, Hn1. simpl. rewrite bool_decide_true by lia. done. }
  set (s2 := set_now _ s1).
  set (s3 := checkScrollButtons (setIsScrolling false (set_timers [] s2))).
  rewrite (runs_cons_some _ _ _ s3).
  2:{ simpl. rewrite Ht1, Et. simpl. by rewrite bool_decide_true. }
  assert (Hc3 : consistent s3) by apply check_consistent.
  assert (Hd3 : dom s3 = with_scrollLeft (scrollLeft (dom s) + scrollAmount s) (dom s)) by (simpl; by rewrite Hd1).
  assert (Hl : button_enabled Left s3 = true).
  { unfold button_enabled. destruct Hc3 as [-> _]. rewrite Hd3. simpl. apply andb_true_iff.
    split; [apply Z.ltb_lt; lia | done]. }
  rewrite (runs_cons_some _ _ _ (scroll Left s3)) by (simpl; by rewrite Hl).
  assert (Hamt : scrollAmount s3 = scrollAmount s) by (unfold scrollAmount; by rewrite Hd3).
  destruct (scroll_geometry Left s3 (scrollLeft (dom s)) ltac:(done) Hc3)
    as (Hd4 & _); [rewrite Hamt, Hd3; simpl; lia | rewrite Hd3; unfold max_scroll in *; simpl; lia | rewrite Hd3; simpl; lia |].
  eexists. split; [reflexivity|]. by rewrite Hd4.
Qed.



Lemma scrollAmount_dom s s' : dom s' = with_scrollLeft (scrollLeft (dom s')) (dom s) → scrollAmount s' = scrollAmount s.
Proof. unfold scrollAmount. by intros ->. Qed.





(** A row of 2000 px in an 800 px element, on a 1280 px window. *)
Definition d0 : Dom := mkDom 0 2000 800 1280.

Lemma carousel_reach_inv_witness :
  reach step (init d0) (scroll Right (init d0)) ∧ inv (scroll Right (init d0)).
Proof.
  assert (H : reach step (init d0) (scroll Right (init d0)))
    by (eapply (reach_next _ _ _ (Click Right)); [constructor | reflexivity]).
  split; [exact H|]. apply (carousel_reach_inv d0); [vm_compute; split; discriminate | exact H].
Defined.

Lemma click_spacing_witness :
  (now (scroll Right (init d0)) + SCROLL_MS ≤
   now (default (init d0) (runs step (scroll Right (init d0)) [Wait 500; Fire 0])))%Z.
Proof.
  apply (click_spacing (init d0) Right _ [Wait 500; Fire 0] _ Left);
    [apply carousel_init_inv; vm_compute; split; discriminate | reflexivity | reflexivity | reflexivity].
Defined.


Lemma scroll_right_left_witness :
  ∃ s', runs step (init d0) [Click Right; Wait SCROLL_MS; Fire 0; Click Left] = Some s' ∧
        scrollLeft (dom s') = scrollLeft (dom (init d0)).
Proof.
  apply scroll_right_left;
    [apply carousel_init_inv; vm_compute; split; discriminate | reflexivity | reflexivity | vm_compute; discriminate].
Defined.

End Carousel.
