(* ===== verification/Header.v ===== *)
(** * The site header, [src/components/Header.tsx], with its two search boxes

    The header keeps two [useState] flags ([isMenuOpen], [isSearchOpen])
    and renders two [SearchBar]s: the desktop one, always mounted (CSS
    hides it on small screens), and the mobile one, mounted only while
    [isSearchOpen] and given [onClose={() => setIsSearchOpen(false)}].
    Unmounting a [SearchBar] discards its state, its debounce timer
    included; mounting it again starts from its first render.  The state
    here is the two flags with the state of each mounted search box, and
    the events are the header's buttons and links, the events of each
    search box, and time passing, which both boxes see.  What the header
    does outside itself is a navigation of a link, or what a search box
    does. *)

From S2P Require Import Prelude JsString Url Json Fetch Tmdb SearchRoute SearchBar.
Import Json.

Module Header.

Record State := mkState {
  isMenuOpen : bool;
  isSearchOpen : bool;
  desktop : SearchBar.State;
  mobile : option SearchBar.State
}.

Inductive Event : Type :=
| ToggleSearch                     (** the search icon, [md:hidden] *)
| ToggleMenu                       (** the menu icon, [lg:hidden] *)
| NavLink (i : nat)                (** a link of the desktop [nav] *)
| MenuLink (i : nat)               (** a link of the mobile menu *)
| Desktop (e : SearchBar.Event)    (** an event of the desktop search box *)
| Mobile (e : SearchBar.Event)     (** an event of the mobile search box *)
| Tick (dt : Z).                   (** [dt] ms pass *)

Inductive Output : Type :=
| Go (href : string)               (** a [Link] is followed *)
| Bar (o : SearchBar.Output).      (** what a search box does *)

(** The links of both navigations, in order. *)
Definition links : list (string * string) :=
  [("/", "Home"); ("#trending", "Trending"); ("#top-rated", "Top Rated");
   ("#airing-today", "New Episodes")]%string.

(** The first render: both flags false, the desktop box mounted. *)
Definition init : State := mkState false false SearchBar.init None.

(** [setIsSearchOpen(v)]: the mobile box mounts or unmounts with it. *)
Definition setIsSearchOpen (v : bool) (s : State) : State :=
  mkState (isMenuOpen s) v (desktop s)
    (if v then (if isSearchOpen s then mobile s else Some SearchBar.init) else None).

Definition setIsMenuOpen (v : bool) (s : State) : State :=
  mkState v (isSearchOpen s) (desktop s) (mobile s).

Definition set_desktop (b : SearchBar.State) (s : State) : State :=
  mkState (isMenuOpen s) (isSearchOpen s) b (mobile s).

Definition set_mobile (b : SearchBar.State) (s : State) : State :=
  mkState (isMenuOpen s) (isSearchOpen s) (desktop s) (Some b).

Definition bar_outputs (os : list SearchBar.Output) : list Output := Bar <$> os.

(** Time is not an event of one box: both see it through [Tick]. *)
Definition local_event (e : SearchBar.Event) : bool :=
  if e is SearchBar.Tick _ then false else true.

(** The mobile box called [onClose]. *)
Definition closes (os : list SearchBar.Output) : bool :=
  existsb (λ o, if o is SearchBar.CallOnClose then true else false) os.

Definition step (s : State) (e : Event) : option (State * list Output) :=
  match e with
  | ToggleSearch => Some (setIsSearchOpen (negb (isSearchOpen s)) s, [])
  | ToggleMenu => Some (setIsMenuOpen (negb (isMenuOpen s)) s, [])
  | NavLink i => l ← links !! i; Some (s, [Go l.1])
  | MenuLink i =>
      if isMenuOpen s then l ← links !! i; Some (setIsMenuOpen false s, [Go l.1]) else None
  | Desktop e =>
      if local_event e then
        '(b, os) ← SearchBar.step (desktop s) e; Some (set_desktop b s, bar_outputs os)
      else None
  | Mobile e =>
      if local_event e then
        b ← mobile s;
        '(b', os) ← SearchBar.step b e;
        Some (if closes os then setIsSearchOpen false s else set_mobile b' s, bar_outputs os)
      else None
  | Tick dt =>
      '(d, os) ← SearchBar.step (desktop s) (SearchBar.Tick dt);
      match mobile s with
      | Some b =>
          '(m, os') ← SearchBar.step b (SearchBar.Tick dt);
          Some (set_mobile m (set_desktop d s), bar_outputs (os ++ os'))
      | None => Some (set_desktop d s, bar_outputs os)
      end
  end.

(** ** The render *)

(** The menu button's icon ([X] while the menu is open), whether the
    mobile search panel and the mobile menu are shown, and the links. *)
Record View := mkView {
  menu_icon_close : bool;
  search_panel : bool;
  menu_panel : option (list (string * string));
  nav : list (string * string)
}.

Definition view (s : State) : View :=
  mkView (isMenuOpen s) (isSearchOpen s) (if isMenuOpen s then Some links else None) links.

(** ** The invariant *)

(** The mobile box is mounted exactly while the panel is open, and both
    boxes keep the invariant of [SearchBar]. *)
Definition inv (s : State) : Prop :=
  SearchBar.inv (desktop s) ∧
  match mobile s with
  | Some b => isSearchOpen s = true ∧ SearchBar.inv b
  | None => isSearchOpen s = false
  end.

(** The header as a machine on states. *)
Definition next (s : State) (e : Event) : option State := fst <$> step s e.

(** ** Lemmas *)

Lemma setIsSearchOpen_inv v s : inv s → inv (setIsSearchOpen v s).
Proof.
  intros [Hd Hm]. split; [done|]. simpl.
  destruct v; [|done]. destruct (isSearchOpen s) eqn:Ho.
  - destruct (mobile s); [done | congruence].
  - split; [done | apply SearchBar.init_inv].
Qed.

Lemma bar_step_inv b e b' os : SearchBar.inv b → SearchBar.step b e = Some (b', os) → SearchBar.inv b'.
Proof. intros. by eapply SearchBar.step_inv. Qed.

Lemma header_step_inv s e s' os : inv s → step s e = Some (s', os) → inv s'.
Proof.
  intros H Hst. destruct e as [| |i|i|e|e|dt]; simpl in Hst.
  - injection Hst as <- _. by apply setIsSearchOpen_inv.
  - injection Hst as <- _. done.
  - destruct (links !! i); simpl in Hst; [by injection Hst as <- _ | done].
  - destruct (isMenuOpen s); [|done].
    destruct (links !! i); simpl in Hst; [by injection Hst as <- _ | done].
  - destruct (local_event e); [|done].
    destruct (SearchBar.step (desktop s) e) as [[b os']|] eqn:E; simpl in Hst; [|done].
    injection Hst as <- _. destruct H as [Hd Hm]. split; [by eapply bar_step_inv | done].
  - destruct (local_event e); [|done].
    destruct (mobile s) as [b|] eqn:Em; simpl in Hst; [|done].
    destruct (SearchBar.step b e) as [[b' os']|] eqn:E; simpl in Hst; [|done].
    injection Hst as <- _. destruct (closes os'); [by apply setIsSearchOpen_inv|].
    destruct H as [Hd Hm]. rewrite Em in Hm. destruct Hm as [Ho Hb].
    split; [done|]. split; [done | by eapply bar_step_inv].
  - destruct H as [Hd Hm].
    destruct (SearchBar.tick dt (desktop s)) as [d os'] eqn:E.
    assert (Ed : SearchBar.step (desktop s) (SearchBar.Tick dt) = Some (d, os')) by (simpl; by rewrite E).
    destruct (mobile s) as [b|] eqn:Em.
    + destruct (SearchBar.tick dt b) as [m os''] eqn:E'.
      assert (Em' : SearchBar.step b (SearchBar.Tick dt) = Some (m, os'')) by (simpl; by rewrite E').
      injection Hst as <- _. destruct Hm as [Ho Hb].
      split; [exact (bar_step_inv _ _ _ _ Hd Ed)|]. split; [done | exact (bar_step_inv _ _ _ _ Hb Em')].
    + injection Hst as <- _. split; [exact (bar_step_inv _ _ _ _ Hd Ed)|]. simpl. by rewrite Em.
Qed.

Lemma header_init_inv : inv init.
Proof. split; [apply SearchBar.init_inv | done]. Qed.

Lemma closes_spec os : closes os = true → Bar SearchBar.CallOnClose ∈ bar_outputs os.
Proof.
  unfold closes, bar_outputs. intros (o & Ho & Hc)%existsb_exists.
  destruct o; try done. apply list_elem_of_fmap. exists SearchBar.CallOnClose.
  split; [done | by apply list_elem_of_In].
Qed.

(** ** Theorems *)

(** C31: In every reachable state of the header the mobile search box is
    mounted exactly while its panel is open, and both search boxes keep
    the invariant of [SearchBar]. *)
Theorem header_reach_inv s : reach next init s → inv s.
Proof.
  apply reach_ind_inv; [apply header_init_inv|]. intros s0 e s1 H. unfold next.
  destruct (step s0 e) as [[s2 os]|] eqn:Hst; simpl; [intros [= <-] | done].
  by eapply header_step_inv.
Qed.

(** The mobile search panel opens or closes only by its icon, or by
    the mobile search box calling [onClose]; the desktop box, which has no
    [onClose], never closes it. *)
Theorem search_panel_changes s e s' os :
  step s e = Some (s', os) → isSearchOpen s' ≠ isSearchOpen s →
  e = ToggleSearch ∨ (∃ e', e = Mobile e' ∧ Bar SearchBar.CallOnClose ∈ os).
Proof.
  intros Hst Hne. destruct e as [| |i|i|e|e|dt]; simpl in Hst; [by left | ..]; right.
  - by injection Hst as <- _.
  - destruct (links !! i); simpl in Hst; [by injection Hst as <- _ | done].
  - destruct (isMenuOpen s); [|done].
    destruct (links !! i); simpl in Hst; [by injection Hst as <- _ | done].
  - destruct (local_event e); [|done].
    destruct (SearchBar.step (desktop s) e) as [[b os']|]; simpl in Hst; [|done].
    by injection Hst as <- _.
  - destruct (local_event e); [|done].
    destruct (mobile s) as [b|]; simpl in Hst; [|done].
    destruct (SearchBar.step b e) as [[b' os']|]; simpl in Hst; [|done].
    injection Hst as <- <-. exists e. split; [done|].
    destruct (closes os') eqn:Hc; [by apply closes_spec | done].
  - destruct (SearchBar.tick dt (desktop s)) as [d os']; simpl in Hst.
    destruct (mobile s) as [b|]; [destruct (SearchBar.tick dt b) as [m os'']|];
      simpl in Hst; injection Hst as <- _; done.
Qed.

(** C32: Picking a listed result in the mobile search box closes the
    panel and unmounts the box, after calling [onClose] and navigating to
    the show. *)
Theorem mobile_result_click_closes s b i r :
  mobile s = Some b → SearchBar.listed b i = Some r →
  step s (Mobile (SearchBar.ResultClick i)) =
    Some (setIsSearchOpen false s,
          [Bar SearchBar.CallOnClose; Bar (SearchBar.NavigateTv (jget r "id"))]) ∧
  mobile (setIsSearchOpen false s) = None ∧ isSearchOpen (setIsSearchOpen false s) = false.
Proof.
  intros Hm Hl.
  assert (Hs : SearchBar.step b (SearchBar.ResultClick i) =
               Some (SearchBar.handleResultClick (jget r "id") b)) by (unfold SearchBar.step; by rewrite Hl).
  cbn -[SearchBar.step]. rewrite Hm. cbn -[SearchBar.step]. by rewrite Hs.
Qed.

Lemma header_reach_inv_witness :
  reach next init (setIsSearchOpen true init) ∧ inv (setIsSearchOpen true init).
Proof.
  assert (H : reach next init (setIsSearchOpen true init))
    by (eapply (reach_next _ _ _ ToggleSearch); [constructor | reflexivity]).
  split; [exact H | exact (header_reach_inv _ H)].
Defined.

Lemma search_panel_changes_witness :
  ToggleSearch = ToggleSearch ∨
  (∃ e', ToggleSearch = Mobile e' ∧ Bar SearchBar.CallOnClose ∈ ([] : list Output)).
Proof.
  apply (search_panel_changes init ToggleSearch (setIsSearchOpen true init) []);
    [reflexivity | discriminate].
Defined.

(** The mobile box opened, a search typed and answered. *)
Definition answered : State :=
  default init (runs next init
    [ToggleSearch; Mobile (SearchBar.Type_ "a"); Tick 500;
     Mobile (SearchBar.Answer 0 (SearchBar.Body (Some (results_obj [SearchBar.show 7]))))]).

Lemma mobile_result_click_closes_witness :
  step answered (Mobile (SearchBar.ResultClick 0)) =
    Some (setIsSearchOpen false answered,
          [Bar SearchBar.CallOnClose; Bar (SearchBar.NavigateTv (jget (SearchBar.show 7) "id"))]) ∧
  mobile (setIsSearchOpen false answered) = None ∧ isSearchOpen (setIsSearchOpen false answered) = false.
Proof.
  apply (mobile_result_click_closes answered (default SearchBar.init (mobile answered)));
    vm_compute; reflexivity.
Defined.

End Header.
