(* ===== verification/EpisodeViewer.v ===== *)
(** * The episode viewer, [src/components/EpisodeViewer.tsx]

    The viewer keeps [currentEpisode] and [isScrolling] ([useState]), the
    timeout of [scrollTimeoutRef] that ends [isScrolling] 150 ms after the
    last [scroll] event, and reads the layout of its scrolling container
    and of the episode elements ([episodeRefs]).  [handleScroll] sets the
    current episode to the one whose centre is closest to the container's
    centre, the first one on a tie; [closestEpisode] is that loop as the
    code writes it, and [first_closest] a recursive reference that the
    theorems relate it to.  Layout values are JavaScript numbers, here
    rationals; an element that is not mounted is a [null] ref, skipped by
    the loop.  The browser clamps [scrollTop] to [0, scrollHeight -
    clientHeight] and fires [scroll] when it changes; [scrollIntoView]
    with [block: "center"] asks for the position that puts the element's
    centre at the container's centre.

    [offsetTop] is measured from the element's [offsetParent], the nearest
    positioned ancestor: the container (lines 148-156) has no [position],
    so that is the outer [relative] div of line 113, which also holds the
    sticky header (lines 114-146).  An episode's [offsetTop] is therefore
    its position in the container's content plus the container's own
    [offsetTop] below that div, the header's height ([containerTop]); it
    does not change as the container scrolls.  [scrollIntoView] centres
    the element itself, while [handleScroll] compares [scrollTop +
    clientHeight / 2] with [offsetTop + clientHeight / 2]: the two differ
    by [containerTop].

    The props are the [Episode] interface of the file: the model takes the
    episodes at their declared types. *)

From S2P Require Import Prelude JsString.
From Stdlib Require Import QArith_base Qabs Lqa.
Close Scope Q_scope.

Module EpisodeViewer.

(** ** Data *)

(** [interface Episode]. *)
Record Episode := mkEpisode {
  ep_id : Z;
  ep_name : string;
  ep_overview : string;
  still_path : option string;
  episode_number : Z;
  season_number : Z;
  runtime : option Z;
  air_date : string;
  vote_average : Q
}.

(** The layout of an episode element: [offsetTop] (from the outer
    [relative] div), [clientHeight]. *)
Record Box := mkBox {
  offsetTop : Q;
  boxHeight : Q
}.

(** The scrolling container: [scrollTop], [clientHeight], [scrollHeight],
    and its own [offsetTop] below the outer [relative] div, the height of
    the sticky header. *)
Record Container := mkContainer {
  scrollTop : Q;
  clientHeight : Q;
  scrollHeight : Q;
  containerTop : Q
}.

(** [a < b] on numbers. *)
Definition qlt (a b : Q) : bool := negb (Qle_bool b a).

(** [distance < closestDistance], where [closestDistance] starts at
    [Number.POSITIVE_INFINITY] ([None]). *)
Definition below (d : Q) (best : option Q) : bool :=
  match best with None => true | Some b => qlt d b end.

(** [episodeTop + episodeHeight / 2]. *)
Definition center_of (b : Box) : Q := (offsetTop b + boxHeight b / 2)%Q.

(** [containerTop + containerHeight / 2]. *)
Definition centerPoint (c : Container) : Q := (scrollTop c + clientHeight c / 2)%Q.

(** [Math.abs(centerPoint - episodeCenter)]. *)
Definition dist (center : Q) (b : Box) : Q := Qabs (center - center_of b).

(** One iteration of [episodeRefs.current.forEach((ref, index) => ...)]
    on the pair [(closestEpisode, closestDistance)]. *)
Definition closest_step (center : Q) (acc : nat * option Q) (p : nat * option Box) : nat * option Q :=
  match p.2 with
  | Some ref =>
      let distance := dist center ref in
      if below distance acc.2 then (p.1, Some distance) else acc
  | None => acc
  end.

(** The loop of [handleScroll]. *)
Definition closestEpisode (c : Container) (refs : list (option Box)) : nat :=
  (foldl (closest_step (centerPoint c)) (0, None) (zip (seq 0 (length refs)) refs)).1.

(** The reference: the first mounted element at the least distance, with
    that distance, the indices counted from [i]. *)
Fixpoint first_closest (center : Q) (i : nat) (refs : list (option Box)) : option (nat * Q) :=
  match refs with
  | [] => None
  | None :: rs => first_closest center (S i) rs
  | Some b :: rs =>
      let d := dist center b in
      match first_closest center (S i) rs with
      | Some (j, dj) => if Qle_bool d dj then Some (i, d) else Some (j, dj)
      | None => Some (i, d)
      end
  end.

(** ** Lemmas on the loop *)

Lemma qlt_spec a b : qlt a b = true ↔ (a < b)%Q.
Proof.
  unfold qlt. rewrite negb_true_iff. split.
  - intros H. apply Qnot_le_lt. intros Hle. apply Qle_bool_iff in Hle. congruence.
  - intros H. destruct (Qle_bool b a) eqn:E; [|done]. apply Qle_bool_iff in E. lra.
Qed.

Lemma qlt_false a b : qlt a b = false ↔ (b <= a)%Q.
Proof. unfold qlt. rewrite negb_false_iff. apply Qle_bool_iff. Qed.

Lemma Qle_bool_false a b : Qle_bool a b = false ↔ (b < a)%Q.
Proof.
  split.
  - intros H. apply Qnot_le_lt. intros Hle. apply Qle_bool_iff in Hle. congruence.
  - intros H. destruct (Qle_bool a b) eqn:E; [|done]. apply Qle_bool_iff in E. lra.
Qed.

(** Case analysis on the comparisons of the loop, as propositions. *)
Ltac qcmp :=
  repeat match goal with
  | |- context [qlt ?a ?b] =>
      let E := fresh "E" in destruct (qlt a b) eqn:E; [apply qlt_spec in E | apply qlt_false in E]
  | |- context [Qle_bool ?a ?b] =>
      let E := fresh "E" in destruct (Qle_bool a b) eqn:E; [apply Qle_bool_iff in E | apply Qle_bool_false in E]
  end.

(** What the rest of the loop does to the pair, given the reference's
    answer on the rest. *)
Definition merge (acc : nat * option Q) (r : option (nat * Q)) : nat * option Q :=
  match r with
  | None => acc
  | Some (j, dj) => if below dj acc.2 then (j, Some dj) else acc
  end.

Lemma fold_first_closest center k refs acc :
  foldl (closest_step center) acc (zip (seq k (length refs)) refs) =
  merge acc (first_closest center k refs).
Proof.
  revert k acc. induction refs as [|[b|] refs IH]; intros k acc; [done| |]; simpl; rewrite IH; [|done].
  unfold closest_step. simpl. destruct (first_closest center (S k) refs) as [[j dj]|]; [|done].
  destruct acc as [a [best|]]; simpl; qcmp; simpl; qcmp; try done; lra.
Qed.

(** What the reference finds: a mounted element, at a distance no
    greater than any other's, and strictly smaller than that of every
    element before it. *)
Lemma first_closest_spec center k refs i d :
  first_closest center k refs = Some (i, d) →
  k ≤ i ∧ (∃ b, refs !! (i - k) = Some (Some b) ∧ d = dist center b) ∧
  (∀ j b, refs !! j = Some (Some b) → (d <= dist center b)%Q) ∧
  (∀ j b, k + j < i → refs !! j = Some (Some b) → (d < dist center b)%Q).
Proof.
  revert k i d. induction refs as [|r refs IH]; intros k i d; [done|]. destruct r as [b|]; simpl.
  - destruct (first_closest center (S k) refs) as [[j dj]|] eqn:E.
    + destruct (IH _ _ _ E) as (Hk & (b' & Hb' & ->) & Hmin & Hfirst).
      destruct (Qle_bool (dist center b) (dist center b')) eqn:Hle; intros [= <- <-].
      * apply Qle_bool_iff in Hle. split; [lia|]. split.
        { exists b. by rewrite Nat.sub_diag. }
        split; [|intros j0 b0 Hj; lia].
        intros [|j0] b0; simpl; [intros [= <-]; lra|]. intros H. specialize (Hmin _ _ H). lra.
      * apply Qle_bool_false in Hle. split; [lia|]. split.
        { exists b'. replace (j - k) with (S (j - S k)) by lia. simpl. by rewrite Hb'. }
        split.
        { intros [|j0] b0; simpl; [intros [= <-]; lra | apply Hmin]. }
        intros [|j0] b0 Hj; simpl; [intros [= <-]; lra|]. apply Hfirst. lia.
    + intros [= <- <-]. split; [lia|]. split; [exists b; by rewrite Nat.sub_diag|].
      split; [|intros; lia].
      intros [|j0] b0; simpl; [intros [= <-]; lra|].
      intros H. exfalso. clear IH. revert E H. generalize (S k). revert j0.
      induction refs as [|[b1|] refs IH']; intros j0 k' E H; [done| |].
      * simpl in E. destruct (first_closest center (S k') refs) as [[]|]; [case_match|]; done.
      * destruct j0; [done|]. simpl in E, H. by eapply IH'.
  - intros E. destruct (IH _ _ _ E) as (Hk & (b' & Hb' & ->) & Hmin & Hfirst).
    split; [lia|]. split; [exists b'; replace (i - k) with (S (i - S k)) by lia; simpl; by rewrite Hb'|].
    split.
    + intros [|j0] b0; simpl; [done | apply Hmin].
    + intros [|j0] b0 Hj; simpl; [done|]. apply Hfirst. lia.
Qed.

Lemma first_closest_none center k refs :
  first_closest center k refs = None → ∀ j b, refs !! j ≠ Some (Some b).
Proof.
  revert k. induction refs as [|[b|] refs IH]; intros k E j b0; [done| |].
  - simpl in E. destruct (first_closest center (S k) refs) as [[]|]; [case_match|]; done.
  - destruct j; [done|]. simpl. by apply (IH (S k)).
Qed.

(** ** The component *)

Definition SCROLL_END_MS : Z := 150.

Record State := mkState {
  currentEpisode : nat;
  isScrolling : bool;
  container : Container;
  now : Z;
  scrollTimeout : option Z      (** [scrollTimeoutRef.current], while pending *)
}.

Definition setCurrentEpisode v s := mkState v (isScrolling s) (container s) (now s) (scrollTimeout s).
Definition setIsScrolling v s := mkState (currentEpisode s) v (container s) (now s) (scrollTimeout s).
Definition set_container v s := mkState (currentEpisode s) (isScrolling s) v (now s) (scrollTimeout s).
Definition set_now v s := mkState (currentEpisode s) (isScrolling s) (container s) v (scrollTimeout s).
Definition set_timeout v s := mkState (currentEpisode s) (isScrolling s) (container s) (now s) v.

Inductive Event : Type :=
| ScrollTo (top : Q)          (** the user, or a smooth scroll, moves the container *)
| Wait (dt : Z)
| FireTimeout
| ClickEpisode (i : nat).     (** the [i]-th episode button *)

Section Viewer.
(** The episodes and the layout of their elements, [null] for one that is
    not mounted; the component renders one element per episode. *)
Context (episodes : list Episode) (refs : list (option Box)).

(** [handleScroll]: [isScrolling] is set, the pending timeout is cleared
    and a new one of 150 ms started, and the closest episode becomes the
    current one. *)
Definition handleScroll (s : State) : State :=
  setCurrentEpisode (closestEpisode (container s) refs)
    (set_timeout (Some (now s + SCROLL_END_MS)%Z) (setIsScrolling true s)).

(** The largest [scrollTop]. *)
Definition max_top (c : Container) : Q := (scrollHeight c - clientHeight c)%Q.

Definition clampQ (lo hi x : Q) : Q :=
  if Qle_bool x lo then lo else if Qle_bool hi x then (if Qle_bool hi lo then lo else hi) else x.

Definition with_top (x : Q) (c : Container) : Container :=
  mkContainer x (clientHeight c) (scrollHeight c) (containerTop c).

(** The container scrolls to [x], clamped; a change fires [scroll]. *)
Definition set_scrollTop (x : Q) (s : State) : State :=
  let x' := clampQ 0 (max_top (container s)) x in
  if Qeq_bool x' (scrollTop (container s)) then s
  else handleScroll (set_container (with_top x' (container s)) s).

(** The [scrollTop] at which [scrollIntoView({ block: "center" })] puts
    the centre of element [b] at the centre of container [c]: the element
    lies at [offsetTop b - containerTop c] in the container's content. *)
Definition center_target (c : Container) (b : Box) : Q :=
  (offsetTop b - containerTop c + boxHeight b / 2 - clientHeight c / 2)%Q.

(** [scrollToEpisode(index)]: [scrollIntoView({ block: "center" })] of a
    mounted element. *)
Definition scrollToEpisode (index : nat) (s : State) : State :=
  match refs !! index with
  | Some (Some b) => set_scrollTop (center_target (container s) b) s
  | _ => s
  end.

Definition step (s : State) (e : Event) : option State :=
  match e with
  | ScrollTo x => Some (set_scrollTop x s)
  | Wait dt =>
      if bool_decide (0 ≤ dt)%Z &&
         from_option (λ t, bool_decide (now s + dt ≤ t)%Z) true (scrollTimeout s)
      then Some (set_now (now s + dt) s) else None
  | FireTimeout =>
      match scrollTimeout s with
      | Some t => if bool_decide (t = now s) then Some (set_timeout None (setIsScrolling false s)) else None
      | None => None
      end
  | ClickEpisode i => if bool_decide (i < length episodes) then Some (scrollToEpisode i s) else None
  end.

(** The first render. *)
Definition init (c : Container) : State := mkState 0 false c 0 None.

(** ** The render *)

(** The still image: the TMDB URL of [still_path], or the placeholder. *)
Inductive Still : Type :=
| StillImage (path : string)
| StillPlaceholder.

(** [{episode.runtime && (...)}]: nothing for [null], the runtime in
    minutes, or, for a runtime of [0], the [0] that React renders. *)
Inductive RuntimeSlot : Type :=
| NoRuntime
| StrayZero
| Minutes (m : Z).

Record Card := mkCard {
  card_key : Z;
  highlighted : bool;           (** [currentEpisode === index && !isScrolling] *)
  still : Still;
  alt : string;
  priority : bool;              (** [index <= 2] *)
  badge_number : Z;
  rating : option Q;            (** [vote_average.toFixed(1)] when positive *)
  progress : bool;              (** the bar under the current episode *)
  title : string;
  runtime_slot : RuntimeSlot;
  date : option string;
  description : string;
  chevron : bool                (** [index < episodes.length - 1] *)
}.

Definition card (s : State) (index : nat) (episode : Episode) : Card :=
  mkCard (ep_id episode)
    (bool_decide (currentEpisode s = index) && negb (isScrolling s))
    (match still_path episode with Some p => if JsString.truthy p then StillImage p else StillPlaceholder
                                    | None => StillPlaceholder end)
    (ep_name episode) (bool_decide (index ≤ 2)) (episode_number episode)
    (if qlt 0 (vote_average episode) then Some (vote_average episode) else None)
    (bool_decide (currentEpisode s = index)) (ep_name episode)
    (match runtime episode with
     | None => NoRuntime
     | Some m => if bool_decide (m = 0%Z) then StrayZero else Minutes m
     end)
    (if JsString.truthy (air_date episode) then Some (air_date episode) else None)
    (if JsString.truthy (ep_overview episode) then ep_overview episode
     else "No description available for this episode.")
    (bool_decide (Z.of_nat index < Z.of_nat (length episodes) - 1)%Z).

(** The sticky header: the season, the number of episodes, the badge
    [{currentEpisode + 1} of {episodes.length}], and the buttons (episode
    number, whether it is the current one). *)
Inductive View : Type :=
| NoEpisodes
| Viewer (season : Z) (count : nat) (badge : nat * nat) (buttons : list (Z * bool)) (cards : list Card).

Definition view (seasonNumber : Z) (s : State) : View :=
  if bool_decide (length episodes = 0) then NoEpisodes
  else Viewer seasonNumber (length episodes) (S (currentEpisode s), length episodes)
         (imap (λ index episode, (episode_number episode, bool_decide (currentEpisode s = index))) episodes)
         (imap (card s) episodes).

(** ** The invariant *)

(** The current episode is an episode of the list (or [0] for an empty
    list), and [isScrolling] is set exactly while the timeout is pending,
    due within 150 ms. *)
Definition inv (s : State) : Prop :=
  currentEpisode s < Nat.max 1 (length refs) ∧
  match scrollTimeout s with
  | Some t => isScrolling s = true ∧ (now s ≤ t ≤ now s + SCROLL_END_MS)%Z
  | None => isScrolling s = false
  end.

End Viewer.

(** ** Lemmas on the component *)

Lemma dist_nonneg c b : (0 <= dist c b)%Q.
Proof. apply Qabs_nonneg. Qed.

Lemma dist_zero_iff c b : (dist c b == 0)%Q ↔ (c == center_of b)%Q.
Proof.
  unfold dist. destruct (Qlt_le_dec (c - center_of b) 0) as [H|H].
  - rewrite Qabs_neg by lra. lra.
  - rewrite Qabs_pos by lra. lra.
Qed.

Lemma closestEpisode_bound c refs : closestEpisode c refs < Nat.max 1 (length refs).
Proof.
  unfold closestEpisode. rewrite fold_first_closest.
  destruct (first_closest (centerPoint c) 0 refs) as [[j dj]|] eqn:E; simpl; [|lia].
  destruct (first_closest_spec _ _ _ _ _ E) as (_ & (b & Hb & _) & _).
  rewrite Nat.sub_0_r in Hb. apply lookup_lt_Some in Hb. lia.
Qed.

Lemma clampQ_eq lo hi x : (lo <= x)%Q → (x <= hi)%Q → (clampQ lo hi x == x)%Q.
Proof. intros. unfold clampQ. qcmp; lra. Qed.

Lemma viewer_step_inv episodes refs s e s' :
  inv refs s → step episodes refs s e = Some s' → inv refs s'.
Proof.
  intros [Hc Ht] Hst. destruct e as [x|dt| |i]; simpl in Hst.
  - injection Hst as <-. unfold set_scrollTop.
    destruct (Qeq_bool _ _); [done|]. split; [apply closestEpisode_bound|]. simpl. unfold SCROLL_END_MS. lia.
  - destruct (bool_decide _ && _) eqn:E; [injection Hst as <- | done].
    apply andb_true_iff in E as [Hdt%bool_decide_eq_true Hle]. split; [done|]. simpl.
    destruct (scrollTimeout s) as [t|]; [|done]. simpl in Hle. apply bool_decide_eq_true in Hle.
    destruct Ht. unfold SCROLL_END_MS in *. split; [done | lia].
  - destruct (scrollTimeout s) as [t|]; [|done].
    case_bool_decide; [injection Hst as <- | done]. by split.
  - case_bool_decide; [injection Hst as <- | done]. unfold scrollToEpisode.
    destruct (refs !! i) as [[b|]|]; [|by split..]. unfold set_scrollTop.
    destruct (Qeq_bool _ _); [by split|]. split; [apply closestEpisode_bound|]. simpl. unfold SCROLL_END_MS. lia.
Qed.

Lemma dist_wd p q b : (p == q)%Q → (dist p b == dist q b)%Q.
Proof. intros H. unfold dist. by rewrite H. Qed.

(** The clicked element, seen from the point [h] above its centre. *)
Lemma dist_self_shift h b : (dist (center_of b - h) b == Qabs h)%Q.
Proof.
  unfold dist. assert (E : (center_of b - h - center_of b == - h)%Q) by ring.
  rewrite E. apply Qabs_opp.
Qed.

(** [closestEpisode] returns a mounted index exactly when that element is
    the first at the least distance. *)
Lemma closestEpisode_eq_iff c refs i b :
  refs !! i = Some (Some b) →
  closestEpisode c refs = i ↔
    (∀ j b', refs !! j = Some (Some b') → (dist (centerPoint c) b <= dist (centerPoint c) b')%Q) ∧
    (∀ j b', j < i → refs !! j = Some (Some b') → (dist (centerPoint c) b < dist (centerPoint c) b')%Q).
Proof.
  intros Hb. unfold closestEpisode. rewrite fold_first_closest.
  destruct (first_closest (centerPoint c) 0 refs) as [[k d]|] eqn:E; simpl;
    [|by destruct (first_closest_none _ _ _ E i b)].
  destruct (first_closest_spec _ _ _ _ _ E) as (_ & (bk & Hbk & ->) & Hmin & Hfirst).
  rewrite Nat.sub_0_r in Hbk. split.
  - intros ->. rewrite Hb in Hbk. injection Hbk as <-. split; [done|]. intros j b' Hj. apply Hfirst. lia.
  - intros [H1 H2]. pose proof (Hmin i b Hb). pose proof (H1 k bk Hbk).
    destruct (Nat.lt_trichotomy k i) as [Hlt|[->|Hgt]]; [|done|].
    + specialize (H2 k bk Hlt Hbk). lra.
    + specialize (Hfirst i b ltac:(lia) Hb). lra.
Qed.

(** A click on a mounted episode that the container can centre scrolls
    the container; the [scroll] event runs [handleScroll] with the
    container's centre [containerTop] above the element's centre as
    [handleScroll] measures it. *)
Lemma click_lands episodes refs s i b :
  i < length episodes → refs !! i = Some (Some b) →
  (0 <= center_target (container s) b <= max_top (container s))%Q →
  ¬ (center_target (container s) b == scrollTop (container s))%Q →
  ∃ c', step episodes refs s (ClickEpisode i) = Some (handleScroll refs (set_container c' s)) ∧
        (centerPoint c' == center_of b - containerTop (container s))%Q.
Proof.
  intros Hi Hb [H0 Hmax] Hne. simpl. rewrite bool_decide_true by done.
  unfold scrollToEpisode. rewrite Hb. unfold set_scrollTop.
  pose proof (clampQ_eq 0 (max_top (container s)) _ H0 Hmax) as Hx.
  destruct (Qeq_bool _ _) eqn:E; [apply Qeq_bool_iff in E; exfalso; apply Hne; lra|].
  eexists; split; [reflexivity|]. unfold centerPoint, center_of, center_target in *. simpl. lra.
Qed.

(** ** Theorems *)

(** C16: The loop of [handleScroll] computes the reference: the index of
    the first mounted element at the least distance from the container's
    centre, or [0] when no element is mounted. *)
Theorem closestEpisode_first_closest_eq c refs :
  closestEpisode c refs = from_option fst 0 (first_closest (centerPoint c) 0 refs).
Proof.
  unfold closestEpisode. rewrite fold_first_closest.
  by destruct (first_closest _ _ _) as [[j dj]|].
Qed.

(** C17: When some episode element is mounted, the episode [handleScroll]
    selects is mounted, no farther from the container's centre than any
    other, and strictly closer than every episode before it. *)
Theorem closestEpisode_optimal c refs :
  (∃ j b, refs !! j = Some (Some b)) →
  ∃ b, refs !! closestEpisode c refs = Some (Some b) ∧
       (∀ j b', refs !! j = Some (Some b') → (dist (centerPoint c) b <= dist (centerPoint c) b')%Q) ∧
       (∀ j b', j < closestEpisode c refs → refs !! j = Some (Some b') →
                (dist (centerPoint c) b < dist (centerPoint c) b')%Q).
Proof.
  intros (j0 & b0 & Hj0). unfold closestEpisode. rewrite fold_first_closest.
  destruct (first_closest (centerPoint c) 0 refs) as [[i d]|] eqn:E; simpl.
  - destruct (first_closest_spec _ _ _ _ _ E) as (_ & (b & Hb & ->) & Hmin & Hfirst).
    rewrite Nat.sub_0_r in Hb. exists b. split; [done|]. split; [done|].
    intros j b' Hj. apply Hfirst. lia.
  - by destruct (first_closest_none _ _ _ E j0 b0).
Qed.

Lemma viewer_inv_reach episodes refs c s : reach (step episodes refs) (init c) s → inv refs s.
Proof.
  apply reach_ind_inv; [|intros; by eapply viewer_step_inv].
  split; [simpl; lia | done].
Qed.

(** In every reachable state of the viewer of a non-empty season
    whose elements are all rendered, the badge reads [k of n] with
    [1 <= k <= n], [n] the number of episodes; [isScrolling] is set
    exactly while the 150 ms timeout is pending. *)
Theorem viewer_badge_bounds episodes refs c seasonNumber s :
  length refs = length episodes → reach (step episodes refs) (init c) s →
  match view episodes seasonNumber s with
  | Viewer _ n (k, n') _ _ => 1 ≤ k ≤ n ∧ n' = n
  | NoEpisodes => episodes = []
  end ∧ (isScrolling s = true ↔ is_Some (scrollTimeout s)).
Proof.
  intros Hlen Hr. destruct (viewer_inv_reach _ _ _ _ Hr) as [Hc Ht]. split.
  - unfold view. case_bool_decide as He; [by apply nil_length_inv|]. lia.
  - destruct (scrollTimeout s); [destruct Ht as [-> _]; split; eauto|]. rewrite Ht. split; [done|]. by intros [].
Qed.

(** C18: Clicking the button of a mounted episode whose centre the
    container can bring to its own centre runs [scrollIntoView], whose
    [scroll] event runs [handleScroll]; that handler measures from the
    outer div, so it sees the container's centre [containerTop] above the
    clicked element's centre, and the click selects the clicked episode
    exactly when no mounted episode is closer to that point than the
    clicked one, at distance [|containerTop|], and none before it is as
    close. *)
Theorem click_selects_iff episodes refs s i b :
  i < length episodes → refs !! i = Some (Some b) →
  (0 <= center_target (container s) b <= max_top (container s))%Q →
  ¬ (center_target (container s) b == scrollTop (container s))%Q →
  ∃ s', step episodes refs s (ClickEpisode i) = Some s' ∧
    (currentEpisode s' = i ↔
      (∀ j b', refs !! j = Some (Some b') →
         (Qabs (containerTop (container s)) <= dist (center_of b - containerTop (container s)) b')%Q) ∧
      (∀ j b', j < i → refs !! j = Some (Some b') →
         (Qabs (containerTop (container s)) < dist (center_of b - containerTop (container s)) b')%Q)).
Proof.
  intros Hi Hb Hx Hne. destruct (click_lands episodes refs s i b Hi Hb Hx Hne) as (c' & -> & Hc).
  eexists; split; [reflexivity|]. simpl. rewrite (closestEpisode_eq_iff c' refs i b Hb).
  pose proof (dist_self_shift (containerTop (container s)) b) as Hs.
  split; intros [H1 H2]; split; intros j b' Hj;
    [specialize (H1 j b'); rewrite <- !(dist_wd _ _ _ Hc) in * ..|
     specialize (H1 j b'); rewrite !(dist_wd _ _ _ Hc) |
     intros Hb'; specialize (H2 j b' Hj Hb'); rewrite !(dist_wd _ _ _ Hc)]; 
    try (intros Hb'; specialize (H2 j b' Hj Hb')); try specialize (H1 Hj); lra.
Qed.


(** ** A season of three episodes *)

Definition episode (n : Z) : Episode :=
  mkEpisode (100 + n) ("Episode " +:+ JsString.number_to_string n) "" None n 1 (Some 50%Z) "2024-01-01" 8.

Definition season : list Episode := [episode 1; episode 2; episode 3].

(** Three 100 px elements stacked in a 100 px container. *)
Definition layout : list (option Box) :=
  [Some (mkBox 0 100); Some (mkBox 100 100); Some (mkBox 200 100)].

Definition top : Container := mkContainer 0 100 300 0.

Lemma closestEpisode_optimal_witness :
  ∃ b, layout !! closestEpisode top layout = Some (Some b) ∧
       (∀ j b', layout !! j = Some (Some b') → (dist (centerPoint top) b <= dist (centerPoint top) b')%Q) ∧
       (∀ j b', j < closestEpisode top layout → layout !! j = Some (Some b') →
                (dist (centerPoint top) b < dist (centerPoint top) b')%Q).
Proof. apply closestEpisode_optimal. by exists 0, (mkBox 0 100). Defined.

Lemma viewer_badge_bounds_witness :
  match view season 1 (init top) with
  | Viewer _ n (k, n') _ _ => 1 ≤ k ≤ n ∧ n' = n
  | NoEpisodes => season = []
  end ∧ (isScrolling (init top) = true ↔ is_Some (scrollTimeout (init top))).
Proof. apply (viewer_badge_bounds season layout top 1 (init top)); [reflexivity | constructor]. Defined.

(** The season under a 30 px header, and the same with 40 px elements. *)
Definition header_layout : list (option Box) :=
  [Some (mkBox 30 100); Some (mkBox 130 100); Some (mkBox 230 100)].

Definition header_top : Container := mkContainer 0 100 300 30.



Lemma click_selects_iff_witness :
  ∃ s', step season header_layout (init header_top) (ClickEpisode 2) = Some s' ∧
    (currentEpisode s' = 2 ↔
      (∀ j b', header_layout !! j = Some (Some b') → (Qabs 30 <= dist (center_of (mkBox 230 100) - 30) b')%Q) ∧
      (∀ j b', j < 2 → header_layout !! j = Some (Some b') → (Qabs 30 < dist (center_of (mkBox 230 100) - 30) b')%Q)).
Proof.
  apply (click_selects_iff season header_layout (init header_top) 2 (mkBox 230 100));
    [simpl; lia | reflexivity | split; apply Qle_bool_iff; reflexivity | rewrite <- Qeq_bool_iff; discriminate].
Defined.


End EpisodeViewer.
