(* ===== verification/Pages.v ===== *)
(** * The pages: [src/app/page.tsx], [src/app/tv/[id]/page.tsx] and
    [src/app/show/[id]/page.tsx]

    The home page awaits the three list operations together
    ([Promise.all]) and passes the first five trending shows to the hero
    slider and each list to a carousel; it has no [try], so a failure of
    any list is the page's failure.  The show page parses the path's
    identifier with [Number.parseInt], answers not-found for [NaN], awaits
    the details and the first season together, and answers not-found on
    any failure.  The old show page looks the identifier up in a constant
    object.

    [Promise.all] over computations of [FetchM]: every computation is
    started, so every request leaves, and the combination rejects when one
    of them does; the model takes the first computation's exception when
    both fail, where the code takes the first to reject in time (the pages
    do not look at the exception). *)

From S2P Require Import Prelude JsString Url Json Fetch Tmdb Carousel Header SearchBar SearchRoute.
Import Json Fetch.

Module Pages.

(** ** [Promise.all] *)

(** A computation's outcome as a value. *)
Definition attempt {A} (m : FetchM A) : FetchM (exn + A) :=
  fcatch (a ← m; FRet (inr a)) (λ e, FRet (inl e)).

Definition all2 {A B} (m1 : FetchM A) (m2 : FetchM B) : FetchM (A * B) :=
  r1 ← attempt m1; r2 ← attempt m2;
  match r1, r2 with
  | inr a, inr b => FRet (a, b)
  | inl e, _ => FThrow e
  | _, inl e => FThrow e
  end.

(** ** The home page *)

(** [x.slice(0, n)] on a value read from JSON: an array's or a string's
    prefix; a [TypeError] on [undefined], [null] and the values without a
    [slice] method. *)
Definition js_slice (n : nat) (o : option Json) : FetchM Json :=
  match o with
  | Some (JArr l) => FRet (JArr (take n l))
  | Some (JStr s) => FRet (JStr (String.substring 0 n s))
  | _ => FThrow TypeError
  end.

(** The page: the hero's shows and the three carousels (title, shows). *)
Record Home := mkHome {
  hero : Json;
  carousels : list (string * option Json)
}.

Definition HomePage (cfg : Tmdb.Config) : FetchM Home :=
  p ← all2 (Tmdb.getTrendingShows cfg) (all2 (Tmdb.getTopRatedShows cfg) (Tmdb.getAiringTodayShows cfg));
  let '(trendingShows, (topRatedShows, airingTodayShows)) := p in
  h ← js_slice 5 trendingShows;
  FRet (mkHome h [("Trending Now", trendingShows); ("Top Rated", topRatedShows);
                  ("Airing Today", airingTodayShows)]%string).

(** ** The show page *)

Inductive Page : Type :=
| NotFound
| ShowView (showDetails : Json) (episodes : option Json).

(** [ShowPage({ params })] for [/tv/[id]]: [showDetails.name] and
    [seasonDetails.episodes] are read while the element is built, inside
    the [try]. *)
Definition ShowPage (cfg : Tmdb.Config) (id : string) : FetchM Page :=
  match JsString.parseInt id with
  | None => FRet NotFound
  | Some showId =>
      fcatch
        (p ← all2 (Tmdb.getShowDetails cfg showId) (Tmdb.getSeasonDetails cfg showId 1);
         let '(showDetails, seasonDetails) := p in
         match member (Some showDetails) "name", member (Some seasonDetails) "episodes" with
         | Some _, Some eps => FRet (ShowView showDetails eps)
         | _, _ => FThrow TypeError
         end)
        (λ _, FRet NotFound)
  end.

(** ** The old show page *)








(** ** Lemmas *)

Lemma run_attempt {A} net (m : FetchM A) :
  run net (attempt m) = ((run net m).1, inr (run net m).2).
Proof.
  unfold attempt. rewrite run_catch, fetch_mbind, run_bind.
  destruct (run net m) as [t [e|a]]; simpl; by rewrite ?app_nil_r.
Qed.

(** [Promise.all] of two: both computations' requests, in order, and the
    pair of results or the first exception. *)
Lemma run_all2 {A B} net (m1 : FetchM A) (m2 : FetchM B) :
  run net (all2 m1 m2) =
  ((run net m1).1 ++ (run net m2).1,
   match (run net m1).2, (run net m2).2 with
   | inr a, inr b => inr (a, b)
   | inl e, _ => inl e
   | _, inl e => inl e
   end).
Proof.
  unfold all2. rewrite fetch_mbind, run_bind, run_attempt.
  destruct (run net m1) as [t1 r1]. cbn beta iota.
  rewrite fetch_mbind, run_bind, run_attempt.
  destruct (run net m2) as [t2 r2]. cbn beta iota.
  destruct r1, r2; simpl; by rewrite ?app_nil_r.
Qed.

(** ** Theorems *)

(** C14: A path identifier that [Number.parseInt] reads as [NaN] is
    answered not-found, without any upstream request. *)
Theorem ShowPage_invalid_id cfg id net :
  JsString.parseInt id = None → run net (ShowPage cfg id) = ([], inr NotFound).
Proof. intros H. unfold ShowPage. by rewrite H. Qed.

Lemma ShowPage_invalid_id_witness :
  JsString.parseInt "abc" = None ∧
  run (λ _, NetworkError) (ShowPage (Tmdb.mkConfig (Some "k3y"%string) None) "abc") = ([], inr NotFound).
Proof. split; [reflexivity | apply ShowPage_invalid_id; reflexivity]. Defined.

(** C15: The page of a show also answers a path identifier made of the
    show's id followed by any text that does not continue the number
    ([/tv/1399abc], [/tv/1399.5], [/tv/1399-breaking-bad]): [parseInt]
    stops at the first byte that is not a digit, so the page makes the
    same requests and gives the same page as for [/tv/1399], instead of
    not-found. *)
Theorem ShowPage_lenient_id cfg net n r :
  n ≠ 0%Z → JsString.take_digits 10 r = [] →
  run net (ShowPage cfg (JsString.number_to_string n +:+ r)) =
  run net (ShowPage cfg (JsString.number_to_string n)).
Proof.
  intros Hn Hr. unfold ShowPage.
  by rewrite JsString.parseInt_number_to_string_app, JsString.parseInt_number_to_string.
Qed.

Lemma ShowPage_lenient_id_witness :
  run (λ _, NetworkError) (ShowPage (Tmdb.mkConfig (Some "k3y"%string) None)
                             (JsString.number_to_string 1399 +:+ "-breaking-bad")) =
  run (λ _, NetworkError) (ShowPage (Tmdb.mkConfig (Some "k3y"%string) None) (JsString.number_to_string 1399)).
Proof. apply ShowPage_lenient_id; [lia | reflexivity]. Defined.

(** The link [/tv/${id}] of an integer id leads the show page to
    that id: with a credential configured it requests the details and the
    first season of show [id], both of them, whatever the answers. *)
Theorem ShowPage_link_roundtrip cfg n net :
  Tmdb.has_credential cfg = true →
  calls net (ShowPage cfg (JsString.number_to_string n)) =
    [Tmdb.tmdb_request cfg ("/tv/" +:+ JsString.number_to_string n);
     Tmdb.tmdb_request cfg ("/tv/" +:+ JsString.number_to_string n +:+ "/season/" +:+
                            JsString.number_to_string 1)].
Proof.
  intros Hc. unfold ShowPage. rewrite JsString.parseInt_number_to_string.
  rewrite calls_catch_quiet by done. rewrite fetch_mbind, calls_bind_quiet.
  - unfold calls. rewrite run_all2. unfold Tmdb.getShowDetails, Tmdb.getSeasonDetails.
    by rewrite !Tmdb.run_tmdbFetch, Hc.
  - intros [d sd]. by repeat case_match.
Qed.

Lemma ShowPage_link_roundtrip_witness :
  calls (λ _, NetworkError) (ShowPage (Tmdb.mkConfig (Some "k3y"%string) None) (JsString.number_to_string 1399)) =
    [Tmdb.tmdb_request (Tmdb.mkConfig (Some "k3y"%string) None) ("/tv/" +:+ JsString.number_to_string 1399);
     Tmdb.tmdb_request (Tmdb.mkConfig (Some "k3y"%string) None)
       ("/tv/" +:+ JsString.number_to_string 1399 +:+ "/season/" +:+ JsString.number_to_string 1)].
Proof. apply ShowPage_link_roundtrip. reflexivity. Defined.

(** The three list requests of the home page. *)
Definition home_endpoints : list string := ["/trending/tv/week"; "/tv/top_rated"; "/tv/airing_today"]%string.

Lemma list_calls cfg ep net :
  Tmdb.has_credential cfg = true →
  calls net (d ← Tmdb.tmdbFetch cfg ep; Tmdb.then_results d) = [Tmdb.tmdb_request cfg ep].
Proof.
  intros Hc. rewrite fetch_mbind, calls_bind_quiet; [unfold calls; rewrite Tmdb.run_tmdbFetch, Hc; reflexivity|].
  intros []; done.
Qed.

(** C38: With a credential configured, the home page sends the three list
    requests, all of them whatever their answers, in the order of the
    code. *)
Theorem HomePage_requests cfg net :
  Tmdb.has_credential cfg = true →
  calls net (HomePage cfg) = (Tmdb.tmdb_request cfg) <$> home_endpoints.
Proof.
  intros Hc. unfold HomePage. rewrite fetch_mbind, calls_bind_quiet.
  - unfold calls. rewrite !run_all2. unfold Tmdb.getTrendingShows, Tmdb.getTopRatedShows, Tmdb.getAiringTodayShows.
    fold (calls net (d ← Tmdb.tmdbFetch cfg "/trending/tv/week"; Tmdb.then_results d)).
    fold (calls net (d ← Tmdb.tmdbFetch cfg "/tv/top_rated"; Tmdb.then_results d)).
    fold (calls net (d ← Tmdb.tmdbFetch cfg "/tv/airing_today"; Tmdb.then_results d)).
    by rewrite !list_calls.
  - intros [t [tr ai]]. rewrite fetch_mbind, calls_bind_quiet; [unfold js_slice; by repeat case_match | intros; reflexivity].
Qed.

Lemma HomePage_requests_witness :
  calls (λ _, NetworkError) (HomePage (Tmdb.mkConfig None (Some "t0ken"%string))) =
  (Tmdb.tmdb_request (Tmdb.mkConfig None (Some "t0ken"%string))) <$> home_endpoints.
Proof. apply HomePage_requests. reflexivity. Defined.

(** The Trending link of the header and the sections of the home page. *)
Definition home_titles : list string := ["Trending Now"; "Top Rated"; "Airing Today"]%string.

(** The targets of in-page links on a rendered home page: [#] and the
    [id] of each carousel's section. *)
Definition anchors (home : Home) : list string :=
  (λ c, "#" +:+ Carousel.section_id c.1)%string <$> carousels home.

(** A home page that renders has the three carousels of the code, in
    order, whatever the network answered. *)
Lemma HomePage_titles cfg net t home :
  run net (HomePage cfg) = (t, inr home) → fst <$> carousels home = home_titles.
Proof.
  unfold HomePage. rewrite fetch_mbind, run_bind.
  destruct (run net (all2 _ _)) as [t1 [e|[tr [top air]]]]; [by intros [=]|]. cbn.
  rewrite fetch_mbind, run_bind. destruct (run net (js_slice 5 tr)) as [t2 [e|h]]; [by intros [=]|].
  by intros [= _ <-].
Qed.

(** C33: On every home page that renders, whatever the lists TMDB
    returned, the header's [#top-rated] and [#airing-today] links have a
    section to jump to, but its [#trending] link does not: the section
    made from the title "Trending Now" is [trending-now]. *)
Theorem trending_anchor_dangles cfg net t home :
  run net (HomePage cfg) = (t, inr home) →
  (λ l, bool_decide (l.1 ∈ anchors home)) <$> Header.links = [false; false; true; true] ∧
  ("#trending", "Trending")%string ∈ Header.links.
Proof.
  intros Hr. unfold anchors.
  assert (E : ((λ c : string * option Json, "#" +:+ Carousel.section_id c.1)%string <$> carousels home) =
              (λ t, "#" +:+ Carousel.section_id t)%string <$> home_titles)
    by (rewrite <- (HomePage_titles cfg net t home Hr), <- list_fmap_compose; reflexivity).
  rewrite E. split; [vm_compute; reflexivity | set_solver].
Qed.

(** TMDB answers every list request with an empty list. *)
Definition empty_lists : Request → FetchResult :=
  λ _, Delivered (mkResponse 200 "OK" (Some (results_obj []))).

Definition home_of (r : list Request * (exn + Home)) : Home :=
  match r.2 with inr h => h | inl _ => mkHome (JArr []) [] end.

Lemma trending_anchor_dangles_witness :
  let cfg := Tmdb.mkConfig (Some "k3y"%string) None in
  (λ l, bool_decide (l.1 ∈ anchors (home_of (run empty_lists (HomePage cfg))))) <$> Header.links =
    [false; false; true; true] ∧
  ("#trending", "Trending")%string ∈ Header.links.
Proof.
  intros cfg. apply (trending_anchor_dangles cfg empty_lists (run empty_lists (HomePage cfg)).1).
  vm_compute. reflexivity.
Defined.


End Pages.
