(* ===== verification/Cards.v ===== *)
(** * The presentational components: poster and show cards, the show
    headers, the rows of the search results, the older carousel and the
    not-found page

    [src/components/PosterCard.tsx], [show-card.tsx], [ShowHeader.tsx],
    [show-header.tsx], the result rows of [SearchResults.tsx],
    [show-carousel.tsx] and [src/app/not-found.tsx].  Their state is at
    most a hover flag and an image-load flag; what they compute is the link
    of a card, the image URL or its placeholder, and the texts of the
    rating ([toFixed(1)]), the year ([new Date(...).getFullYear()]), the
    runtime and the number of seasons.  Each component is a [Module] with
    its props as a [Record] at their declared types, its [State] and
    [Event]s when it has any, and [view], the structure of its render.

    The year depends on the time zone of the browser: [tz] is its offset
    from UTC in milliseconds, a parameter of the views that print a year.
    The theorems show that a card's link leads the show page to that show,
    that the year printed for a show first aired on January 1 is the year
    before west of UTC, and that [ShowHeader] prints [NaN] for a show
    without a first air date where [PosterCard] prints [TBA]. *)

From S2P Require Import Prelude JsString JsNumber Json Fetch Tmdb Carousel Pages.
From Stdlib Require Import QArith_base Qabs.
Close Scope Q_scope.

(** ** What the cards print *)
Module CardText.

(** The TMDB image base of the cards. *)
Definition tmdb_image (size path : string) : string := "https://image.tmdb.org/t/p/" +:+ size +:+ path.

(** [path ? url : placeholder] on a nullable path. *)
Definition image_or (size : string) (path : option string) (placeholder : string) : string :=
  match path with
  | Some p => if JsString.truthy p then tmdb_image size p else placeholder
  | None => placeholder
  end.

(** [value || fallback] on a string. *)
Definition or_else (v fallback : string) : string := if JsString.truthy v then v else fallback.

(** [{new Date(date).getFullYear()}] printed. *)
Definition year_text (tz : Z) (date : string) : string :=
  JsNumber.number_text (JsNumber.getFullYear tz (JsNumber.date_parse date)).

End CardText.
Import CardText.

(** ** [src/components/PosterCard.tsx] *)
Module PosterCard.

(** [interface Show]. *)
Record Show := mkShow {
  id : Z;
  name : string;
  poster_path : option string;
  vote_average : Q;
  first_air_date : string
}.

Record State := mkState { isHovered : bool; imageLoaded : bool }.

Inductive Event : Type := MouseEnter | MouseLeave | ImageLoad.

Definition init : State := mkState false false.

Definition step (s : State) (e : Event) : State :=
  match e with
  | MouseEnter => mkState true (imageLoaded s)
  | MouseLeave => mkState false (imageLoaded s)
  | ImageLoad => mkState (isHovered s) true
  end.

Record View := mkView {
  href : string;
  src : string;
  alt : string;
  image_shown : bool;           (** [opacity-100] once loaded *)
  spinner : bool;               (** [!imageLoaded] *)
  overlay : bool;               (** the play overlay, [opacity-100] on hover *)
  rating : option string;       (** [vote_average.toFixed(1)] *)
  title : string;
  year : string                 (** the year, or [TBA] *)
}.

Definition view (tz : Z) (show : Show) (s : State) : View :=
  mkView ("/tv/" +:+ JsString.number_to_string (id show))
    (image_or "w500" (poster_path show) "/placeholder.svg?height=750&width=500")
    (name show) (imageLoaded s) (negb (imageLoaded s)) (isHovered s)
    (JsNumber.toFixed1 (vote_average show)) (name show)
    (if JsString.truthy (first_air_date show) then year_text tz (first_air_date show) else "TBA").

End PosterCard.

(** ** [src/components/show-card.tsx] *)
Module ShowCard.

Record Show := mkShow {
  id : Z;
  title : string;
  poster : string;
  rating : Q;
  year : Z
}.

Record State := mkState { isHovered : bool }.

Inductive Event : Type := MouseEnter | MouseLeave.

Definition step (s : State) (e : Event) : State :=
  match e with MouseEnter => mkState true | MouseLeave => mkState false end.

(** The rating is printed by [ToString] of the number; the view keeps the
    number. *)
Record View := mkView {
  href : string;
  src : string;
  overlay : bool;
  card_title : string;
  year_shown : string;
  rating_shown : Q
}.

Definition view (show : Show) (s : State) : View :=
  mkView ("/show/" +:+ JsString.number_to_string (id show)) (or_else (poster show) "/placeholder.svg")
    (isHovered s) (title show) (JsString.number_to_string (year show)) (rating show).

End ShowCard.

(** ** [src/components/ShowHeader.tsx] *)
Module ShowHeader.

Record Show := mkShow {
  id : Z;
  name : string;
  poster_path : option string;
  backdrop_path : option string;
  vote_average : Q;
  first_air_date : string;
  genres : list (Z * string);
  overview : string;
  number_of_seasons : Z;
  number_of_episodes : Z;
  episode_run_time : list Z;
  status : string
}.

Record State := mkState { imageLoaded : bool }.

(** The only event is the [onLoad] of the backdrop. *)
Definition load (s : State) : State := mkState true.

Record View := mkView {
  backdrop : string;
  backdrop_shown : bool;
  poster : string;
  heading : string;
  rating : option string;
  year : string;                (** no guard: [NaN] without a date *)
  runtime : option string;      (** [{episode_run_time[0]}min] when the list is not empty *)
  badge : string;
  genre_badges : list (Z * string);
  seasons : string;
  episodes : string
}.

(** [{n} Season{n !== 1 ? "s" : ""}]. *)
Definition seasons_text (n : Z) : string :=
  JsString.number_to_string n +:+ " Season" +:+ (if bool_decide (n ≠ 1%Z) then "s" else "").

Definition view (tz : Z) (show : Show) (s : State) : View :=
  mkView (image_or "original" (backdrop_path show) "/placeholder.svg?height=1080&width=1920")
    (imageLoaded s)
    (image_or "w500" (poster_path show) "/placeholder.svg?height=750&width=500")
    (name show) (JsNumber.toFixed1 (vote_average show)) (year_text tz (first_air_date show))
    (match episode_run_time show with
     | m :: _ => Some (JsString.number_to_string m +:+ "min")
     | [] => None
     end)
    (status show) (genres show) (seasons_text (number_of_seasons show))
    (JsString.number_to_string (number_of_episodes show) +:+ " Episodes").

End ShowHeader.

(** ** [src/components/show-header.tsx], rendered by the old show page *)
Module OldShowHeader.

Record Show := mkShow {
  id : Z;
  title : string;
  poster : string;
  backdrop : string;
  rating : Q;
  year : Z;
  genres : list string;
  overview : string
}.

Record State := mkState { imageLoaded : bool }.

Definition load (s : State) : State := mkState true.

Record View := mkView {
  back_link : string;           (** [Back to Home] *)
  backdrop_src : string;
  backdrop_shown : bool;
  poster_src : string;
  heading : string;
  rating_shown : Q;
  year_shown : string;
  badges : list string;
  text : string
}.

Definition view (show : Show) (s : State) : View :=
  mkView "/" (or_else (backdrop show) "/placeholder.svg") (imageLoaded s)
    (or_else (poster show) "/placeholder.svg") (title show) (rating show)
    (JsString.number_to_string (year show)) (genres show) (overview show).

End OldShowHeader.

(** ** The rows of [src/components/SearchResults.tsx] *)
Module SearchRow.

Record SearchResult := mkResult {
  id : Z;
  name : string;
  poster_path : option string;
  first_air_date : string;
  vote_average : Q;
  overview : string
}.

Record Row := mkRow {
  key : Z;
  click_id : Z;                 (** [onResultClick(show.id)] *)
  src : string;
  heading : string;
  year : option string;         (** only with a first air date *)
  rating : option (option string);   (** only when [vote_average > 0] *)
  summary : option string
}.

Definition row (tz : Z) (show : SearchResult) : Row :=
  mkRow (id show) (id show) (image_or "w92" (poster_path show) "/placeholder.svg?height=64&width=48")
    (name show)
    (if JsString.truthy (first_air_date show) then Some (year_text tz (first_air_date show)) else None)
    (if Qle_bool (vote_average show) 0 then None else Some (JsNumber.toFixed1 (vote_average show)))
    (if JsString.truthy (overview show) then Some (overview show) else None).

Definition rows (tz : Z) (results : list SearchResult) : list Row := row tz <$> results.

End SearchRow.

(** ** [src/components/show-carousel.tsx] *)
Module ShowCarousel.
Import Carousel.

(** No React state: an arrow scrolls the container by 320 px from its
    current position, the browser clamping it. *)
Definition scrollAmount : Z := 320.

Definition scroll (dir : Direction) (d : Dom) : Dom :=
  let newScrollLeft := (scrollLeft d + (if dir is Left then - scrollAmount else scrollAmount))%Z in
  with_scrollLeft (clamp d newScrollLeft) d.

Record View := mkView { heading : string; cards : list ShowCard.View }.

Definition view (title : string) (shows : list ShowCard.Show) : View :=
  mkView title ((λ show, ShowCard.view show (ShowCard.mkState false)) <$> shows).

End ShowCarousel.

(** ** [src/app/not-found.tsx] *)
Module NotFound.

Record View := mkView {
  code : string;
  heading : string;
  links : list (string * string)    (** label, href *)
}.

Definition view : View :=
  mkView "404" "Show Not Found" [("Back to Home", "/"); ("Search Shows", "/")]%string.

End NotFound.

(** ** Theorems *)

Module Cards.

(** C22: The link of a poster card leads to the show page of its show:
    the path segment after [/tv/] is one the page parses back to the
    show's id, and with a credential configured the page then requests the
    details and the first season of that show, whatever the answers. *)
Theorem poster_card_link_roundtrip tz show s cfg net :
  Tmdb.has_credential cfg = true →
  ∃ seg, PosterCard.href (PosterCard.view tz show s) = ("/tv/" +:+ seg)%string ∧
    Fetch.calls net (Pages.ShowPage cfg seg) =
      [Tmdb.tmdb_request cfg ("/tv/" +:+ JsString.number_to_string (PosterCard.id show));
       Tmdb.tmdb_request cfg ("/tv/" +:+ JsString.number_to_string (PosterCard.id show) +:+ "/season/" +:+
                              JsString.number_to_string 1)].
Proof.
  intros Hc. exists (JsString.number_to_string (PosterCard.id show)). split; [done|].
  by apply Pages.ShowPage_link_roundtrip.
Qed.

(** C23: The year of a card is read in the browser's time zone from a
    date [Date.parse] reads as UTC midnight: for a show first aired on
    January 1 of year [y], a browser west of UTC (offset between minus one
    day and zero) prints [y - 1], and one at or east of UTC prints [y]. *)
Theorem poster_year_new_year tz show s y :
  JsNumber.date_parse (PosterCard.first_air_date show) = Some (JsNumber.TimeFromYear y) →
  (- JsNumber.msPerDay < tz < JsNumber.msPerDay)%Z →
  PosterCard.year (PosterCard.view tz show s) =
    JsString.number_to_string (if (tz <? 0)%Z then (y - 1)%Z else y).
Proof.
  intros Hp Htz. simpl. rewrite (JsNumber.date_parse_truthy _ _ Hp).
  unfold year_text. rewrite Hp, JsNumber.getFullYear_new_year by done. reflexivity.
Qed.

(** C24: For every first air date that [Date.parse] reads as [NaN] (the
    empty string TMDB sends for a show not yet aired among them), the show
    header prints [NaN] as the year: [getFullYear] of an invalid date,
    with no guard.  The poster card of the same show guards on the
    string: it prints [TBA] for the empty string, and [NaN] only for a
    non-empty date it cannot read. *)
Theorem header_year_nan tz (h : ShowHeader.Show) (p : PosterCard.Show) hs ps :
  JsNumber.date_parse (ShowHeader.first_air_date h) = None →
  PosterCard.first_air_date p = ShowHeader.first_air_date h →
  ShowHeader.year (ShowHeader.view tz h hs) = "NaN"%string ∧
  PosterCard.year (PosterCard.view tz p ps) =
    (if JsString.truthy (ShowHeader.first_air_date h) then "NaN" else "TBA")%string.
Proof.
  intros Hd Hp. simpl. unfold year_text. rewrite Hp, Hd. split; [done|].
  by destruct (JsString.truthy _).
Qed.

(** C20: The rating a poster card prints, [vote_average.toFixed(1)], reads
    back as a number of tenths within half a tenth of the show's
    [vote_average], for every value below [10^21] in magnitude. *)
Theorem poster_rating_nearest tz show s :
  (- inject_Z (10 ^ 21) < PosterCard.vote_average show < inject_Z (10 ^ 21))%Q →
  ∃ str r, PosterCard.rating (PosterCard.view tz show s) = Some str ∧ JsNumber.read_fixed1 str = Some r ∧
    (Qabs (JsNumber.fixed1_value r - PosterCard.vote_average show) <= 1 # 20)%Q.
Proof. intros H. by apply JsNumber.toFixed1_nearest. Qed.

(** C21: The year a card prints for a date [Date.parse] reads is the
    specification's [YearFromTime] of the local time: the year [y] whose
    first instant is at or before [t + tz] and whose successor's first
    instant is after it. *)
Theorem poster_year_spec tz show s t :
  JsNumber.date_parse (PosterCard.first_air_date show) = Some t →
  ∃ y, PosterCard.year (PosterCard.view tz show s) = JsString.number_to_string y ∧
       (JsNumber.TimeFromYear y ≤ t + tz < JsNumber.TimeFromYear (y + 1))%Z.
Proof.
  intros Hp. exists (JsNumber.YearFromTime (t + tz)). simpl.
  rewrite (JsNumber.date_parse_truthy _ _ Hp). unfold year_text. rewrite Hp. split; [done|].
  split; [by apply JsNumber.YearFromTime_largest|].
  destruct (Z.lt_ge_cases (t + tz) (JsNumber.TimeFromYear (JsNumber.YearFromTime (t + tz) + 1))) as [|H]; [done|].
  apply JsNumber.YearFromTime_largest in H. lia.
Qed.

(** ** Examples *)

Definition breaking_bad : PosterCard.Show :=
  PosterCard.mkShow 1396 "Breaking Bad" (Some "/ggFHVNu6YYI5L9pCfOacjizRGt.jpg") (89 # 10) "2008-01-20".

Definition new_year_show : PosterCard.Show :=
  PosterCard.mkShow 4614 "NCIS" None (76 # 10) "2016-01-01".

Definition no_date_header : ShowHeader.Show :=
  ShowHeader.mkShow 1 "Untitled" None None 0 "" [] "" 1 0 [] "Planned".

Definition no_date_card : PosterCard.Show := PosterCard.mkShow 1 "Untitled" None 0 "".

Lemma poster_card_link_roundtrip_witness :
  ∃ seg, PosterCard.href (PosterCard.view 0 breaking_bad PosterCard.init) = ("/tv/" +:+ seg)%string ∧
    Fetch.calls (λ _, Fetch.NetworkError) (Pages.ShowPage (Tmdb.mkConfig (Some "k3y"%string) None) seg) =
      [Tmdb.tmdb_request (Tmdb.mkConfig (Some "k3y"%string) None) ("/tv/" +:+ JsString.number_to_string 1396);
       Tmdb.tmdb_request (Tmdb.mkConfig (Some "k3y"%string) None)
         ("/tv/" +:+ JsString.number_to_string 1396 +:+ "/season/" +:+ JsString.number_to_string 1)].
Proof. apply (poster_card_link_roundtrip 0 breaking_bad). reflexivity. Defined.

(** New York in winter: five hours west of UTC. *)
Lemma poster_year_new_year_witness :
  PosterCard.year (PosterCard.view (-18000000) new_year_show PosterCard.init) = "2015"%string.
Proof.
  apply (poster_year_new_year (-18000000) new_year_show PosterCard.init 2016);
    [vm_compute; reflexivity | vm_compute; split; reflexivity].
Defined.

Lemma header_year_nan_witness :
  ShowHeader.year (ShowHeader.view 0 no_date_header (ShowHeader.mkState false)) = "NaN"%string ∧
  PosterCard.year (PosterCard.view 0 no_date_card PosterCard.init) =
    (if JsString.truthy (ShowHeader.first_air_date no_date_header) then "NaN" else "TBA")%string.
Proof. apply header_year_nan; reflexivity. Defined.

Lemma poster_rating_nearest_witness :
  ∃ str r, PosterCard.rating (PosterCard.view 0 breaking_bad PosterCard.init) = Some str ∧
    JsNumber.read_fixed1 str = Some r ∧
    (Qabs (JsNumber.fixed1_value r - PosterCard.vote_average breaking_bad) <= 1 # 20)%Q.
Proof. apply poster_rating_nearest. split; vm_compute; reflexivity. Defined.

Lemma poster_year_spec_witness :
  ∃ y, PosterCard.year (PosterCard.view 0 breaking_bad PosterCard.init) = JsString.number_to_string y ∧
       (JsNumber.TimeFromYear y ≤ 1200787200000 + 0 < JsNumber.TimeFromYear (y + 1))%Z.
Proof. apply poster_year_spec. vm_compute. reflexivity. Defined.

End Cards.
