(* ===== verification/LegacyViewer.v ===== *)
(** * The older episode viewer, [src/components/episode-viewer.tsx]

    The old show page ([src/app/show/[id]/page.tsx]) renders this viewer.
    It keeps only [currentEpisode] ([useState]); its scroll listener runs
    the same closest-episode loop as [EpisodeViewer.tsx], written out
    identically in the file, and it has no [isScrolling] flag and no
    timeout.  The layout is the same (an outer [relative] div holding a
    sticky header and the scrolling container, lines 72-101), so the
    clamping of [scrollTop], [scrollIntoView] and the [offsetTop] measured
    from the outer div are those of [EpisodeViewer], and so is the shift
    of a clicked episode by the header's height.  Since the loop is the
    same text, the model reuses [EpisodeViewer.closestEpisode]; the
    simulation lemma below only records that the newer step keeps the
    older one's selection and position, which holds by construction. *)

From S2P Require Import Prelude JsString EpisodeViewer.
From Stdlib Require Import QArith_base Qabs Lqa.
Close Scope Q_scope.

Module LegacyViewer.
Import EpisodeViewer.

(** ** Data *)

(** [interface Episode] of the file. *)
Record Episode := mkEpisode {
  ep_id : Z;
  ep_title : string;
  ep_overview : string;
  ep_still : string;
  episode_number : Z;
  season_number : Z;
  runtime : Z
}.

Record State := mkState {
  currentEpisode : nat;
  container : Container
}.

Inductive Event : Type :=
| ScrollTo (top : Q)
| ClickEpisode (i : nat).

Section Legacy.
Context (episodes : list Episode) (refs : list (option Box)).

(** [handleScroll], registered once by the effect: the loop of
    [EpisodeViewer.closestEpisode], then [setCurrentEpisode]. *)
Definition handleScroll (s : State) : State :=
  mkState (closestEpisode (container s) refs) (container s).

(** The container scrolls to [x], clamped; a change fires [scroll]. *)
Definition set_scrollTop (x : Q) (s : State) : State :=
  let x' := clampQ 0 (max_top (container s)) x in
  if Qeq_bool x' (scrollTop (container s)) then s
  else handleScroll (mkState (currentEpisode s) (with_top x' (container s))).

(** [scrollToEpisode(index)]: [scrollIntoView({ block: "center" })] of a
    mounted element; the container is always mounted here. *)
Definition scrollToEpisode (index : nat) (s : State) : State :=
  match refs !! index with
  | Some (Some b) => set_scrollTop (center_target (container s) b) s
  | _ => s
  end.

(** One button per episode. *)
Definition step (s : State) (e : Event) : option State :=
  match e with
  | ScrollTo x => Some (set_scrollTop x s)
  | ClickEpisode i => if bool_decide (i < length episodes) then Some (scrollToEpisode i s) else None
  end.

Definition init (c : Container) : State := mkState 0 c.

(** ** The render *)

(** A button: its label [S{season_number}E{episode_number}] and whether
    it is the current one ([variant="default"]). *)
Definition button (s : State) (index : nat) (episode : Episode) : (Z * Z) * bool :=
  ((season_number episode, episode_number episode), bool_decide (currentEpisode s = index)).

Record Card := mkCard {
  card_key : Z;
  card_src : string;            (** [episode.still || "/placeholder.svg"] *)
  card_badge : Z * Z;
  card_title : string;
  card_runtime : Z;             (** [{episode.runtime}m], always shown *)
  card_overview : string;
  card_chevron : bool           (** [index < episodes.length - 1] *)
}.

Definition card (index : nat) (episode : Episode) : Card :=
  mkCard (ep_id episode)
    (if JsString.truthy (ep_still episode) then ep_still episode else "/placeholder.svg")
    (season_number episode, episode_number episode) (ep_title episode) (runtime episode)
    (ep_overview episode) (bool_decide (Z.of_nat index < Z.of_nat (length episodes) - 1)%Z).

Definition view (s : State) : list ((Z * Z) * bool) * list Card :=
  (imap (button s) episodes, imap card episodes).

End Legacy.

(** The events of this viewer as events of [EpisodeViewer]. *)
Definition embed (e : Event) : EpisodeViewer.Event :=
  match e with
  | ScrollTo x => EpisodeViewer.ScrollTo x
  | ClickEpisode i => EpisodeViewer.ClickEpisode i
  end.

(** The two viewers agree on what the user sees of the selection. *)
Definition agree (l : State) (n : EpisodeViewer.State) : Prop :=
  currentEpisode l = EpisodeViewer.currentEpisode n ∧ container l = EpisodeViewer.container n.

(** ** Lemmas *)

Section Sim.
Context (episodes : list Episode) (episodes' : list EpisodeViewer.Episode) (refs : list (option Box)).
Hypothesis Hlen : length episodes' = length episodes.

Lemma set_scrollTop_agree x l n :
  agree l n → agree (set_scrollTop refs x l) (EpisodeViewer.set_scrollTop refs x n).
Proof.
  intros [Hc Hk]. unfold set_scrollTop, EpisodeViewer.set_scrollTop. rewrite Hk.
  destruct (Qeq_bool _ _); [by split|]. by split.
Qed.

Lemma step_agree l n e l' :
  agree l n → step episodes refs l e = Some l' →
  ∃ n', EpisodeViewer.step episodes' refs n (embed e) = Some n' ∧ agree l' n'.
Proof.
  intros Ha Hst. destruct e as [x|i]; simpl in *.
  - injection Hst as <-. eexists; split; [reflexivity | by apply set_scrollTop_agree].
  - rewrite Hlen. case_bool_decide; [injection Hst as <- | done].
    eexists; split; [reflexivity|]. unfold scrollToEpisode, EpisodeViewer.scrollToEpisode.
    destruct Ha as [Hc Hk]. rewrite <- Hk.
    destruct (refs !! i) as [[b|]|]; [apply set_scrollTop_agree; by split | by split ..].
Qed.

Lemma runs_agree es l n l' :
  agree l n → runs (step episodes refs) l es = Some l' →
  ∃ n', runs (EpisodeViewer.step episodes' refs) n (embed <$> es) = Some n' ∧ agree l' n'.
Proof.
  revert l n. induction es as [|e es IH]; intros l n Ha; simpl; [intros [= <-]; eauto|].
  destruct (step episodes refs l e) as [l1|] eqn:E; [|done]. intros Hr.
  destruct (step_agree l n e l1 Ha E) as (n1 & -> & Ha1). simpl. by apply (IH l1 n1).
Qed.
End Sim.

Lemma legacy_step_bound episodes refs s e s' :
  currentEpisode s < Nat.max 1 (length refs) → step episodes refs s e = Some s' →
  currentEpisode s' < Nat.max 1 (length refs).
Proof.
  intros Hc Hst. destruct e as [x|i]; simpl in Hst.
  - injection Hst as <-. unfold set_scrollTop. destruct (Qeq_bool _ _); [done|]. apply closestEpisode_bound.
  - case_bool_decide; [injection Hst as <- | done]. unfold scrollToEpisode.
    destruct (refs !! i) as [[b|]|]; [|done..]. unfold set_scrollTop.
    destruct (Qeq_bool _ _); [done|]. apply closestEpisode_bound.
Qed.

Lemma legacy_reach_bound episodes refs c s :
  reach (step episodes refs) (init c) s → currentEpisode s < Nat.max 1 (length refs).
Proof.
  induction 1 as [|s e s' _ IH Hst]; [simpl; lia | by eapply legacy_step_bound].
Qed.

(** ** Theorems *)

(** The newer viewer keeps the older one's selection: on every run of scroll
    positions and episode clicks that the older viewer accepts, the newer
    viewer, over episodes of the same number and the same layout, accepts
    the same run and ends with the same current episode and the same
    container position. *)
Theorem legacy_refined_by_viewer episodes episodes' refs c es s :
  length episodes' = length episodes →
  runs (step episodes refs) (init c) es = Some s →
  ∃ n, runs (EpisodeViewer.step episodes' refs) (EpisodeViewer.init c) (embed <$> es) = Some n ∧
       EpisodeViewer.currentEpisode n = currentEpisode s ∧ EpisodeViewer.container n = container s.
Proof.
  intros Hlen Hr. destruct (runs_agree episodes episodes' refs Hlen es (init c) (EpisodeViewer.init c) s)
    as (n & Hn & Hc & Hk); [by split | done | ].
  exists n. done.
Qed.

(** In every reachable state of the older viewer of a non-empty list
    whose elements are all rendered, exactly one episode button is the
    current one, and it is the button of an episode of the list. *)
Theorem legacy_one_current episodes refs c s :
  length refs = length episodes → episodes ≠ [] →
  reach (step episodes refs) (init c) s →
  currentEpisode s < length episodes ∧
  ∀ k lbl b, (view episodes s).1 !! k = Some (lbl, b) → (b = true ↔ k = currentEpisode s).
Proof.
  intros Hlen Hne Hr. pose proof (legacy_reach_bound _ _ _ _ Hr) as Hb.
  destruct episodes; [done|]. simpl in Hlen. split; [simpl; lia|].
  intros k lbl b. unfold view; cbn [fst]. rewrite list_lookup_imap. destruct (_ !! k) as [ep|]; simpl; [|done].
  intros [= _ <-]. rewrite bool_decide_eq_true. lia.
Qed.

(** ** A season of three episodes *)

Definition episode (n : Z) : Episode :=
  mkEpisode (100 + n) ("Episode " +:+ JsString.number_to_string n) "" "" n 1 45.

Definition season : list Episode := [episode 1; episode 2; episode 3].

Lemma legacy_refined_by_viewer_witness :
  (runs (step season layout) (init top) [ClickEpisode 2; ScrollTo 60] = Some (mkState 1 (mkContainer 60 100 300 0))) ∧
  ∃ n, runs (EpisodeViewer.step EpisodeViewer.season layout) (EpisodeViewer.init top)
         (embed <$> [ClickEpisode 2; ScrollTo 60]) = Some n ∧
       EpisodeViewer.currentEpisode n = 1 ∧ EpisodeViewer.container n = mkContainer 60 100 300 0.
Proof.
  split; [vm_compute; reflexivity|].
  apply (legacy_refined_by_viewer season EpisodeViewer.season layout top [ClickEpisode 2; ScrollTo 60]
    (mkState 1 (mkContainer 60 100 300 0))); vm_compute; reflexivity.
Defined.

Lemma legacy_one_current_witness :
  currentEpisode (init top) < length season ∧
  ∀ k lbl b, (view season (init top)).1 !! k = Some (lbl, b) → (b = true ↔ k = currentEpisode (init top)).
Proof.
  apply (legacy_one_current season layout top (init top)); [reflexivity | discriminate | constructor].
Defined.

End LegacyViewer.
