(* ===== verification/LegacySearch.v ===== *)
(** * The older search box, [src/components/search-bar.tsx] and
    [src/components/search-results.tsx]

    The older box filters a constant list of two shows instead of calling
    the search route.  Its state is four [useState] hooks ([query],
    [isOpen], [results], [isLoading]) and the 300 ms timeout of its effect
    on [query]: when [query] changes, the cleanup clears the pending
    timeout, and the effect either empties the results (blank query) or
    sets [isLoading] and starts a timeout that filters the list by the
    query of that render.  Time is explicit as in the other components:
    [Wait dt] lets time pass up to the pending deadline and [Fire] runs the
    timeout at its deadline.  [view] is the rendering decision of
    [SearchResults].

    The theorems show that once no timeout is pending the results are the
    filter of the current query, that a pending timeout delivers them, and
    that the blank branch of the effect leaves [isLoading] set: a spinner
    that no passage of time removes. *)

From S2P Require Import Prelude JsString.
From Stdlib Require Import QArith_base.
Close Scope Q_scope.

Module LegacySearch.

(** ** Data *)

(** [interface SearchResult]. *)
Record Show := mkShow {
  id : Z;
  title : string;
  poster : string;
  year : Z;
  rating : Q
}.

(** [mockResults]. *)
Definition mockResults : list Show := [
  mkShow 1 "Stranger Things" "/placeholder.svg?height=300&width=200" 2016 (87 # 10);
  mkShow 2 "The Crown" "/placeholder.svg?height=300&width=200" 2016 (86 # 10)].

(** [String.prototype.includes]: [needle] occurs in [hay] at some
    position (the empty string occurs everywhere). *)
Fixpoint includes (hay needle : string) : bool :=
  String.prefix needle hay ||
  match hay with
  | EmptyString => false
  | String _ hay' => includes hay' needle
  end.

(** The filter of the timeout. *)
Definition filter_mock (q : string) : list Show :=
  filter (λ show, includes (JsString.toLowerCase (title show)) (JsString.toLowerCase q) = true) mockResults.

Definition DELAY_MS : Z := 300.

Record State := mkState {
  query : string;
  isOpen : bool;
  results : list Show;
  isLoading : bool;
  now : Z;
  timer : option (Z * string)     (** the pending timeout: deadline, query of its render *)
}.

Definition set_query v s := mkState v (isOpen s) (results s) (isLoading s) (now s) (timer s).
Definition setIsOpen v s := mkState (query s) v (results s) (isLoading s) (now s) (timer s).
Definition setResults v s := mkState (query s) (isOpen s) v (isLoading s) (now s) (timer s).
Definition setIsLoading v s := mkState (query s) (isOpen s) (results s) v (now s) (timer s).
Definition set_now v s := mkState (query s) (isOpen s) (results s) (isLoading s) v (timer s).
Definition set_timer v s := mkState (query s) (isOpen s) (results s) (isLoading s) (now s) v.

Inductive Event : Type :=
| Change (v : string)          (** [onChange] of the input *)
| Focus
| MouseDownOutside
| ClearClick
| ResultClick (i : nat)        (** the [Link] of the [i]-th result *)
| Wait (dt : Z)
| Fire.

Inductive Output : Type :=
| Navigate (href : string).

Definition init : State := mkState "" false [] false 0 None.

(** ** Operations *)

(** The effect on [[query]], after a render where [query] changed: the
    cleanup clears the pending timeout, then the blank branch empties the
    results and returns, or [isLoading] is set and a timeout started. *)
Definition query_effect (s : State) : State :=
  let s := set_timer None s in
  if JsString.isBlank (query s) then setResults [] s
  else set_timer (Some (now s + DELAY_MS, query s))%Z (setIsLoading true s).

(** [setQuery(v)]: React bails out when the value is unchanged, and the
    effect does not run. *)
Definition setQuery (v : string) (s : State) : State :=
  if String.eqb v (query s) then s else query_effect (set_query v s).

(** The rendering decision of [SearchResults]. *)
Inductive Panel : Type :=
| Spinner
| StartTyping
| NoShows (q : string)
| Listed (rows : list (Z * string * string)).   (** id, title, href *)

Definition href (show : Show) : string := "/show/" +:+ JsString.number_to_string (id show).

(** [isOpen && (query || results.length > 0) && <SearchResults .../>]. *)
Definition view (s : State) : option Panel :=
  if isOpen s && (JsString.truthy (query s) || nonempty (results s)) then
    Some (if isLoading s then Spinner
          else if JsString.isBlank (query s) then StartTyping
          else if nonempty (results s) then Listed ((λ r, (id r, title r, href r)) <$> results s)
          else NoShows (query s))
  else None.

Definition step (s : State) (e : Event) : option (State * list Output) :=
  match e with
  | Change v => Some (setIsOpen true (setQuery v s), [])
  | Focus => Some (setIsOpen true s, [])
  | MouseDownOutside => Some (setIsOpen false s, [])
  | ClearClick =>
      if JsString.truthy (query s) then Some (setIsOpen false (setResults [] (setQuery "" s)), [])
      else None
  | ResultClick i =>
      match view s, results s !! i with
      | Some (Listed _), Some r => Some (setIsOpen false s, [Navigate (href r)])
      | _, _ => None
      end
  | Wait dt =>
      if bool_decide (0 ≤ dt)%Z &&
         from_option (λ t, bool_decide (now s + dt ≤ t.1)%Z) true (timer s)
      then Some (set_now (now s + dt)%Z s, []) else None
  | Fire =>
      match timer s with
      | Some (d, q) =>
          if bool_decide (d = now s)
          then Some (set_timer None (setIsLoading false (setResults (filter_mock q) s)), [])
          else None
      | None => None
      end
  end.

Definition next (s : State) (e : Event) : option State := fst <$> step s e.

(** What the results are once the timeout has run. *)
Definition settled (q : string) : list Show := if JsString.isBlank q then [] else filter_mock q.

(** The invariant: a pending timeout carries the current, non-blank query,
    with [isLoading] set and its deadline within 300 ms; with none
    pending, the results are settled for the current query. *)
Definition inv (s : State) : Prop :=
  match timer s with
  | Some (d, q) => q = query s ∧ JsString.isBlank q = false ∧ isLoading s = true ∧
                   (now s ≤ d ≤ now s + DELAY_MS)%Z
  | None => results s = settled (query s)
  end.

(** Time passing or the timeout firing: no user input. *)
Definition timed (e : Event) : bool :=
  match e with Wait _ | Fire => true | _ => false end.

(** ** Lemmas *)

Lemma legacy_query_effect_inv s : inv (query_effect s).
Proof.
  unfold query_effect, inv, settled. simpl.
  destruct (JsString.isBlank (query s)) eqn:E; simpl; [by rewrite E|].
  unfold DELAY_MS. repeat split; [done | lia | lia].
Qed.

Lemma legacy_setQuery_inv v s : inv s → inv (setQuery v s).
Proof.
  unfold setQuery. destruct (String.eqb v (query s)); [done | intros _; apply legacy_query_effect_inv].
Qed.

Lemma legacy_setIsOpen_inv b s : inv s → inv (setIsOpen b s).
Proof. done. Qed.

Lemma legacy_step_inv s e s' os : inv s → step s e = Some (s', os) → inv s'.
Proof.
  intros Hi Hst. destruct e as [v| | | |i|dt|]; simpl in Hst.
  - injection Hst as <- _. by apply legacy_setIsOpen_inv, legacy_setQuery_inv.
  - by injection Hst as <- _.
  - by injection Hst as <- _.
  - destruct (JsString.truthy (query s)) eqn:Et; [injection Hst as <- _ | done].
    unfold setQuery. rewrite (proj2 (String.eqb_neq _ _)) by (intros Hq; rewrite <- Hq in Et; done).
    unfold inv, query_effect, settled. simpl. done.
  - destruct (view s) as [[| | |rows]|], (results s !! i); try done. by injection Hst as <- _.
  - destruct (bool_decide _ && _) eqn:E; [injection Hst as <- _ | done].
    apply andb_true_iff in E as [Hdt%bool_decide_eq_true Hle]. unfold inv in *. simpl.
    destruct (timer s) as [[d q]|]; [|done]. simpl in Hle. apply bool_decide_eq_true in Hle.
    destruct Hi as (Hq & Hb & Hl & Hd). unfold DELAY_MS in *. split; [done|]. split; [done|]. split; [done|]. lia.
  - destruct (timer s) as [[d q]|] eqn:Et; [|done]. case_bool_decide; [injection Hst as <- _ | done].
    unfold inv in *. rewrite Et in Hi. destruct Hi as (-> & Hb & _). simpl. unfold settled. by rewrite Hb.
Qed.

Lemma legacy_reach_inv s : reach next init s → inv s.
Proof.
  apply (reach_ind_inv next init inv); [done|].
  intros s0 e s1 Hi. unfold next. destruct (step s0 e) as [[s2 os]|] eqn:E; [|done].
  intros [= <-]. by eapply legacy_step_inv.
Qed.

Lemma timed_keeps s e s' :
  timer s = None → timed e = true → next s e = Some s' →
  s' = set_now (now s') s ∧ timer s' = None.
Proof.
  intros Ht He. unfold next. destruct e; try done; simpl; rewrite Ht.
  - destruct (bool_decide _ && _); [|done]. by intros [= <-].
  - done.
Qed.

(** ** Theorems *)

(** C35: In every reachable state of the older search box with no timeout
    pending, the results are exactly the shows of the list whose lowercased
    title contains the lowercased query, or none for a blank query. *)
Theorem legacy_search_settled s :
  reach next init s → timer s = None → results s = settled (query s).
Proof. intros Hr Ht. pose proof (legacy_reach_inv s Hr) as Hi. unfold inv in Hi. by rewrite Ht in Hi. Qed.

(** From every reachable state with a timeout pending, waiting until
    its deadline and running it gives the filter of the current query and
    turns [isLoading] off. *)
Theorem legacy_search_delivers s d q :
  reach next init s → timer s = Some (d, q) →
  ∃ s', runs next s [Wait (d - now s)%Z; Fire] = Some s' ∧
        query s' = query s ∧ results s' = filter_mock (query s) ∧ isLoading s' = false ∧ timer s' = None.
Proof.
  intros Hr Ht. pose proof (legacy_reach_inv s Hr) as Hi. unfold inv in Hi. rewrite Ht in Hi.
  destruct Hi as (-> & _ & _ & Hd).
  exists (set_timer None (setIsLoading false (setResults (filter_mock (query s)) (set_now d s)))).
  split; [|done]. unfold next; simpl. rewrite Ht. simpl.
  rewrite !bool_decide_true by lia. simpl. rewrite Ht, bool_decide_true by lia.
  by replace (now s + (d - now s))%Z with d by lia.
Qed.

(** The input emptied after a keystroke and then given a lone space. *)
Definition stuck_trace : list Event := [Change "a"; Change ""; Change " "].

(** C36: The blank branch of the effect does not reset [isLoading]: after
    typing [a], emptying the input within 300 ms and typing a space, the
    panel shows the spinner, no timeout is pending, and no passage of time
    removes the spinner. *)
Theorem legacy_spinner_stuck :
  ∃ s, runs next init stuck_trace = Some s ∧ view s = Some Spinner ∧ timer s = None ∧
       ∀ es s', forallb timed es = true → runs next s es = Some s' → view s' = Some Spinner.
Proof.
  eexists. split; [reflexivity|]. split; [reflexivity|]. split; [reflexivity|].
  assert (H : ∀ es s s', view s = Some Spinner → timer s = None → forallb timed es = true →
                runs next s es = Some s' → view s' = Some Spinner).
  { induction es as [|e es IH]; intros s s' Hv Ht He; simpl; [by intros [= <-]|].
    destruct (next s e) as [s1|] eqn:E; [|done]. simpl in He. apply andb_true_iff in He as [He1 He2].
    destruct (timed_keeps s e s1 Ht He1 E) as [Hs1 Ht1].
    apply IH; [|done..]. rewrite Hs1. exact Hv. }
  intros es s'. apply H; reflexivity.
Qed.

(** ** Examples *)

Definition typed_THE : State := setIsOpen true (setQuery "THE" init).

Lemma legacy_search_delivers_witness :
  ∃ s', runs next typed_THE [Wait (300 - now typed_THE)%Z; Fire] = Some s' ∧
        query s' = query typed_THE ∧ results s' = filter_mock (query typed_THE) ∧
        isLoading s' = false ∧ timer s' = None.
Proof.
  apply (legacy_search_delivers typed_THE 300 "THE").
  - eapply (reach_next next init init (Change "THE")); [constructor | reflexivity].
  - reflexivity.
Defined.

Lemma legacy_search_settled_witness :
  let s := runs next init [Change "crown"; Wait 300; Fire] in
  s = Some (mkState "crown" true [nth 1 mockResults (mkShow 0 "" "" 0 0)] false 300 None) ∧
  ∀ s', s = Some s' → results s' = settled (query s').
Proof.
  split; [reflexivity|]. intros s' Hs. apply legacy_search_settled; [|by injection Hs as <-].
  apply (runs_reach next init init [Change "crown"; Wait 300; Fire]); [constructor|].
  by injection Hs as <-.
Defined.

End LegacySearch.
